(** * nf-co2footprint: the CPU TDP table scripts

    A shallow embedding of
    [plugins/nf-co2footprint/src/resources/tdp-cpu/merge.py] (the multi-source
    merger) and of [GreenAlgorithms/pre_process.py] (the Green-Algorithms
    normalizer), and the properties of them stated in the specification.

    Conventions of the embedding.
    - A Python [str] is a list of Unicode code points.
    - A Python [float] is a binary64 value (Rocq's primitive floats); [+] and
      [/] are the IEEE operations, as in CPython.
    - A Python [int] is a [Z].
    - A [dict] is an association list in insertion order without repeated
      keys; assignment to a present key keeps the key's position.
    - An exception is a value of [exn]; code that may raise returns a
      [result].
    - A CSV file is what [csv.reader] yields for it: a list of rows, each a
      list of strings.  [csv.DictReader] is modelled on top of that.
    - The builtins [float(str)], [int(str)] and [repr(float)] are the fields
      of the class [Builtins]; every general theorem is proved for any
      implementation of them. *)

From Stdlib Require Import ZArith NArith List String Ascii Bool Lia.
From Stdlib Require Import PrimFloat SpecFloat FloatOps.
From Stdlib Require Import DecimalString.
Import ListNotations.

Set Implicit Arguments.

(* ================================================================== *)
(** ** Python strings *)

Module Str.

(** A code point. *)
Definition char := N.
Definition str := list char.

Definition char_eqb : char -> char -> bool := N.eqb.

Definition eqb (a b : str) : bool :=
  if list_eq_dec N.eq_dec a b then true else false.

(** An ASCII literal as a [str]. *)
Definition lit (s : string) : str :=
  map N_of_ascii (list_ascii_of_string s).

(** [s.startswith(p)]. *)
Fixpoint startswith (p s : str) : bool :=
  match p, s with
  | [], _ => true
  | _ :: _, [] => false
  | a :: p', b :: s' => char_eqb a b && startswith p' s'
  end.

(** [p in s] for strings: [p] occurs in [s] as a contiguous run. *)
Fixpoint contains (p s : str) : bool :=
  startswith p s ||
  match s with
  | [] => false
  | _ :: s' => contains p s'
  end.

(** [s.replace(old, new)]: every occurrence of [old], found left to right
    without overlap, becomes [new].  [skip] counts the characters of a match
    still to be dropped.  (For an empty [old] Python puts [new] around every
    character; the scripts never pass one.) *)
Fixpoint replace_from (old new : str) (skip : nat) (s : str) : str :=
  match s with
  | [] => []
  | c :: s' =>
      match skip with
      | S k => replace_from old new k s'
      | O =>
          if startswith old s
          then new ++ replace_from old new (pred (List.length old)) s'
          else c :: replace_from old new O s'
      end
  end.

Definition replace (old new s : str) : str :=
  match old with
  | [] => new ++ flat_map (fun c => c :: new) s
  | _ :: _ => replace_from old new O s
  end.

(** [c.isspace()]: the code points Python treats as white space. *)
Definition isspace (c : char) : bool :=
  ((9 <=? c) && (c <=? 13) || (28 <=? c) && (c <=? 32) ||
   (c =? 133) || (c =? 160) || (c =? 5760) ||
   (8192 <=? c) && (c <=? 8202) || (c =? 8232) || (c =? 8233) ||
   (c =? 8239) || (c =? 8287) || (c =? 12288))%N.

Fixpoint lstrip (s : str) : str :=
  match s with
  | c :: s' => if isspace c then lstrip s' else s
  | [] => []
  end.

Definition rstrip (s : str) : str := rev (lstrip (rev s)).

(** [s.strip()]. *)
Definition strip (s : str) : str := rstrip (lstrip s).

(** [s.split(sep)] for a one-character separator: the pieces between the
    occurrences of [sep]; never empty. *)
Fixpoint split (sep : char) (s : str) : list str :=
  match s with
  | [] => [[]]
  | c :: s' =>
      if char_eqb c sep then [] :: split sep s'
      else match split sep s' with
           | piece :: rest => (c :: piece) :: rest
           | [] => [[c]]
           end
  end.

(** [sep.join(pieces)]. *)
Fixpoint join (sep : str) (pieces : list str) : str :=
  match pieces with
  | [] => []
  | [p] => p
  | p :: rest => p ++ sep ++ join sep rest
  end.

(** Code points used by the scripts that are not ASCII. *)
Definition registered : str := [174%N].   (* U+00AE, the registered sign *)
Definition trademark : str := [8482%N].   (* U+2122, the trade mark sign *)

End Str.

Import Str.

(* ================================================================== *)
(** ** Exceptions *)

Inductive exn : Set :=
| ValueError | KeyError | AttributeError | TypeError | IndexError
| StopIteration | FileNotFoundError | OverflowError | ZeroDivisionError
| UnboundLocalError.

(** The value of an expression, or the exception it raises. *)
Inductive result (A : Type) : Type :=
| Ok (a : A)
| Raise (e : exn).
Arguments Ok {A} a.
Arguments Raise {A} e.

Definition bind {A B} (r : result A) (k : A -> result B) : result B :=
  match r with
  | Ok a => k a
  | Raise e => Raise e
  end.

Declare Scope py_scope.
Delimit Scope py_scope with py.
Notation "x <- r ;; k" := (bind r (fun x => k))
  (at level 61, r at next level, right associativity) : py_scope.
Open Scope py_scope.

(** [float(s)], [int(s)]: [None] is Python's [ValueError]. *)
Definition or_value_error {A} (o : option A) : result A :=
  match o with
  | Some a => Ok a
  | None => Raise ValueError
  end.

(* ================================================================== *)
(** ** Dictionaries *)

Module Dict.
Section Dict.
Variable V : Type.

Definition dict := list (str * V).

(** [d.get(k)]. *)
Fixpoint get (d : dict) (k : str) : option V :=
  match d with
  | [] => None
  | (k', v) :: d' => if Str.eqb k' k then Some v else get d' k
  end.

(** [k in d]. *)
Definition mem (d : dict) (k : str) : bool :=
  match get d k with Some _ => true | None => false end.

(** [d[k]] as an expression. *)
Definition getitem (d : dict) (k : str) : result V :=
  match get d k with
  | Some v => Ok v
  | None => Raise KeyError
  end.

(** [d[k] = v]: a present key keeps its place, a new one goes last. *)
Fixpoint set (d : dict) (k : str) (v : V) : dict :=
  match d with
  | [] => [(k, v)]
  | (k', v') :: d' =>
      if Str.eqb k' k then (k', v) :: d' else (k', v') :: set d' k v
  end.

Definition keys (d : dict) : list str := map fst d.
Definition values (d : dict) : list V := map snd d.

(** The assignments [d[k] = v] of a list of pairs, in order. *)
Definition update (d : dict) (kvs : list (str * V)) : dict :=
  fold_left (fun d kv => set d (fst kv) (snd kv)) kvs d.

(** The last value a list of assignments gives to [k]. *)
Fixpoint last_write (kvs : list (str * V)) (k : str) : option V :=
  match kvs with
  | [] => None
  | (k', v) :: rest =>
      match last_write rest k with
      | Some v' => Some v'
      | None => if Str.eqb k' k then Some v else None
      end
  end.
End Dict.
End Dict.

(** [d1 | d2]: the entries of [d2] assigned into a copy of [d1]. *)
Definition dict_union {V} (d1 d2 : Dict.dict V) : Dict.dict V :=
  Dict.update d1 d2.

(* ================================================================== *)
(** ** Numbers *)

(** [float(n)] for an int: rounded to nearest, ties to even; an int beyond
    the largest float raises [OverflowError]. *)
Definition float_of_int (n : Z) : result float :=
  match binary_normalize prec emax n 0 false with
  | S754_infinity _ => Raise OverflowError
  | x => Ok (SF2Prim x)
  end.

(** [int(x)] for a float: truncation towards zero. *)
Definition int_of_float (x : float) : result Z :=
  match Prim2SF x with
  | S754_zero _ => Ok 0%Z
  | S754_infinity _ => Raise OverflowError
  | S754_nan => Raise ValueError
  | S754_finite s m e =>
      let a := if (0 <=? e)%Z then (Zpos m * 2 ^ e)%Z
               else (Zpos m / 2 ^ (- e))%Z in
      Ok (if s then (- a)%Z else a)
  end.

(** [x / n] for a float [x] and an int [n]: [n] is converted first
    ([OverflowError]); a zero divisor raises [ZeroDivisionError].  The
    converted divisor is zero exactly when [n] is, so the test is on [n]. *)
Definition truediv (x : float) (n : Z) : result float :=
  y <- float_of_int n ;;
  if (n =? 0)%Z then Raise ZeroDivisionError else Ok (x / y)%float.

(** A value that is a float or an int ([tdp / n if n > 0 else 0]). *)
Inductive number : Set :=
| Float (x : float)
| Int (n : Z).

(** [str(n)] for an int. *)
Definition str_of_int (n : Z) : str :=
  lit (NilZero.string_of_int (Z.to_int n)).

(** The builtins taken from the Python runtime. *)
Class Builtins : Type := {
  (** [float(s)] for a string; [None] is [ValueError]. *)
  float_of_str : str -> option float;
  (** [int(s)] for a string; [None] is [ValueError]. *)
  int_of_str : str -> option Z;
  (** [str(x)] for a float. *)
  str_of_float : float -> str
}.

Definition str_of_number `{Builtins} (v : number) : str :=
  match v with
  | Float x => str_of_float x
  | Int n => str_of_int n
  end.

(* ================================================================== *)
(** ** Files and the csv module *)

(** What [csv.reader] yields for a file: its rows, a blank line being []. *)
Definition csv_rows := list (list str).

(** The files the scripts can see: the rows of a CSV file by path, and the
    entries of a directory by path.  [None]: there is no such file.  A path
    is a file the csv module reads to its end, or absent: the other ways in
    which [open] fails (a directory at the path, a file that may not be
    read) and the csv module's own errors have no counterpart here. *)
Record files : Type := {
  csv_at : str -> option csv_rows;
  dir_at : str -> option (list str)
}.

(** [open(path, 'r')] followed by [csv.reader] / [csv.DictReader]. *)
Definition open (fs : files) (path : str) : result csv_rows :=
  match csv_at fs path with
  | Some rows => Ok rows
  | None => Raise FileNotFoundError
  end.

(** [os.listdir(path)]. *)
Definition listdir (fs : files) (path : str) : result (list str) :=
  match dir_at fs path with
  | Some names => Ok names
  | None => Raise FileNotFoundError
  end.

(** [os.path.join(root, name)] for a directory entry [name]. *)
Definition path_join (root name : str) : str := root ++ lit "/" ++ name.

(** A row of [csv.DictReader]: column name to cell; a cell the line is too
    short for is Python's [None].  (The entry DictReader keeps under the key
    [None] for surplus cells is left out: no script reads it.) *)
Definition row := Dict.dict (option str).

(** [csv.DictReader(f).fieldnames]: the first row, [None] for a file with
    no row. *)
Definition fieldnames (rows : csv_rows) : option (list str) :=
  match rows with
  | [] => None
  | names :: _ => Some names
  end.

(** [dict(zip(fieldnames, cells))], then [None] under the names left over. *)
Fixpoint zip_row (names cells : list str) (d : row) : row :=
  match names, cells with
  | n :: names', c :: cells' => zip_row names' cells' (Dict.set d n (Some c))
  | _ :: _, [] => fold_left (fun d n => Dict.set d n None) names d
  | [], _ => d
  end.

Definition is_blank (cells : list str) : bool :=
  match cells with [] => true | _ :: _ => false end.

(** Iterating a [csv.DictReader]: the rows after the first, blank ones
    skipped, each as a dict. *)
Definition dict_rows (rows : csv_rows) : list row :=
  match rows with
  | [] => []
  | names :: body =>
      map (fun cells => zip_row names cells [])
          (filter (fun cells => negb (is_blank cells)) body)
  end.

(** [h in names] for a list of strings. *)
Definition in_list (h : str) (names : list str) : bool :=
  existsb (Str.eqb h) names.

(** [for header in headers: if header not in fieldnames: raise ValueError].
    With [fieldnames] being [None] the membership test raises [TypeError]. *)
Fixpoint check_headers (headers : list str) (names : option (list str))
  : result unit :=
  match headers with
  | [] => Ok tt
  | h :: rest =>
      match names with
      | None => Raise TypeError
      | Some ns =>
          if in_list h ns then check_headers rest names
          else Raise ValueError
      end
  end.

(** A method call on a cell ([.strip()], [.replace()]): on [None] it raises
    [AttributeError]. *)
Definition method (c : option str) : result str :=
  match c with
  | Some s => Ok s
  | None => Raise AttributeError
  end.

(** [row[k]] used as a string. *)
Definition cell (r : row) (k : str) : result str :=
  c <- Dict.getitem r k ;; method c.

(* ================================================================== *)
(** ** The merger: records, console, state *)

Record processor : Type := {
  tdp : float;
  manufacturer : str;
  model : str;
  n_cores : Z;
  n_threads : Z;
  tdp_per_core : number;
  tdp_per_thread : number;
  source : str
}.

(** What the merger prints. *)
Inductive message : Type :=
| RowError (r : row)           (* Error processing row ...: ... *)
| FileNotFound (path : str)    (* File not found: ... *)
| FileError.                   (* Error: ... *)

(** The shared mapping [processors] and the console. *)
Record state : Type := {
  processors : Dict.dict processor;
  console : list message
}.

(** A statement: it ends normally or raises, and leaves a state. *)
Definition stmt := state -> result unit * state.

(** [processors[processor_model] = processor]. *)
Definition store (p : processor) (st : state) : state :=
  {| processors := Dict.set (processors st) (model p) p;
     console := console st |}.

Definition print (m : message) (st : state) : state :=
  {| processors := processors st; console := console st ++ [m] |}.

(** [tdp / n if n > 0 else 0]. *)
Definition per_unit (tdp : float) (n : Z) : result number :=
  if (n >? 0)%Z then x <- truediv tdp n ;; Ok (Float x) else Ok (Int 0).

(** The row loop of the four DictReader parsers:
    [for row in csv_reader: try: ... processors[model] = processor
     except ValueError: print(...)].
    [build] is the body of the [try] up to the assignment; [Ok None] is its
    [continue]. *)
Fixpoint for_rows (build : row -> result (option processor))
    (rows : list row) (st : state) : result unit * state :=
  match rows with
  | [] => (Ok tt, st)
  | r :: rest =>
      match build r with
      | Ok (Some p) => for_rows build rest (store p st)
      | Ok None => for_rows build rest st
      | Raise ValueError => for_rows build rest (print (RowError r) st)
      | Raise e => (Raise e, st)
      end
  end.

(** The handlers of the outer [try]:
    [except FileNotFoundError: print(...)], [except ValueError: print(...)]. *)
Definition file_handlers (path : str) (e : exn) (st : state)
  : result unit * state :=
  match e with
  | FileNotFoundError => (Ok tt, print (FileNotFound path) st)
  | ValueError => (Ok tt, print FileError st)
  | _ => (Raise e, st)
  end.

(** The skeleton the four DictReader parsers share: open the file, check the
    headers, loop over the rows, all inside the outer [try]. *)
Definition read_and_process (headers : list str)
    (build : row -> result (option processor))
    (fs : files) (path : str) : stmt :=
  fun st =>
    match open fs path with
    | Raise e => file_handlers path e st
    | Ok rows =>
        match check_headers headers (fieldnames rows) with
        | Raise e => file_handlers path e st
        | Ok _ =>
            match for_rows build (dict_rows rows) st with
            | (Raise e, st') => file_handlers path e st'
            | done => done
            end
        end
    end.

(* ================================================================== *)
(** ** The merger: the five parsers *)

Section Parsers.
Context `{Builtins}.

(** [float(s)] and [int(s)] as expressions. *)
Definition float_ (s : str) : result float := or_value_error (float_of_str s).
Definition int_ (s : str) : result Z := or_value_error (int_of_str s).

(** [l[i]] for a list. *)
Definition item {A} (l : list A) (i : nat) : result A :=
  match nth_error l i with
  | Some a => Ok a
  | None => Raise IndexError
  end.

(** *** AMD *)

Definition amd_headers : list str :=
  [lit "Name"; lit "Default TDP"; lit "# of CPU Cores"; lit "# of Threads"].

Definition amd_source : str :=
  lit "https://www.amd.com/en/products/specifications/processors.html".

(** Lines 29-33: a TDP holding "-" is the mean of its first two pieces. *)
Definition amd_tdp (tdp : str) : result float :=
  if contains (lit "-") tdp then
    let tdp_splitted := split 45%N tdp in
    a <- (s <- item tdp_splitted 0 ;; float_ s) ;;
    b <- (s <- item tdp_splitted 1 ;; float_ s) ;;
    Ok ((a + b) / 2)%float
  else float_ tdp.

(** Lines 21-47: the body of the [try] of [read_and_process_amd]. *)
Definition amd_processor (r : row) : result (option processor) :=
  name <- cell r (lit "Name") ;;
  let processor_model :=
    strip (replace trademark [] (replace (lit "AMD") [] name)) in
  tdp <- cell r (lit "Default TDP") ;;
  let tdp := replace (lit "+") [] (replace (lit "W") [] (strip tdp)) in
  n_cores <- cell r (lit "# of CPU Cores") ;;
  let n_cores := strip n_cores in
  n_threads <- cell r (lit "# of Threads") ;;
  let n_threads := strip n_threads in
  if Str.eqb n_cores [] || Str.eqb n_threads [] || Str.eqb tdp [] then
    Ok None
  else
    tdp <- amd_tdp tdp ;;
    n_cores <- int_ n_cores ;;
    n_threads <- int_ n_threads ;;
    tdp_per_core <- per_unit tdp n_cores ;;
    tdp_per_thread <- per_unit tdp n_threads ;;
    Ok (Some {| tdp := tdp;
                manufacturer := lit "AMD";
                model := processor_model;
                n_cores := n_cores;
                n_threads := n_threads;
                tdp_per_core := tdp_per_core;
                tdp_per_thread := tdp_per_thread;
                source := amd_source |}).

Definition read_and_process_amd : files -> str -> stmt :=
  read_and_process amd_headers amd_processor.

(** *** Ampere Altra *)

Definition ampere_altra_headers : list str :=
  [lit "PRODUCT NAME"; lit "CORES"; lit "USAGE POWER (W)"].

Definition ampere_altra_source : str :=
  lit "https://amperecomputing.com/briefs/ampere-altra-family-product-brief".

(** Lines 74-89. *)
Definition ampere_altra_processor (r : row) : result (option processor) :=
  tdp <- cell r (lit "USAGE POWER (W)") ;;
  tdp <- float_ (replace (lit "W") [] (strip tdp)) ;;
  n_cores <- cell r (lit "CORES") ;;
  n_cores <- float_ (strip n_cores) ;;
  n_cores <- int_of_float n_cores ;;
  let n_threads := n_cores in
  name <- cell r (lit "PRODUCT NAME") ;;
  let processor_model := lit "AmpereAltra " ++ strip name in
  tdp_per_core <- per_unit tdp n_cores ;;
  tdp_per_thread <- per_unit tdp n_threads ;;
  Ok (Some {| tdp := tdp;
              manufacturer := lit "Ampere";
              model := processor_model;
              n_cores := n_cores;
              n_threads := n_threads;
              tdp_per_core := tdp_per_core;
              tdp_per_thread := tdp_per_thread;
              source := ampere_altra_source |}).

Definition read_and_process_ampere_altra : files -> str -> stmt :=
  read_and_process ampere_altra_headers ampere_altra_processor.

(** *** Ampere One *)

Definition ampere_one_headers : list str :=
  [lit "Processor Model"; lit "Core Count"; lit "Usage Power*"].

Definition ampere_one_source : str :=
  lit "https://amperecomputing.com/briefs/ampereone-family-product-brief".

(** Lines 119-135. *)
Definition ampere_one_processor (r : row) : result (option processor) :=
  name <- cell r (lit "Processor Model") ;;
  let processor_model := strip (replace registered [] name) in
  tdp <- cell r (lit "Usage Power*") ;;
  tdp <- float_ (replace (lit "W") [] (strip tdp)) ;;
  n_cores <- cell r (lit "Core Count") ;;
  n_cores <- int_ (strip n_cores) ;;
  let n_threads := n_cores in
  tdp_per_core <- per_unit tdp n_cores ;;
  tdp_per_thread <- per_unit tdp n_threads ;;
  Ok (Some {| tdp := tdp;
              manufacturer := lit "Ampere";
              model := processor_model;
              n_cores := n_cores;
              n_threads := n_threads;
              tdp_per_core := tdp_per_core;
              tdp_per_thread := tdp_per_thread;
              source := ampere_one_source |}).

Definition read_and_process_ampere_one : files -> str -> stmt :=
  read_and_process ampere_one_headers ampere_one_processor.

(** *** Green-Algorithms *)

Definition green_algorithms_headers : list str :=
  [lit "model"; lit "TDP"; lit "n_cores"; lit "TDP_per_core"; lit "source";
   lit "manufacturer"; lit "threads"].

(** Lines 222-239. *)
Definition green_algorithms_processor (r : row)
  : result (option processor) :=
  name <- cell r (lit "model") ;;
  let processor_model := strip name in
  manufacturer <- cell r (lit "manufacturer") ;;
  let manufacturer := strip manufacturer in
  tdp <- cell r (lit "TDP") ;;
  tdp <- float_ (replace (lit "W") [] (strip tdp)) ;;
  n_cores <- cell r (lit "n_cores") ;;
  n_cores <- float_ (strip n_cores) ;;
  n_cores <- int_of_float n_cores ;;
  n_threads <- cell r (lit "threads") ;;
  n_threads <- int_ (strip n_threads) ;;
  tdp_per_core <- per_unit tdp n_cores ;;
  tdp_per_thread <- per_unit tdp n_threads ;;
  source <- cell r (lit "source") ;;
  Ok (Some {| tdp := tdp;
              manufacturer := manufacturer;
              model := processor_model;
              n_cores := n_cores;
              n_threads := n_threads;
              tdp_per_core := tdp_per_core;
              tdp_per_thread := tdp_per_thread;
              source := strip source |}).

Definition read_and_process_green_algorithms : files -> str -> stmt :=
  read_and_process green_algorithms_headers green_algorithms_processor.

End Parsers.

(* ================================================================== *)
(** ** The merger: the Intel parser *)

Section Intel.
Context `{Builtins}.

(** The attribute rows the parser keeps (line 170). *)
Definition intel_keys : list str :=
  [lit "Product Collection"; lit "Total Cores"; lit "Total Threads";
   lit "TDP"; lit "Processor Base Power"].

Definition intel_source : str :=
  lit "https://www.intel.com/content/www/us/en/products/details/processors.html".

(** [processor_data]: processor name to its attributes. *)
Definition details := Dict.dict str.
Definition processor_data := Dict.dict details.

(** Lines 172-173:
    [for i, value in enumerate(row[1:]):
       processor_data[processor_names[i]][key] = value]. *)
Fixpoint intel_fill (processor_names : list str) (key : str) (i : nat)
    (values : list str) (data : processor_data) : result processor_data :=
  match values with
  | [] => Ok data
  | value :: rest =>
      name <- item processor_names i ;;
      d <- Dict.getitem data name ;;
      intel_fill processor_names key (S i) rest
        (Dict.set data name (Dict.set d key value))
  end.

(** Lines 168-173: the loop over the attribute rows. *)
Fixpoint intel_rows (processor_names : list str) (rows : csv_rows)
    (data : processor_data) : result processor_data :=
  match rows with
  | [] => Ok data
  | r :: rest =>
      match r with
      | key :: values =>
          if in_list key intel_keys then
            data' <- intel_fill processor_names key 0 values data ;;
            intel_rows processor_names rest data'
          else intel_rows processor_names rest data
      | [] => intel_rows processor_names rest data
      end
  end.

(** Lines 176-177: [processor_data[name]["Processor Name"] = name]. *)
Fixpoint intel_name_all (processor_names : list str) (data : processor_data)
  : result processor_data :=
  match processor_names with
  | [] => Ok data
  | name :: rest =>
      d <- Dict.getitem data name ;;
      intel_name_all rest
        (Dict.set data name (Dict.set d (lit "Processor Name") name))
  end.

(** Lines 149-177: one family file read into [processor_data].  The two
    [next] calls skip two rows, the third takes the names row; each raises
    [StopIteration] on a file that has run out of rows. *)
Definition intel_table (rows : csv_rows) : result processor_data :=
  match rows with
  | _ :: _ :: names_row :: body =>
      let processor_names := tl names_row in
      let data :=
        fold_left (fun d name => Dict.set d name []) processor_names [] in
      data <- intel_rows processor_names body data ;;
      intel_name_all processor_names data
  | _ => Raise StopIteration
  end.

(** The local variable [tdp]: a string after lines 182/184, a float after
    line 189.  It is never reset, so it outlives the processor and the file
    it was set for. *)
Inductive tdp_value : Type :=
| TdpStr (s : str)
| TdpFloat (x : float).

(** Lines 181-203 for one processor.  The result is the new value of the
    variable [tdp] and the record to store ([None] for [continue]). *)
Definition intel_processor (processor_name : str) (d : details)
    (tdp_var : option tdp_value)
  : result (option tdp_value * option processor) :=
  tdp_var <-
    match Dict.get d (lit "TDP") with
    | Some s => Ok (Some (TdpStr (replace (lit "W") [] (strip s))))
    | None =>
        match Dict.get d (lit "Processor Base Power") with
        | Some s => Ok (Some (TdpStr (replace (lit "W") [] (strip s))))
        | None => Ok tdp_var
        end
    end ;;
  match tdp_var with
  | None => Raise UnboundLocalError
  | Some (TdpStr []) => Ok (tdp_var, None)
  | Some v =>
      let processor_model :=
        strip (replace registered [] (replace (lit "Intel") [] processor_name)) in
      tdp <- match v with
             | TdpStr s => float_ s
             | TdpFloat x => Ok x
             end ;;
      n_cores <- Dict.getitem d (lit "Total Cores") ;;
      n_cores <- int_ (strip n_cores) ;;
      n_threads <- Dict.getitem d (lit "Total Threads") ;;
      n_threads <- int_ (strip n_threads) ;;
      tdp_per_core <- per_unit tdp n_cores ;;
      tdp_per_thread <- per_unit tdp n_threads ;;
      Ok (Some (TdpFloat tdp),
          Some {| tdp := tdp;
                  manufacturer := lit "Intel";
                  model := processor_model;
                  n_cores := n_cores;
                  n_threads := n_threads;
                  tdp_per_core := tdp_per_core;
                  tdp_per_thread := tdp_per_thread;
                  source := intel_source |})
  end.

(** Lines 180-204: [for processor_name, details in processor_data.items()].
    Nothing is caught here: an exception ends the loop and leaves the
    function. *)
Fixpoint intel_items (items : list (str * details))
    (tdp_var : option tdp_value) (st : state)
  : result (option tdp_value) * state :=
  match items with
  | [] => (Ok tdp_var, st)
  | (processor_name, d) :: rest =>
      match intel_processor processor_name d tdp_var with
      | Ok (tdp_var', Some p) => intel_items rest tdp_var' (store p st)
      | Ok (tdp_var', None) => intel_items rest tdp_var' st
      | Raise e => (Raise e, st)
      end
  end.

(** Lines 146-204: [for file in os.listdir(root_dir)]. *)
Fixpoint intel_files (fs : files) (root_dir : str) (names : list str)
    (tdp_var : option tdp_value) (st : state) : result unit * state :=
  match names with
  | [] => (Ok tt, st)
  | file :: rest =>
      match (rows <- open fs (path_join root_dir file) ;; intel_table rows)
      with
      | Raise e => (Raise e, st)
      | Ok data =>
          match intel_items data tdp_var st with
          | (Ok tdp_var', st') => intel_files fs root_dir rest tdp_var' st'
          | (Raise e, st') => (Raise e, st')
          end
      end
  end.

Definition read_and_process_intel (fs : files) (root_dir : str) : stmt :=
  fun st =>
    match listdir fs root_dir with
    | Raise e => (Raise e, st)
    | Ok names => intel_files fs root_dir names None st
    end.

End Intel.

(* ================================================================== *)
(** ** The merger: the run *)

Section Merge.
Context `{Builtins}.

(** [s1; s2]: the second statement runs when the first ends normally. *)
Definition seq (s1 s2 : stmt) : stmt :=
  fun st =>
    match s1 st with
    | (Ok _, st') => s2 st'
    | (Raise e, st') => (Raise e, st')
    end.

(** Lines 250-256. *)
Definition initial : state := {| processors := []; console := [] |}.

Definition amd_path : str := lit "AMD/amd-all-specification.csv".
Definition ampere_altra_path : str := lit "AMPERE/ampere-altra-specification.csv".
Definition ampere_one_path : str := lit "AMPERE/ampere-one-specification.csv".
Definition intel_path : str := lit "Intel".
Definition green_algorithms_path : str :=
  lit "GreenAlgorithms/TDP_cpu.v2.2.updated.csv".

Definition read_all (fs : files) : stmt :=
  seq (read_and_process_amd fs amd_path)
 (seq (read_and_process_ampere_altra fs ampere_altra_path)
 (seq (read_and_process_ampere_one fs ampere_one_path)
 (seq (read_and_process_intel fs intel_path)
      (read_and_process_green_algorithms fs green_algorithms_path)))).

(** [file.write(s)] on the text written so far. *)
Definition write (written s : str) : str := written ++ s.

Definition newline : str := [10%N].
Definition comma : str := lit ",".

(** Line 262: the f-string written for one record. *)
Definition record_text (p : processor) : str :=
  newline ++ model p ++ comma ++ str_of_float (tdp p) ++ comma ++
  str_of_int (n_cores p) ++ comma ++ str_of_number (tdp_per_core p) ++
  comma ++ source p.

(** Lines 258-262: what is written to the output file. *)
Definition serialize (d : Dict.dict processor) : str :=
  let f := write [] (lit "index,in Watt,,," ++ newline) in
  let f := write f (lit "model,TDP,n_cores,TDP_per_core,source") in
  fold_left (fun f p => write f (record_text p)) (Dict.values d) f.

(** The whole script: the text of [../TDP_cpu.v2.2.csv], or the exception
    the run died of (the output file is then not written), and the final
    state. *)
Definition merge (fs : files) : result str * state :=
  match read_all fs initial with
  | (Ok _, st) => (Ok (serialize (processors st)), st)
  | (Raise e, st) => (Raise e, st)
  end.

End Merge.

(* ================================================================== *)
(** ** The Green-Algorithms normalizer (pre_process.py) *)

Module PreProcess.

(** A cell of a pandas column: a string, an int or a float (a missing
    value is the float NaN). *)
Inductive value : Type :=
| VStr (s : str)
| VInt (n : Z)
| VFloat (x : float).

(** A DataFrame: column name to the column's values, top to bottom; the
    columns have one length. *)
Definition frame := Dict.dict (list value).

(** [Series.apply(f)]: [f] on each value in order; the first exception
    ends it. *)
Fixpoint apply {A B} (f : A -> result B) (l : list A) : result (list B) :=
  match l with
  | [] => Ok []
  | a :: rest => b <- f a ;; bs <- apply f rest ;; Ok (b :: bs)
  end.

(** [x != 'Any'] (line 6). *)
Definition not_any (x : value) : bool :=
  match x with
  | VStr s => negb (Str.eqb s (lit "Any"))
  | _ => true
  end.

(** The values of a column a boolean mask keeps. *)
Fixpoint select {A} (mask : list bool) (l : list A) : list A :=
  match mask, l with
  | b :: mask', a :: l' => if b then a :: select mask' l' else select mask' l'
  | _, _ => []
  end.

(** [df[mask]]: the rows the mask keeps, in every column. *)
Definition select_rows (mask : list bool) (df : frame) : frame :=
  map (fun kv => (fst kv, select mask (snd kv))) df.

(** Line 10: ['Intel' if 'Xeon' in x or 'Core' in x else 'AMD'].  [in] on a
    value that is not a string raises [TypeError]. *)
Definition manufacturer_of (x : value) : result value :=
  match x with
  | VStr s =>
      Ok (VStr (if contains (lit "Xeon") s || contains (lit "Core") s
                then lit "Intel" else lit "AMD"))
  | _ => Raise TypeError
  end.

(** Lines 12-36. *)
Definition amd_cpus_threads : Dict.dict Z :=
  [
   (lit "A8-7680", 4%Z);
   (lit "A9-9425 SoC", 2%Z);
   (lit "7552", 96%Z);
   (lit "EPYC 7251", 16%Z);
   (lit "Athlon 3000G", 4%Z);
   (lit "FX-6300", 6%Z);
   (lit "FX-8350", 8%Z);
   (lit "Ryzen 3 2200G", 4%Z);
   (lit "Ryzen 3 3200G", 4%Z);
   (lit "Ryzen 3 3200U", 4%Z);
   (lit "Ryzen 5 1600", 12%Z);
   (lit "Ryzen 5 2600", 12%Z);
   (lit "Ryzen 5 3400G", 8%Z);
   (lit "Ryzen 5 3500U", 8%Z);
   (lit "Ryzen 5 3600", 12%Z);
   (lit "Ryzen 5 3600X", 12%Z);
   (lit "Ryzen 7 2700X", 16%Z);
   (lit "Ryzen 7 3700X", 16%Z);
   (lit "Ryzen 7 3800X", 16%Z);
   (lit "Ryzen 9 3900X", 24%Z);
   (lit "Ryzen 9 3950X", 32%Z);
   (lit "Ryzen Threadripper 2990WX", 64%Z);
   (lit "Ryzen Threadripper 3990X", 128%Z)
  ].

(** Lines 38-94. *)
Definition intel_cpus_threads : Dict.dict Z :=
  [
   (lit "Core 2 Quad Q6600", 4%Z);
   (lit "Core i3-10100", 8%Z);
   (lit "Core i3-10300", 8%Z);
   (lit "Core i3-10320", 8%Z);
   (lit "Core i3-10350K", 8%Z);
   (lit "Core i3-9100", 4%Z);
   (lit "Core i3-9100F", 4%Z);
   (lit "Core i5-10400", 12%Z);
   (lit "Core i5-10400F", 12%Z);
   (lit "Core i5-10500", 12%Z);
   (lit "Core i5-10600", 12%Z);
   (lit "Core i5-10600K", 12%Z);
   (lit "Core i5-3570K", 4%Z);
   (lit "Core i5-4460", 4%Z);
   (lit "Core i5-9400", 6%Z);
   (lit "Core i5-9400F", 6%Z);
   (lit "Core i5-9600KF", 6%Z);
   (lit "Core i7-10700", 16%Z);
   (lit "Core i7-10700K", 16%Z);
   (lit "Core i7-4930K", 12%Z);
   (lit "Core i7-6700K", 8%Z);
   (lit "Core i7-8700K", 12%Z);
   (lit "Core i7-9700F", 8%Z);
   (lit "Core i7-9700K", 8%Z);
   (lit "Core i9-10900K", 20%Z);
   (lit "Core i9-10900KF", 20%Z);
   (lit "Core i9-10900XE", 20%Z);
   (lit "Core i9-10920XE", 24%Z);
   (lit "Core i9-9900K", 16%Z);
   (lit "Xeon E5-2660 v3", 20%Z);
   (lit "Xeon E5-2665", 16%Z);
   (lit "Xeon E5-2670", 16%Z);
   (lit "Xeon E5-2670 v2", 20%Z);
   (lit "Xeon E5-2680 v3", 24%Z);
   (lit "Xeon E5-2683 v4", 32%Z);
   (lit "Xeon E5-2690 v2", 20%Z);
   (lit "Xeon E5-2690 v3", 24%Z);
   (lit "Xeon E5-2695 v4", 36%Z);
   (lit "Xeon E5-2697 v4", 36%Z);
   (lit "Xeon E5-2699 v3", 36%Z);
   (lit "Xeon E5-2699 v4", 44%Z);
   (lit "Xeon E5-4610 v4", 20%Z);
   (lit "Xeon E5-4620", 16%Z);
   (lit "Xeon E5-4650L", 16%Z);
   (lit "Xeon E7-8867 v3", 32%Z);
   (lit "Xeon E7-8880 v4", 44%Z);
   (lit "Xeon Gold 6142", 32%Z);
   (lit "Xeon Gold 6148", 40%Z);
   (lit "Xeon Gold 6248", 40%Z);
   (lit "Xeon Gold 6252", 48%Z);
   (lit "Xeon L5640", 12%Z);
   (lit "Xeon Phi 5110P", 240%Z);
   (lit "Xeon Platinum 9282", 112%Z);
   (lit "Xeon X3430", 4%Z);
   (lit "Xeon X5660", 12%Z)
  ].

(** Line 96: [amd_cpus_threads | intel_cpus_threads]. *)
Definition all_cpus_threads : Dict.dict Z :=
  dict_union amd_cpus_threads intel_cpus_threads.

(** Line 97: [x.replace("AMD","").strip()]. *)
Definition clean (s : str) : str := strip (replace (lit "AMD") [] s).

Definition clean_value (x : value) : result value :=
  match x with
  | VStr s => Ok (VStr (clean s))
  | _ => Raise AttributeError
  end.

(** Line 98: [all_cpus_threads[x]]. *)
Definition threads_of (x : value) : result value :=
  match x with
  | VStr s => n <- Dict.getitem all_cpus_threads s ;; Ok (VInt n)
  | _ => Raise KeyError
  end.

(** Lines 6-101 on the frame [pd.read_csv] returned: the frame handed to
    [to_csv], or the exception the script died of before writing. *)
Definition pre_process (df : frame) : result frame :=
  col <- Dict.getitem df (lit "model") ;;
  let df := select_rows (map not_any col) df in
  col <- Dict.getitem df (lit "model") ;;
  manufacturers <- apply manufacturer_of col ;;
  let df := Dict.set df (lit "manufacturer") manufacturers in
  col <- Dict.getitem df (lit "model") ;;
  models <- apply clean_value col ;;
  let df := Dict.set df (lit "model") models in
  col <- Dict.getitem df (lit "model") ;;
  threads <- apply threads_of col ;;
  Ok (Dict.set df (lit "threads") threads).

End PreProcess.

(* ================================================================== *)
(** ** A reference implementation of the builtins

    [float(s)] and [int(s)] for plain decimal text (white space around it,
    a sign, digits, and for [float] a decimal point), correctly rounded;
    [repr] of a float as the shortest decimal text that reads back as the
    same float.  Text in Python's other notations (exponents, [inf], [nan],
    underscores, digits of other scripts) is refused here.  The general
    theorems do not use it; it serves to run the model on concrete files. *)

Module Reference.

Definition digit (c : char) : option Z :=
  if ((48 <=? c) && (c <=? 57))%N then Some (Z.of_N c - 48)%Z else None.

(** The number a run of digits denotes, continuing from [acc]. *)
Fixpoint digits_value (s : str) (acc : Z) : option Z :=
  match s with
  | [] => Some acc
  | c :: s' =>
      match digit c with
      | Some d => digits_value s' (10 * acc + d)%Z
      | None => None
      end
  end.

(** A leading sign taken off: whether it was "-", and the rest. *)
Definition unsign (s : str) : bool * str :=
  match s with
  | 45%N :: s' => (true, s')
  | 43%N :: s' => (false, s')
  | _ => (false, s)
  end.

Definition int_of_decimal (s : str) : option Z :=
  let (neg, body) := unsign (strip s) in
  match body with
  | [] => None
  | _ :: _ =>
      match digits_value body 0 with
      | Some n => Some (if neg then (- n)%Z else n)
      | None => None
      end
  end.

(** The float nearest to [m / d] (ties to even), with the sign [neg]. *)
Definition ratio (neg : bool) (m d : Z) : float :=
  match m with
  | Z0 => if neg then neg_zero else zero
  | _ =>
      let '(q, e, l) := SFdiv_core_binary prec emax m 0 d 0 in
      SF2Prim (binary_round_aux prec emax neg q e l)
  end.

Definition float_of_decimal (s : str) : option float :=
  let (neg, body) := unsign (strip s) in
  match split 46%N body with
  | [ip] =>
      match ip, digits_value ip 0 with
      | _ :: _, Some m => Some (ratio neg m 1)
      | _, _ => None
      end
  | [ip; fp] =>
      match ip ++ fp, digits_value (ip ++ fp) 0 with
      | _ :: _, Some m => Some (ratio neg m (10 ^ Z.of_nat (List.length fp)))
      | _, _ => None
      end
  | _ => None
  end.

(** [m * 10^s] as a float. *)
Definition scaled (m s : Z) : float :=
  if (0 <=? s)%Z then ratio false (m * 10 ^ s) 1 else ratio false m (10 ^ (- s)).

(** [num / den] rounded to an integer, ties to even. *)
Definition round_half_even (num den : Z) : Z :=
  let q := (num / den)%Z in
  let r := (num mod den)%Z in
  match (2 * r ?= den)%Z with
  | Lt => q
  | Gt => (q + 1)%Z
  | Eq => if Z.even q then q else (q + 1)%Z
  end.

(** [10^k <= num / den]. *)
Definition pow10_le (k num den : Z) : bool :=
  if (0 <=? k)%Z then (10 ^ k * den <=? num)%Z else (den <=? num * 10 ^ (- k))%Z.

(** The [k] with [10^k <= num / den < 10^(k+1)], from an estimate. *)
Fixpoint exponent10 (fuel : nat) (k num den : Z) : Z :=
  match fuel with
  | O => k
  | S fuel' =>
      if negb (pow10_le k num den) then exponent10 fuel' (k - 1) num den
      else if pow10_le (k + 1) num den then exponent10 fuel' (k + 1) num den
      else k
  end.

(** [num / den] to [p] significant digits: the digits as a number, and the
    power of ten of the last one. *)
Definition to_digits (p : Z) (num den : Z) : Z * Z :=
  let k0 := ((Z.log2 num - Z.log2 den) * 1233 / 4096)%Z in
  let k := exponent10 8 k0 num den in
  let s := (k - p + 1)%Z in
  let d := if (0 <=? s)%Z then round_half_even num (den * 10 ^ s)
           else round_half_even (num * 10 ^ (- s)) den in
  if (d =? 10 ^ p)%Z then (10 ^ (p - 1), s + 1)%Z else (d, s).

(** The fewest digits that read back as [x] (17 always do). *)
Fixpoint shortest (fuel : nat) (p : Z) (x : float) (num den : Z) : Z * Z :=
  let '(d, s) := to_digits p num den in
  match fuel with
  | O => (d, s)
  | S fuel' =>
      if PrimFloat.eqb (scaled d s) x then (d, s)
      else shortest fuel' (p + 1) x num den
  end.

Definition decimal (n : Z) : str := str_of_int n.

Definition zeros (n : Z) : str := repeat 48%N (Z.to_nat n).

(** The text of the positive number [d * 10^s], as [repr] lays it out:
    exponent notation when the decimal point would stand more than 16 places
    after, or 4 or more before, the first digit. *)
Definition layout (d s : Z) : str :=
  let ds := decimal d in
  let n := Z.of_nat (List.length ds) in
  let decpt := (n + s)%Z in
  if ((decpt <=? -4) || (16 <? decpt))%Z then
    let e := (decpt - 1)%Z in
    let mant := match ds with
                | [c] => [c]
                | c :: rest => c :: 46%N :: rest
                | [] => []
                end in
    let ea := decimal (Z.abs e) in
    mant ++ lit "e" ++ (if (e <? 0)%Z then lit "-" else lit "+") ++
    (if (Z.abs e <? 10)%Z then 48%N :: ea else ea)
  else if (decpt <=? 0)%Z then lit "0." ++ zeros (- decpt) ++ ds
  else if (n <=? decpt)%Z then ds ++ zeros (decpt - n) ++ lit ".0"
  else firstn (Z.to_nat decpt) ds ++ lit "." ++ skipn (Z.to_nat decpt) ds.

Definition repr (x : float) : str :=
  match Prim2SF x with
  | S754_nan => lit "nan"
  | S754_infinity s => if s then lit "-inf" else lit "inf"
  | S754_zero s => if s then lit "-0.0" else lit "0.0"
  | S754_finite sg m e =>
      let num := if (0 <=? e)%Z then (Zpos m * 2 ^ e)%Z else Zpos m in
      let den := if (0 <=? e)%Z then 1%Z else (2 ^ (- e))%Z in
      let '(d, s) := shortest 16 1 (SF2Prim (S754_finite false m e)) num den in
      (if sg then lit "-" else []) ++ layout d s
  end.

#[global] Instance builtins : Builtins := {
  float_of_str := float_of_decimal;
  int_of_str := int_of_decimal;
  str_of_float := repr
}.

End Reference.

(* ================================================================== *)
(** ** Notions the properties are stated with *)

(** The mapping a parser builds when it runs alone, from the empty one. *)
Definition contribution (s : stmt) : Dict.dict processor :=
  processors (snd (s {| processors := []; console := [] |})).

(** The five fields of a record that reach the output file. *)
Definition written_fields (p : processor)
  : str * float * Z * number * str :=
  (model p, tdp p, n_cores p, tdp_per_core p, source p).

(** The five sources in the order the script reads them (lines 252-256). *)
Definition sources `{Builtins} (fs : files) : list stmt :=
  [read_and_process_amd fs amd_path;
   read_and_process_ampere_altra fs ampere_altra_path;
   read_and_process_ampere_one fs ampere_one_path;
   read_and_process_intel fs intel_path;
   read_and_process_green_algorithms fs green_algorithms_path].

(** The records the sources build, read off the files alone, without the
    mapping.  A DictReader parser builds one record per row whose
    construction succeeds, in row order; a row passed over or refused with
    [ValueError] builds none, and any other exception ends the file. *)
Fixpoint built_rows (build : row -> result (option processor))
    (rows : list row) : list processor :=
  match rows with
  | [] => []
  | r :: rest =>
      match build r with
      | Ok (Some p) => p :: built_rows build rest
      | Ok None => built_rows build rest
      | Raise ValueError => built_rows build rest
      | Raise _ => []
      end
  end.

(** A file that cannot be opened, or fails the header check, builds
    nothing. *)
Definition file_records (headers : list str)
    (build : row -> result (option processor)) (fs : files) (path : str)
  : list processor :=
  match open fs path with
  | Ok rows =>
      match check_headers headers (fieldnames rows) with
      | Ok _ => built_rows build (dict_rows rows)
      | Raise _ => []
      end
  | Raise _ => []
  end.

(** The records of the processors of one Intel table, in the order of its
    names, with the value the variable [tdp] is left with (or the
    exception that ended the table). *)
Fixpoint items_records `{Builtins} (items : list (str * details))
    (tdp_var : option tdp_value)
  : list processor * result (option tdp_value) :=
  match items with
  | [] => ([], Ok tdp_var)
  | (processor_name, d) :: rest =>
      match intel_processor processor_name d tdp_var with
      | Ok (tdp_var', o) =>
          let (ps, r) := items_records rest tdp_var' in
          (match o with Some p => p :: ps | None => ps end, r)
      | Raise e => ([], Raise e)
      end
  end.

(** The records of the family files of the Intel directory, in the order
    in which the directory lists them. *)
Fixpoint files_records `{Builtins} (fs : files) (root_dir : str)
    (names : list str) (tdp_var : option tdp_value) : list processor :=
  match names with
  | [] => []
  | file :: rest =>
      match (rows <- open fs (path_join root_dir file) ;; intel_table rows)
      with
      | Ok data =>
          let (ps, r) := items_records data tdp_var in
          match r with
          | Ok tdp_var' => ps ++ files_records fs root_dir rest tdp_var'
          | Raise _ => ps
          end
      | Raise _ => []
      end
  end.

Definition amd_records `{Builtins} (fs : files) : list processor :=
  file_records amd_headers amd_processor fs amd_path.

Definition ampere_altra_records `{Builtins} (fs : files) : list processor :=
  file_records ampere_altra_headers ampere_altra_processor fs
    ampere_altra_path.

Definition ampere_one_records `{Builtins} (fs : files) : list processor :=
  file_records ampere_one_headers ampere_one_processor fs ampere_one_path.

Definition intel_records `{Builtins} (fs : files) : list processor :=
  match listdir fs intel_path with
  | Ok names => files_records fs intel_path names None
  | Raise _ => []
  end.

Definition green_algorithms_records `{Builtins} (fs : files)
  : list processor :=
  file_records green_algorithms_headers green_algorithms_processor fs
    green_algorithms_path.

(** A record as an entry of the mapping: under its model name. *)
Definition keyed (p : processor) : str * processor := (model p, p).

(** The four parsers that check headers, with their header sets. *)
Definition header_checking `{Builtins}
  : list (list str * (files -> str -> stmt)) :=
  [(amd_headers, read_and_process_amd);
   (ampere_altra_headers, read_and_process_ampere_altra);
   (ampere_one_headers, read_and_process_ampere_one);
   (green_algorithms_headers, read_and_process_green_algorithms)].

(** The model names the normalizer looks up: those of the rows that are
    not the placeholder "Any", cleaned. *)
Definition cleaned_names (col : list str) : list str :=
  map PreProcess.clean
    (filter (fun s => negb (Str.eqb s (lit "Any"))) col).

(** The cleaned model names in the words of the specification: over the
    rows other than the placeholder "Any", the model name with "AMD"
    removed and the white space around it stripped. *)
Definition names_without_amd (col : list str) : list str :=
  map (fun s => strip (replace (lit "AMD") [] s))
    (filter (fun s => negb (Str.eqb s (lit "Any"))) col).

(** The manufacturer the normalizer infers from a model name (line 10). *)
Definition inferred_manufacturer (s : str) : str :=
  if contains (lit "Xeon") s || contains (lit "Core") s
  then lit "Intel" else lit "AMD".

(** The record a row yields, and the message it costs. *)
Definition stored_for (build : row -> result (option processor)) (r : row)
  : list (str * processor) :=
  match build r with
  | Ok (Some p) => [(model p, p)]
  | _ => []
  end.

Definition printed_for (build : row -> result (option processor)) (r : row)
  : list message :=
  match build r with
  | Raise _ => [RowError r]
  | _ => []
  end.

(** The thread counts of a list of names, when every one is in the table. *)
Fixpoint thread_counts (names : list str) : option (list Z) :=
  match names with
  | [] => Some []
  | n :: rest =>
      match Dict.get PreProcess.all_cpus_threads n, thread_counts rest with
      | Some t, Some ts => Some (t :: ts)
      | _, _ => None
      end
  end.

(** A record construction: a parser together with the row (for Intel: the
    processor name, its attributes and the current value of the variable
    [tdp]) it builds a record from. *)
Inductive construction : Type :=
| ByAmd (r : row)
| ByAmpereAltra (r : row)
| ByAmpereOne (r : row)
| ByIntel (processor_name : str) (d : details) (tdp_var : option tdp_value)
| ByGreenAlgorithms (r : row).

(** The record a construction builds ([None]: the row is passed over), or
    the exception it raises. *)
Definition construct `{Builtins} (c : construction)
  : result (option processor) :=
  match c with
  | ByAmd r => amd_processor r
  | ByAmpereAltra r => ampere_altra_processor r
  | ByAmpereOne r => ampere_one_processor r
  | ByIntel name d v =>
      match intel_processor name d v with
      | Ok (_, p) => Ok p
      | Raise e => Raise e
      end
  | ByGreenAlgorithms r => green_algorithms_processor r
  end.

(** [q] is [x / n] when [n > 0] (the IEEE quotient of [x] by the float of
    [n]) and the int 0 when [n] is 0. *)
Definition is_per_unit (x : float) (n : Z) (q : number) : Prop :=
  ((n > 0)%Z -> exists y, float_of_int n = Ok y /\ q = Float (x / y)%float) /\
  (n = 0%Z -> q = Int 0).

(** One line of the output for a record: the five written fields as they
    are, with commas between them. *)
Definition record_line `{Builtins} (p : processor) : str :=
  join comma
    [model p; str_of_float (tdp p); str_of_int (n_cores p);
     str_of_number (tdp_per_core p); source p].

(** The two lines the output starts with. *)
Definition preamble : list str :=
  [lit "index,in Watt,,,"; lit "model,TDP,n_cores,TDP_per_core,source"].

(** The state [st'] holds what [st] held and more: the keys of [st], in
    their order, then new ones; the messages of [st], then new ones. *)
Definition grows (st st' : state) : Prop :=
  (exists new, Dict.keys (processors st')
               = Dict.keys (processors st) ++ new) /\
  (exists msgs, console st' = console st ++ msgs).

(** A string with no white space at either end. *)
Definition clean_head (s : str) : Prop :=
  match s with
  | c :: _ => isspace c = false
  | [] => True
  end.

Definition trimmed (s : str) : Prop := clean_head s /\ clean_head (rev s).

(** The cell of an Intel family file under attribute [key] in the column of
    processor number [i]: among the rows labelled [key] that reach that
    column, the last one decides. *)
Fixpoint attribute (body : csv_rows) (key : str) (i : nat) : option str :=
  match body with
  | [] => None
  | line :: rest =>
      match attribute rest key i with
      | Some v => Some v
      | None =>
          match line with
          | k :: values => if Str.eqb k key then nth_error values i else None
          | [] => None
          end
      end
  end.

(** An attribute row the Intel parser keeps that has more cells than there
    are processor names. *)
Definition overlong (names : list str) (line : list str) : bool :=
  match line with
  | key :: values =>
      in_list key intel_keys && (List.length names <? List.length values)%nat
  | [] => false
  end.

(** [data[name][key] = value] as a function, for a [name] that [data]
    has; and [data[name][key]] read back. *)
Definition put (data : processor_data) (name key value : str)
  : processor_data :=
  match Dict.get data name with
  | Some d => Dict.set data name (Dict.set d key value)
  | None => data
  end.

Definition at2 (data : processor_data) (name key : str) : option str :=
  match Dict.get data name with
  | Some d => Dict.get d key
  | None => None
  end.

(** What the loops of [intel_table] compute where nothing raises. *)
Fixpoint fill_put (names : list str) (key : str) (i : nat)
    (values : list str) (data : processor_data) : processor_data :=
  match values with
  | [] => data
  | value :: rest =>
      match nth_error names i with
      | Some name => fill_put names key (S i) rest (put data name key value)
      | None => data
      end
  end.

Definition rows_put (names : list str) (body : csv_rows)
    (data : processor_data) : processor_data :=
  fold_left
    (fun data line =>
       match line with
       | key :: values =>
           if in_list key intel_keys then fill_put names key 0 values data
           else data
       | [] => data
       end)
    body data.

Definition names_put (names : list str) (data : processor_data)
  : processor_data :=
  fold_left (fun data name => put data name (lit "Processor Name") name)
    names data.

(** The first line [df.to_csv(path, index=False)] writes: the names of the
    columns, in the frame's order. *)
Definition to_csv_header (df : PreProcess.frame) : list str := Dict.keys df.

(** The columns of the Green-Algorithms data set the merger asks for. *)
Definition data_set_columns : list str :=
  [lit "model"; lit "TDP"; lit "n_cores"; lit "TDP_per_core"; lit "source"].

(** The record constructions of the four DictReader parsers, with the
    columns each requires. *)
Definition builders `{Builtins}
  : list (list str * (row -> result (option processor))) :=
  [(amd_headers, amd_processor);
   (ampere_altra_headers, ampere_altra_processor);
   (ampere_one_headers, ampere_one_processor);
   (green_algorithms_headers, green_algorithms_processor)].

(** No string occurs twice in the list. *)
Fixpoint distinct (l : list str) : bool :=
  match l with
  | [] => true
  | x :: rest => negb (in_list x rest) && distinct rest
  end.

(* ================================================================== *)
(** ** Sample inputs *)

Module Sample.

(** Files given by listing them. *)
Definition files_of (csvs : Dict.dict csv_rows) (dirs : Dict.dict (list str))
  : files :=
  {| csv_at := Dict.get csvs; dir_at := Dict.get dirs |}.

Definition amd_csv : csv_rows :=
  [ amd_headers;
    [lit "AMD Ryzen 5 3600"; lit "65W"; lit "6"; lit "12"];
    [lit "AMD Ryzen 7 7840U"; lit "15-30W"; lit "8"; lit "16"];
    [lit "AMD Ryzen" ++ trademark ++ lit " 9 7950X"; lit "170W"; lit "16";
     lit "32"];
    [lit "AMD Ryzen 9 7900"; lit ""; lit "12"; lit "24"] ].

Definition ampere_altra_csv : csv_rows :=
  [ ampere_altra_headers;
    [lit "Q80-30"; lit "80"; lit "210"] ].

Definition ampere_one_csv : csv_rows :=
  [ ampere_one_headers;
    [lit "AmpereOne" ++ registered ++ lit " A192-32X"; lit "192"; lit "350W"] ].

Definition core_i7 : str :=
  lit "Intel" ++ registered ++ lit " Core" ++ trademark ++
  lit " i7-9700K Processor".

(** An Intel family file: two rows of preamble, the row of names, then one
    row per attribute. *)
Definition intel_csv : csv_rows :=
  [ [lit "Intel Product Comparison"];
    [];
    [lit ""; core_i7];
    [lit "Product Collection"; lit "9th Generation Intel Core i7 Processors"];
    [lit "Total Cores"; lit "8"];
    [lit "Total Threads"; lit "16"];
    [lit "TDP"; lit "95W"] ].

(** The normalized Green-Algorithms file; its one row has the model name
    the first AMD row normalizes to. *)
Definition green_algorithms_csv : csv_rows :=
  [ green_algorithms_headers;
    [lit "Ryzen 5 3600"; lit "65"; lit "6"; lit "10.8";
     lit "http://calculator.green-algorithms.org"; lit "AMD"; lit "12"] ].

Definition all_csvs : Dict.dict csv_rows :=
  [ (amd_path, amd_csv);
    (ampere_altra_path, ampere_altra_csv);
    (ampere_one_path, ampere_one_csv);
    (path_join intel_path (lit "core.csv"), intel_csv);
    (green_algorithms_path, green_algorithms_csv) ].

(** Every source present and well formed. *)
Definition complete : files :=
  files_of all_csvs [(intel_path, [lit "core.csv"])].

(** The AMD file without its "# of Threads" column; every other source
    as in [complete]. *)
Definition amd_without_threads : files :=
  files_of
    (Dict.set all_csvs amd_path
       [ [lit "Name"; lit "Default TDP"; lit "# of CPU Cores"];
         [lit "AMD Ryzen 5 3600"; lit "65W"; lit "6"] ])
    [(intel_path, [lit "core.csv"])].

(** The Ampere Altra file with a hyphenated range as usage power. *)
Definition altra_range_row : list str :=
  [lit "Q80-30"; lit "80"; lit "100-200"].

Definition altra_with_range : files :=
  files_of
    (Dict.set all_csvs ampere_altra_path
       [ampere_altra_headers; altra_range_row])
    [(intel_path, [lit "core.csv"])].

(** A frame as [pd.read_csv] yields it for the Green-Algorithms data set:
    the placeholder row "Any" and two processors the tables know. *)
Definition frame_ok : PreProcess.frame :=
  [ (lit "model",
     [PreProcess.VStr (lit "Any"); PreProcess.VStr (lit "AMD Ryzen 5 3600");
      PreProcess.VStr (lit "Xeon E5-2670")]);
    (lit "TDP",
     [PreProcess.VFloat 12; PreProcess.VFloat 65; PreProcess.VFloat 115]);
    (lit "n_cores",
     [PreProcess.VInt 1; PreProcess.VInt 6; PreProcess.VInt 8]) ].

(** The same with a processor no table knows. *)
Definition frame_unknown : PreProcess.frame :=
  [ (lit "model",
     [PreProcess.VStr (lit "Any"); PreProcess.VStr (lit "AMD Ryzen 5 5600X");
      PreProcess.VStr (lit "Xeon E5-2670")]);
    (lit "TDP",
     [PreProcess.VFloat 12; PreProcess.VFloat 65; PreProcess.VFloat 115]);
    (lit "n_cores",
     [PreProcess.VInt 1; PreProcess.VInt 6; PreProcess.VInt 8]) ].

(** The Intel family file with a TDP that is not a number; every other
    source as in [complete]. *)
Definition intel_bad_tdp : files :=
  files_of
    (Dict.set all_csvs (path_join intel_path (lit "core.csv"))
       [ [lit "Intel Product Comparison"];
         [];
         [lit ""; core_i7];
         [lit "Total Cores"; lit "8"];
         [lit "Total Threads"; lit "16"];
         [lit "TDP"; lit "n/a"] ])
    [(intel_path, [lit "core.csv"])].

(** The AMD file with the same text as TDP of its second row; every other
    source as in [complete]. *)
Definition amd_bad_tdp : files :=
  files_of
    (Dict.set all_csvs amd_path
       [ amd_headers;
         [lit "AMD Ryzen 5 3600"; lit "65W"; lit "6"; lit "12"];
         [lit "AMD Ryzen 7 7840U"; lit "n/a"; lit "8"; lit "16"];
         [lit "AMD Ryzen 9 7950X"; lit "170W"; lit "16"; lit "32"] ])
    [(intel_path, [lit "core.csv"])].

(** Every file of [complete], but no directory "Intel". *)
Definition without_intel : files := files_of all_csvs [].

(** No AMD file; every other source as in [complete]. *)
Definition without_amd : files :=
  files_of (tl all_csvs) [(intel_path, [lit "core.csv"])].

(** A frame with the five columns of the data set. *)
Definition frame_full : PreProcess.frame :=
  [ (lit "model",
     [PreProcess.VStr (lit "Any"); PreProcess.VStr (lit "AMD Ryzen 5 3600")]);
    (lit "TDP", [PreProcess.VFloat 12; PreProcess.VFloat 65]);
    (lit "n_cores", [PreProcess.VInt 1; PreProcess.VInt 6]);
    (lit "TDP_per_core", [PreProcess.VFloat 12; PreProcess.VFloat (65 / 6)]);
    (lit "source", [PreProcess.VStr []; PreProcess.VStr (lit "amd.com")]) ].

(** An AMD line, and the same cells in a file with another column and
    another column order. *)
Definition ryzen_line : list str :=
  [lit "AMD Ryzen 5 3600"; lit "65W"; lit "6"; lit "12"].

Definition wide_names : list str :=
  [lit "# of Threads"; lit "Launch Date"; lit "Name"; lit "# of CPU Cores";
   lit "Default TDP"].

Definition wide_line : list str :=
  [lit "12"; lit "2019"; lit "AMD Ryzen 5 3600"; lit "6"; lit "65W"].

(** Attributes of an Intel processor without a TDP row. *)
Definition no_tdp : details :=
  [(lit "Total Cores", lit "4"); (lit "Total Threads", lit "8")].

(** The AMD file holding nothing at all, and the Green-Algorithms file
    holding nothing at all; every other source as in [complete]. *)
Definition amd_empty : files :=
  files_of (Dict.set all_csvs amd_path [])
    [(intel_path, [lit "core.csv"])].

Definition green_algorithms_empty : files :=
  files_of (Dict.set all_csvs green_algorithms_path [])
    [(intel_path, [lit "core.csv"])].

(** The AMD file with a line cut short after an empty "Default TDP";
    every other source as in [complete]. *)
Definition short_row : list str := [lit "AMD Ryzen 9 7900"; lit ""].

Definition amd_short_row : files :=
  files_of
    (Dict.set all_csvs amd_path
       [ amd_headers;
         short_row;
         [lit "AMD Ryzen 5 3600"; lit "65W"; lit "6"; lit "12"] ])
    [(intel_path, [lit "core.csv"])].

(** A data set with an empty model cell (pandas reads it as the float
    NaN); the names of the other rows are in the tables. *)
Definition frame_missing_model : PreProcess.frame :=
  [ (lit "model",
     [PreProcess.VStr (lit "Any"); PreProcess.VStr (lit "AMD Ryzen 5 3600");
      PreProcess.VFloat PrimFloat.nan]);
    (lit "TDP",
     [PreProcess.VFloat 12; PreProcess.VFloat 65; PreProcess.VFloat 115]);
    (lit "n_cores",
     [PreProcess.VInt 1; PreProcess.VInt 6; PreProcess.VInt 8]) ].

(** The table of an Intel family file whose one processor has a TDP that
    is not a number. *)
Definition bad_tdp_table : list (str * details) :=
  [(core_i7,
    [(lit "Total Cores", lit "8"); (lit "Total Threads", lit "16");
     (lit "TDP", lit "n/a"); (lit "Processor Name", core_i7)])].

(** Only the AMD file present. *)
Definition amd_only : files :=
  files_of [(amd_path, amd_csv)] [(intel_path, [])].

End Sample.

(* ================================================================== *)
(** * Properties *)

(** ** Strings *)

Lemma str_eqb_eq a b : Str.eqb a b = true <-> a = b.
Proof.
  unfold Str.eqb. destruct (list_eq_dec N.eq_dec a b); split; congruence.
Qed.

Lemma str_eqb_refl a : Str.eqb a a = true.
Proof. now apply str_eqb_eq. Qed.

Lemma str_eqb_neq a b : Str.eqb a b = false <-> a <> b.
Proof.
  unfold Str.eqb. destruct (list_eq_dec N.eq_dec a b); split; congruence.
Qed.

(** Removing a one-character pattern is filtering that character out. *)
Lemma replace_char_filter c s :
  replace [c] [] s = filter (fun x => negb (char_eqb c x)) s.
Proof.
  unfold replace. induction s as [|x s IH]; simpl; [reflexivity|].
  rewrite andb_true_r. destruct (char_eqb c x); simpl; now rewrite IH.
Qed.

Lemma contains_char_In c s : contains [c] s = true -> In c s.
Proof.
  induction s as [|x s IH]; simpl; [discriminate|].
  rewrite andb_true_r. unfold char_eqb.
  destruct (N.eqb_spec c x); simpl; auto.
Qed.

Lemma In_contains_char c s : In c s -> contains [c] s = true.
Proof.
  induction s as [|x s IH]; simpl; [tauto|].
  rewrite andb_true_r. unfold char_eqb. intros [->|Hin].
  - now rewrite N.eqb_refl.
  - rewrite (IH Hin). apply orb_true_r.
Qed.

Lemma In_lstrip c s : In c (lstrip s) -> In c s.
Proof.
  induction s as [|x s IH]; simpl; [tauto|].
  destruct (isspace x); simpl; auto.
Qed.

Lemma In_strip c s : In c (strip s) -> In c s.
Proof.
  unfold strip, rstrip. intros Hin.
  apply In_lstrip. apply in_rev. apply In_lstrip. now apply in_rev in Hin.
Qed.

(** A character removed by [replace] is absent from the stripped result. *)
Lemma removed_char_absent c s :
  contains [c] (strip (replace [c] [] s)) = false.
Proof.
  destruct (contains [c] (strip (replace [c] [] s))) eqn:E; [|reflexivity].
  apply contains_char_In, In_strip in E.
  rewrite replace_char_filter in E. apply filter_In in E.
  destruct E as [_ E]. unfold char_eqb in E. now rewrite N.eqb_refl in E.
Qed.

(** ** Dictionaries *)

Section DictFacts.
Variable V : Type.
Implicit Types (d e : Dict.dict V) (k : str) (v : V).

Lemma get_set_same d k v : Dict.get (Dict.set d k v) k = Some v.
Proof.
  induction d as [|[k0 v0] d IH]; simpl.
  - now rewrite str_eqb_refl.
  - destruct (Str.eqb k0 k) eqn:E; simpl; rewrite E; auto.
Qed.

Lemma get_set_other d k k' v :
  k <> k' -> Dict.get (Dict.set d k v) k' = Dict.get d k'.
Proof.
  intros Hne. induction d as [|[k0 v0] d IH]; simpl.
  - apply str_eqb_neq in Hne. now rewrite Hne.
  - destruct (Str.eqb k0 k) eqn:E; simpl.
    + apply str_eqb_eq in E. subst k0.
      apply str_eqb_neq in Hne. now rewrite Hne.
    + destruct (Str.eqb k0 k'); auto.
Qed.

Lemma keys_set_In d k v k' :
  In k' (Dict.keys (Dict.set d k v)) <-> k' = k \/ In k' (Dict.keys d).
Proof.
  induction d as [|[k0 v0] d IH]; simpl.
  - intuition.
  - destruct (Str.eqb k0 k) eqn:E; simpl.
    + apply str_eqb_eq in E. subst k0. intuition.
    + rewrite IH. intuition.
Qed.

Lemma keys_set_NoDup d k v :
  NoDup (Dict.keys d) -> NoDup (Dict.keys (Dict.set d k v)).
Proof.
  induction d as [|[k0 v0] d IH]; simpl; intros Hnd.
  - constructor; [simpl; tauto|constructor].
  - inversion Hnd as [|? ? Hnotin Hnd']; subst.
    destruct (Str.eqb k0 k) eqn:E; simpl.
    + now constructor.
    + constructor; [|now apply IH].
      rewrite keys_set_In. intros [->|Hin]; [|tauto].
      now rewrite str_eqb_refl in E.
Qed.

Lemma keys_update_NoDup e d :
  NoDup (Dict.keys d) -> NoDup (Dict.keys (Dict.update d e)).
Proof.
  revert d. induction e as [|[k v] e IH]; simpl; intros d Hnd; auto.
  apply IH. now apply keys_set_NoDup.
Qed.

Lemma get_None_keys d k : Dict.get d k = None <-> ~ In k (Dict.keys d).
Proof.
  induction d as [|[k0 v0] d IH]; simpl; [tauto|].
  destruct (Str.eqb k0 k) eqn:E.
  - apply str_eqb_eq in E. subst. split; [discriminate|tauto].
  - apply str_eqb_neq in E. rewrite IH. tauto.
Qed.

(** After a run of assignments a key holds the last value assigned to
    it, or what it held before. *)
Lemma get_update e d k :
  Dict.get (Dict.update d e) k =
  match Dict.last_write e k with
  | Some v => Some v
  | None => Dict.get d k
  end.
Proof.
  revert d. induction e as [|[k0 v0] e IH]; simpl; intros d; auto.
  rewrite IH. destruct (Dict.last_write e k); auto.
  destruct (Str.eqb k0 k) eqn:E.
  - apply str_eqb_eq in E. subst. apply get_set_same.
  - apply str_eqb_neq in E. now apply get_set_other.
Qed.

Lemma last_write_app e1 e2 k :
  Dict.last_write (e1 ++ e2) k =
  match Dict.last_write e2 k with
  | Some v => Some v
  | None => Dict.last_write e1 k
  end.
Proof.
  induction e1 as [|[k0 v0] e1 IH]; simpl.
  - now destruct (Dict.last_write e2 k).
  - rewrite IH. now destruct (Dict.last_write e2 k).
Qed.

(** In a dictionary (no repeated key) the last write is the entry. *)
Lemma last_write_get d k :
  NoDup (Dict.keys d) -> Dict.last_write d k = Dict.get d k.
Proof.
  induction d as [|[k0 v0] d IH]; simpl; intros Hnd; auto.
  inversion Hnd as [|? ? Hnotin Hnd']; subst.
  rewrite (IH Hnd'). destruct (Str.eqb k0 k) eqn:E.
  - apply str_eqb_eq in E. subst.
    apply get_None_keys in Hnotin. now rewrite Hnotin.
  - now destruct (Dict.get d k).
Qed.

Lemma update_app d e1 e2 :
  Dict.update d (e1 ++ e2) = Dict.update (Dict.update d e1) e2.
Proof. unfold Dict.update. apply fold_left_app. Qed.

Lemma set_set_same d k v v' :
  Dict.set (Dict.set d k v) k v' = Dict.set d k v'.
Proof.
  induction d as [|[k0 v0] d IH]; simpl.
  - now rewrite str_eqb_refl.
  - destruct (Str.eqb k0 k) eqn:E; simpl; rewrite E; congruence.
Qed.

(** Assignments to different keys commute when the later key is already
    present (its place is then fixed). *)
Lemma set_set_swap d k k1 v v1 :
  k <> k1 -> In k (Dict.keys d) ->
  Dict.set (Dict.set d k1 v1) k v = Dict.set (Dict.set d k v) k1 v1.
Proof.
  intros Hne. induction d as [|[k0 v0] d IH]; simpl; [tauto|].
  intros Hin.
  destruct (Str.eqb k0 k1) eqn:E1, (Str.eqb k0 k) eqn:E; simpl;
    rewrite ?E1, ?E; auto.
  - apply str_eqb_eq in E1, E. congruence.
  - f_equal. apply IH. destruct Hin as [->|]; auto.
    now rewrite str_eqb_refl in E.
Qed.

Lemma set_update_present e d k v :
  ~ In k (Dict.keys e) -> In k (Dict.keys d) ->
  Dict.set (Dict.update d e) k v = Dict.update (Dict.set d k v) e.
Proof.
  revert d. induction e as [|[k1 v1] e IH]; simpl; intros d Hnot Hin; auto.
  rewrite IH; [|tauto|apply keys_set_In; tauto].
  f_equal. apply set_set_swap; auto.
Qed.

Lemma update_set e d k v :
  NoDup (Dict.keys e) ->
  Dict.update d (Dict.set e k v) = Dict.set (Dict.update d e) k v.
Proof.
  revert d. induction e as [|[k0 v0] e IH]; simpl; intros d Hnd; auto.
  inversion Hnd as [|? ? Hnotin Hnd']; subst.
  destruct (Str.eqb k0 k) eqn:E; simpl.
  - apply str_eqb_eq in E. subst k0.
    rewrite set_update_present; auto.
    + now rewrite set_set_same.
    + apply keys_set_In. tauto.
  - now apply IH.
Qed.

(** Assigning a dictionary that was itself built by assignments is making
    all the assignments in order. *)
Lemma update_update ws e d :
  NoDup (Dict.keys e) ->
  Dict.update d (Dict.update e ws) = Dict.update (Dict.update d e) ws.
Proof.
  revert e. induction ws as [|[k v] ws IH]; simpl; intros e Hnd; auto.
  rewrite IH by now apply keys_set_NoDup.
  now rewrite update_set.
Qed.
End DictFacts.

(** ** The shared mapping under the parsers

    Two runs of one piece of code from different mappings are compared: the
    run from [st] holds, at every moment, the run from [st0] assigned into
    a fixed mapping [D].  So what a parser does to the shared mapping is to
    assign, whole record by whole record, what it yields on its own. *)

Definition sim (D : Dict.dict processor) (st st0 : state) : Prop :=
  NoDup (Dict.keys (processors st0)) /\
  processors st = Dict.update D (processors st0).

(** A computation over the state whose outcome does not depend on what the
    mapping holds, and whose effect on it is by assignments only. *)
Definition respects {A} (s : state -> result A * state) : Prop :=
  forall D st st0, sim D st st0 ->
    fst (s st) = fst (s st0) /\ sim D (snd (s st)) (snd (s st0)).

Lemma sim_store D p st st0 : sim D st st0 -> sim D (store p st) (store p st0).
Proof.
  intros [Hnd Heq]. split; simpl.
  - now apply keys_set_NoDup.
  - rewrite Heq. symmetry. now apply update_set.
Qed.

Lemma sim_print D m st st0 : sim D st st0 -> sim D (print m st) (print m st0).
Proof. intros [Hnd Heq]. split; simpl; auto. Qed.

Lemma sim_initial st : sim (processors st) st initial.
Proof. split; simpl; [constructor|reflexivity]. Qed.

Lemma respects_for_rows build rows : respects (for_rows build rows).
Proof.
  induction rows as [|r rows IH]; intros D st st0 Hsim; simpl.
  - auto.
  - destruct (build r) as [[p|]|e].
    + apply IH. now apply sim_store.
    + now apply IH.
    + destruct e; simpl; try (now apply IH, sim_print); auto.
Qed.

Lemma respects_file_handlers path e : respects (file_handlers path e).
Proof.
  intros D st st0 Hsim. destruct e; simpl; auto using sim_print.
Qed.

Lemma respects_read_and_process headers build fs path :
  respects (read_and_process headers build fs path).
Proof.
  intros D st st0 Hsim. unfold read_and_process.
  destruct (open fs path) as [rows|e]; [|now apply respects_file_handlers].
  destruct (check_headers headers (fieldnames rows)) as [u|e];
    [|now apply respects_file_handlers].
  destruct (respects_for_rows build (dict_rows rows) Hsim) as [Hfst Hsnd].
  destruct (for_rows build (dict_rows rows) st) as [r st'].
  destruct (for_rows build (dict_rows rows) st0) as [r0 st0'].
  simpl in *. subst r0. destruct r as [u'|e]; simpl; auto.
  now apply respects_file_handlers.
Qed.

Section RespectsIntel.
Context `{Builtins}.

Lemma respects_intel_items items tdp_var :
  respects (intel_items items tdp_var).
Proof.
  revert tdp_var.
  induction items as [|[name d] items IH]; intros tdp_var D st st0 Hsim; simpl.
  - auto.
  - destruct (intel_processor name d tdp_var) as [[v [p|]]|e]; simpl; auto.
    + apply IH. now apply sim_store.
    + now apply IH.
Qed.

Lemma respects_intel_files fs root names tdp_var :
  respects (intel_files fs root names tdp_var).
Proof.
  revert tdp_var.
  induction names as [|file names IH]; intros tdp_var D st st0 Hsim; simpl.
  - auto.
  - destruct (rows <- open fs (path_join root file);; intel_table rows)
      as [data|e]; simpl; auto.
    destruct (respects_intel_items data tdp_var Hsim) as [Hfst Hsnd].
    destruct (intel_items data tdp_var st) as [r st'].
    destruct (intel_items data tdp_var st0) as [r0 st0'].
    simpl in *. subst r0. destruct r as [v|e]; simpl; auto.
    now apply IH.
Qed.

Lemma respects_read_and_process_intel fs root :
  respects (read_and_process_intel fs root).
Proof.
  intros D st st0 Hsim. unfold read_and_process_intel.
  destruct (listdir fs root) as [names|e]; simpl; auto.
  now apply respects_intel_files.
Qed.

End RespectsIntel.

Lemma respects_seq (s1 s2 : stmt) :
  respects s1 -> respects s2 -> respects (seq s1 s2).
Proof.
  intros H1 H2 D st st0 Hsim. unfold seq.
  destruct (H1 D st st0 Hsim) as [Hfst Hsnd].
  destruct (s1 st) as [r st'], (s1 st0) as [r0 st0'].
  simpl in *. subst r0. destruct r as [u|e]; simpl; auto.
Qed.

(** What [respects] gives for a run from any state. *)
Lemma respects_contribution (s : stmt) st :
  respects s ->
  fst (s st) = fst (s initial) /\
  processors (snd (s st)) = Dict.update (processors st) (contribution s) /\
  NoDup (Dict.keys (contribution s)).
Proof.
  intros Hs. destruct (Hs _ st initial (sim_initial st)) as [Hfst [Hnd Heq]].
  auto.
Qed.

(** ** C1: one shared mapping, last writer wins *)

Section LastWriter.
Context `{Builtins}.

Lemma sources_respect fs : Forall respects (sources fs).
Proof.
  unfold sources.
  repeat (apply Forall_cons;
          [ first [ apply respects_read_and_process_intel
                  | exact (respects_read_and_process _ _ _ _) ] | ]).
  apply Forall_nil.
Qed.

Lemma last_write_concat_None (ds : list (Dict.dict processor)) k :
  Forall (fun d => NoDup (Dict.keys d)) ds ->
  (forall d, In d ds -> Dict.get d k = None) ->
  Dict.last_write (List.concat ds) k = None.
Proof.
  induction 1 as [|d ds Hd Hds IH]; simpl; intros Hnone; auto.
  rewrite last_write_app, IH by auto.
  rewrite last_write_get by assumption. auto.
Qed.

(** The run of the five parsers, when it ends normally, leaves the mapping
    that the assignments of the five sources, in their order, build from
    the empty one. *)
Lemma read_all_processors fs st :
  read_all fs initial = (Ok tt, st) ->
  processors st =
  Dict.update [] (List.concat (map contribution (sources fs))).
Proof.
  pose proof (sources_respect fs) as Hall. unfold sources in *.
  repeat match goal with
         | Hf : Forall _ (_ :: _) |- _ =>
             let Hs := fresh "Hs" in
             inversion Hf as [|? ? Hs ?]; subst; clear Hf
         end.
  unfold read_all, seq. simpl List.concat. rewrite app_nil_r.
  repeat match goal with
         | Hr : respects ?s |- context [?s ?st0] =>
             let r := fresh "r" in
             let st' := fresh "st" in
             let E := fresh "E" in
             destruct (respects_contribution st0 Hr) as (_ & E & _);
             destruct (s st0) as [r st']; simpl in E;
             destruct r; [|discriminate]; clear Hr
         end.
  intros Heq. inversion Heq; subst.
  rewrite !update_app. simpl processors in *. congruence.
Qed.

Lemma for_rows_records build rows st :
  processors (snd (for_rows build rows st)) =
  Dict.update (processors st) (map keyed (built_rows build rows)).
Proof.
  revert st. induction rows as [|r rows IH]; intros st; simpl.
  - reflexivity.
  - destruct (build r) as [[p|]|e].
    + rewrite IH. reflexivity.
    + apply IH.
    + destruct e; try reflexivity. rewrite IH. reflexivity.
Qed.

Lemma file_handlers_processors path e st :
  processors (snd (file_handlers path e st)) = processors st.
Proof. destruct e; reflexivity. Qed.

Lemma read_and_process_records headers build fs path st :
  processors (snd (read_and_process headers build fs path st)) =
  Dict.update (processors st)
    (map keyed (file_records headers build fs path)).
Proof.
  unfold read_and_process, file_records.
  destruct (open fs path) as [rows|e];
    [|now rewrite file_handlers_processors].
  destruct (check_headers headers (fieldnames rows)) as [u|e];
    [|now rewrite file_handlers_processors].
  pose proof (for_rows_records build (dict_rows rows) st) as Hrows.
  destruct (for_rows build (dict_rows rows) st) as [[u'|e] st'];
    simpl in Hrows; [exact Hrows|].
  now rewrite file_handlers_processors.
Qed.

Lemma intel_items_records items v st :
  fst (intel_items items v st) = snd (items_records items v) /\
  processors (snd (intel_items items v st)) =
  Dict.update (processors st) (map keyed (fst (items_records items v))).
Proof.
  revert v st. induction items as [|[name d] items IH]; intros v st; simpl.
  - split; reflexivity.
  - destruct (intel_processor name d v) as [[v' [p|]]|e]; simpl.
    + destruct (IH v' (store p st)) as [Hr Hp].
      destruct (items_records items v') as [ps r]. simpl in *.
      split; [exact Hr|exact Hp].
    + destruct (IH v' st) as [Hr Hp].
      destruct (items_records items v') as [ps r]. simpl in *.
      split; [exact Hr|exact Hp].
    + split; reflexivity.
Qed.

Lemma intel_files_records fs root names v st :
  processors (snd (intel_files fs root names v st)) =
  Dict.update (processors st) (map keyed (files_records fs root names v)).
Proof.
  revert v st. induction names as [|file names IH]; intros v st; simpl.
  - reflexivity.
  - destruct (rows <- open fs (path_join root file) ;; intel_table rows)
      as [data|e]; [|reflexivity].
    destruct (intel_items_records data v st) as [Hr Hp].
    destruct (intel_items data v st) as [r st'].
    destruct (items_records data v) as [ps r']. simpl in Hr, Hp. subst r'.
    destruct r as [v'|e]; simpl.
    + rewrite IH, Hp, map_app. symmetry. apply update_app.
    + exact Hp.
Qed.

Lemma read_and_process_intel_records fs st :
  processors (snd (read_and_process_intel fs intel_path st)) =
  Dict.update (processors st) (map keyed (intel_records fs)).
Proof.
  unfold read_and_process_intel, intel_records.
  destruct (listdir fs intel_path) as [names|e]; [|reflexivity].
  apply intel_files_records.
Qed.

Lemma last_write_keyed_Some recs k p :
  Dict.last_write (map keyed recs) k = Some p -> k = model p /\ In p recs.
Proof.
  induction recs as [|q recs IH]; simpl; [discriminate|].
  destruct (Dict.last_write (map keyed recs) k) as [p'|].
  - intros [= ->]. destruct (IH eq_refl). auto.
  - destruct (Str.eqb (model q) k) eqn:E; [|discriminate].
    apply str_eqb_eq in E. intros [= ->]. auto.
Qed.

Lemma last_write_keyed_None recs k :
  (forall p, In p recs -> model p <> k) ->
  Dict.last_write (map keyed recs) k = None.
Proof.
  induction recs as [|q recs IH]; simpl; intros Hne; [reflexivity|].
  rewrite IH by auto.
  destruct (Str.eqb (model q) k) eqn:E; [|reflexivity].
  apply str_eqb_eq in E. now elim (Hne q (or_introl eq_refl)).
Qed.

(** The run of the five parsers, when it ends normally, leaves the mapping
    that assigning every built record under its model name, in the order
    the records are built, makes from the empty one. *)
Lemma read_all_records fs st :
  read_all fs initial = (Ok tt, st) ->
  processors st =
  Dict.update []
    (map keyed
       (amd_records fs ++ ampere_altra_records fs ++ ampere_one_records fs ++
        intel_records fs ++ green_algorithms_records fs)).
Proof.
  unfold read_all, seq.
  pose proof (read_and_process_records amd_headers amd_processor fs amd_path
                initial) as H1.
  fold (read_and_process_amd fs amd_path initial) in H1.
  destruct (read_and_process_amd fs amd_path initial) as [[u1|e1] st1];
    [|discriminate].
  pose proof (read_and_process_records ampere_altra_headers
                ampere_altra_processor fs ampere_altra_path st1) as H2.
  fold (read_and_process_ampere_altra fs ampere_altra_path st1) in H2.
  destruct (read_and_process_ampere_altra fs ampere_altra_path st1)
    as [[u2|e2] st2]; [|discriminate].
  pose proof (read_and_process_records ampere_one_headers
                ampere_one_processor fs ampere_one_path st2) as H3.
  fold (read_and_process_ampere_one fs ampere_one_path st2) in H3.
  destruct (read_and_process_ampere_one fs ampere_one_path st2)
    as [[u3|e3] st3]; [|discriminate].
  pose proof (read_and_process_intel_records fs st3) as H4.
  destruct (read_and_process_intel fs intel_path st3) as [[u4|e4] st4];
    [|discriminate].
  pose proof (read_and_process_records green_algorithms_headers
                green_algorithms_processor fs green_algorithms_path st4)
    as H5.
  fold (read_and_process_green_algorithms fs green_algorithms_path st4)
    in H5.
  destruct (read_and_process_green_algorithms fs green_algorithms_path st4)
    as [[u5|e5] st5]; [|discriminate].
  intros Heq. injection Heq as _ <-.
  simpl snd in *. change (processors initial) with (@nil (str * processor))
    in H1.
  rewrite !map_app, !update_app.
  unfold amd_records, ampere_altra_records, ampere_one_records,
    green_algorithms_records.
  now rewrite <- H1, <- H2, <- H3, <- H4, <- H5.
Qed.

(** C1 (invariant of the merger).  The five parsers run in the order AMD,
    Ampere Altra, Ampere One, Intel, Green-Algorithms against one mapping
    keyed by normalized model name.  Take the records the five sources
    build, in that order and within a source in the order of its rows.
    When the run ends normally the final mapping is what assigning each of
    them, whole, under its own model name leaves: no key occurs twice;
    every entry is a built record under its model name; a record no later
    record shares its model name with is in the mapping as it was built, so
    of two records with one model name the later one replaces the earlier
    one entirely; and a name no record has is no key. *)
Theorem merge_last_writer_wins (fs : files) (st : state) :
  read_all fs initial = (Ok tt, st) ->
  let recs :=
    amd_records fs ++ ampere_altra_records fs ++ ampere_one_records fs ++
    intel_records fs ++ green_algorithms_records fs in
  processors st = Dict.update [] (map keyed recs) /\
  NoDup (Dict.keys (processors st)) /\
  (forall k p, Dict.get (processors st) k = Some p ->
               k = model p /\ In p recs) /\
  (forall earlier p later,
      recs = earlier ++ p :: later ->
      (forall q, In q later -> model q <> model p) ->
      Dict.get (processors st) (model p) = Some p) /\
  (forall k, (forall p, In p recs -> model p <> k) ->
             Dict.get (processors st) k = None).
Proof.
  intros Hrun recs.
  assert (Hps : processors st = Dict.update [] (map keyed recs))
    by now apply read_all_records.
  assert (Hget : forall k, Dict.get (processors st) k
                           = Dict.last_write (map keyed recs) k).
  { intros k. rewrite Hps, get_update. simpl.
    now destruct (Dict.last_write (map keyed recs) k). }
  split; [exact Hps|]. split; [|split; [|split]].
  - rewrite Hps. apply keys_update_NoDup. constructor.
  - intros k p Hk. rewrite Hget in Hk. now apply last_write_keyed_Some.
  - intros earlier p later Hsplit Hlater.
    rewrite Hget, Hsplit, map_app, last_write_app. simpl.
    rewrite (@last_write_keyed_None later (model p) Hlater).
    now rewrite str_eqb_refl.
  - intros k Hk. rewrite Hget. now apply last_write_keyed_None.
Qed.

End LastWriter.

Lemma complete_run_ends :
  read_all (H := Reference.builtins) Sample.complete initial =
  (Ok tt, snd (read_all (H := Reference.builtins) Sample.complete initial)).
Proof. vm_compute. reflexivity. Qed.

Lemma merge_last_writer_wins_witness :
  let fs := Sample.complete in
  let st := snd (read_all (H := Reference.builtins) fs initial) in
  read_all (H := Reference.builtins) fs initial = (Ok tt, st) /\
  let recs :=
    amd_records (H := Reference.builtins) fs ++
    ampere_altra_records (H := Reference.builtins) fs ++
    ampere_one_records (H := Reference.builtins) fs ++
    intel_records (H := Reference.builtins) fs ++
    green_algorithms_records (H := Reference.builtins) fs in
  processors st = Dict.update [] (map keyed recs) /\
  NoDup (Dict.keys (processors st)) /\
  (forall k p, Dict.get (processors st) k = Some p ->
               k = model p /\ In p recs) /\
  (forall earlier p later,
      recs = earlier ++ p :: later ->
      (forall q, In q later -> model q <> model p) ->
      Dict.get (processors st) (model p) = Some p) /\
  (forall k, (forall p, In p recs -> model p <> k) ->
             Dict.get (processors st) k = None).
Proof.
  intros fs st. split.
  - exact complete_run_ends.
  - exact (merge_last_writer_wins (H := Reference.builtins) fs
             complete_run_ends).
Defined.

(** On the sample files six records are built and five are left: the
    Green-Algorithms record, built last, has taken the place of the AMD
    record of the same model name. *)
Example sample_records :
  let fs := Sample.complete in
  let st := snd (read_all (H := Reference.builtins) fs initial) in
  map (fun p => (model p, source p))
    (amd_records (H := Reference.builtins) fs ++
     ampere_altra_records (H := Reference.builtins) fs ++
     ampere_one_records (H := Reference.builtins) fs ++
     intel_records (H := Reference.builtins) fs ++
     green_algorithms_records (H := Reference.builtins) fs)
  = [ (lit "Ryzen 5 3600", amd_source);
      (lit "Ryzen 7 7840U", amd_source);
      (lit "Ryzen 9 7950X", amd_source);
      (lit "AmpereAltra Q80-30", ampere_altra_source);
      (lit "AmpereOne A192-32X", ampere_one_source);
      (lit "Core" ++ trademark ++ lit " i7-9700K Processor", intel_source);
      (lit "Ryzen 5 3600", lit "http://calculator.green-algorithms.org") ] /\
  map (fun kp => (fst kp, source (snd kp))) (processors st)
  = [ (lit "Ryzen 5 3600", lit "http://calculator.green-algorithms.org");
      (lit "Ryzen 7 7840U", amd_source);
      (lit "Ryzen 9 7950X", amd_source);
      (lit "AmpereAltra Q80-30", ampere_altra_source);
      (lit "AmpereOne A192-32X", ampere_one_source);
      (lit "Core" ++ trademark ++ lit " i7-9700K Processor", intel_source) ].
Proof. vm_compute. split; reflexivity. Qed.

(** On the sample files the Green-Algorithms record replaces the AMD
    record of the same model name, whole: its source is the later one. *)
Example later_source_replaces :
  let st := snd (read_all (H := Reference.builtins) Sample.complete initial) in
  option_map (fun p => source p)
    (Dict.get (contribution
       (read_and_process_amd (H := Reference.builtins)
          Sample.complete amd_path)) (lit "Ryzen 5 3600"))
  = Some amd_source /\
  option_map (fun p => source p) (Dict.get (processors st) (lit "Ryzen 5 3600"))
  = Some (lit "http://calculator.green-algorithms.org").
Proof. vm_compute. split; reflexivity. Qed.

(** ** Reading the monadic code *)

Lemma bind_Ok {A B} (r : result A) (k : A -> result B) b :
  bind r k = Ok b -> exists a, r = Ok a /\ k a = Ok b.
Proof. destruct r; simpl; [eauto|discriminate]. Qed.

Lemma bind_Raise {A B} (r : result A) (k : A -> result B) e :
  bind r k = Raise e -> r = Raise e \/ exists a, r = Ok a /\ k a = Raise e.
Proof. destruct r; simpl; [eauto|intros [= ->]; auto]. Qed.

(** Take a successful chain of binds apart, step by step. *)
Ltac chain_ok H :=
  repeat match type of H with
         | bind _ _ = Ok _ =>
             let a := fresh "a" in
             let E := fresh "E" in
             apply bind_Ok in H; destruct H as (a & E & H)
         | (if ?c then _ else _) = Ok _ =>
             let C := fresh "C" in destruct c eqn:C
         | Ok _ = Ok _ => first [discriminate H | injection H as H]
         | Raise _ = Ok _ => discriminate H
         end.

(** ** C6: TDP per core and per thread *)

Lemma per_unit_Ok x n q :
  per_unit x n = Ok q ->
  ((n > 0)%Z -> exists y, float_of_int n = Ok y /\ q = Float (x / y)%float) /\
  ((n <= 0)%Z -> q = Int 0).
Proof.
  unfold per_unit, truediv. destruct (Z.gtb_spec n 0) as [Hpos|Hle].
  - destruct (float_of_int n) as [y|e]; simpl; [|discriminate].
    destruct (Z.eqb_spec n 0); [lia|]. simpl.
    intros [= <-]. split; [eauto|lia].
  - intros [= <-]. split; [lia|reflexivity].
Qed.

Lemma per_unit_Raise x n e :
  per_unit x n = Raise e -> e = OverflowError.
Proof.
  unfold per_unit, truediv. destruct (Z.gtb_spec n 0) as [Hpos|Hle].
  - unfold float_of_int.
    destruct (binary_normalize prec emax n 0 false); simpl;
      destruct (Z.eqb_spec n 0); try lia; simpl; congruence.
  - discriminate.
Qed.

(** What the primitive steps can raise. *)

Lemma getitem_Raise {V} (d : Dict.dict V) k e :
  Dict.getitem d k = Raise e -> e = KeyError.
Proof. unfold Dict.getitem. destruct (Dict.get d k); congruence. Qed.

Lemma cell_Raise r k e :
  cell r k = Raise e -> e = KeyError \/ e = AttributeError.
Proof.
  unfold cell. intros H. apply bind_Raise in H.
  destruct H as [H|(c & _ & H)].
  - left. now apply getitem_Raise in H.
  - right. destruct c; simpl in H; congruence.
Qed.

Lemma or_value_error_Raise {A} (o : option A) e :
  or_value_error o = Raise e -> e = ValueError.
Proof. destruct o; simpl; congruence. Qed.

Lemma int_of_float_Raise x e :
  int_of_float x = Raise e -> e = OverflowError \/ e = ValueError.
Proof.
  unfold int_of_float. destruct (Prim2SF x); intros [=]; auto.
Qed.

Lemma item_Raise {A} (l : list A) i e : item l i = Raise e -> e = IndexError.
Proof. unfold item. destruct (nth_error l i); congruence. Qed.

(** The exceptions a record construction can end in. *)
Definition construction_error (e : exn) : Prop :=
  e = KeyError \/ e = AttributeError \/ e = ValueError \/
  e = OverflowError \/ e = IndexError \/ e = UnboundLocalError.

(** Take a failing chain of binds apart and settle each failing step. *)
Ltac chain_raise H :=
  repeat match type of H with
         | bind _ _ = Raise _ =>
             let a := fresh "a" in
             let E := fresh "E" in
             apply bind_Raise in H; destruct H as [H|(a & E & H)]
         | (if ?c then _ else _) = Raise _ => destruct c
         | Ok _ = Raise _ => discriminate H
         end;
  unfold construction_error;
  first
    [ apply cell_Raise in H; tauto
    | apply getitem_Raise in H; tauto
    | apply or_value_error_Raise in H; tauto
    | apply int_of_float_Raise in H; tauto
    | apply per_unit_Raise in H; tauto
    | apply item_Raise in H; tauto
    | idtac ].

Section Construction.
Context `{Builtins}.

Lemma amd_tdp_Raise s e : amd_tdp s = Raise e -> construction_error e.
Proof.
  unfold amd_tdp, float_. intros Hr. chain_raise Hr.
Qed.

Lemma amd_processor_Raise r e :
  amd_processor r = Raise e -> construction_error e.
Proof.
  unfold amd_processor, int_. intros Hr. chain_raise Hr.
  now apply amd_tdp_Raise in Hr.
Qed.

Lemma ampere_altra_processor_Raise r e :
  ampere_altra_processor r = Raise e -> construction_error e.
Proof.
  unfold ampere_altra_processor, float_. intros Hr. chain_raise Hr.
Qed.

Lemma ampere_one_processor_Raise r e :
  ampere_one_processor r = Raise e -> construction_error e.
Proof.
  unfold ampere_one_processor, float_, int_. intros Hr. chain_raise Hr.
Qed.

Lemma green_algorithms_processor_Raise r e :
  green_algorithms_processor r = Raise e -> construction_error e.
Proof.
  unfold green_algorithms_processor, float_, int_. intros Hr. chain_raise Hr.
Qed.

Lemma intel_processor_Raise name d v e :
  intel_processor name d v = Raise e -> construction_error e.
Proof.
  unfold intel_processor, float_, int_. intros Hr.
  apply bind_Raise in Hr. destruct Hr as [Hr|(v' & _ & Hr)].
  - destruct (Dict.get d (lit "TDP")); [discriminate|].
    destruct (Dict.get d (lit "Processor Base Power")); discriminate.
  - destruct v' as [[[|c s]|x]|].
    + discriminate.
    + chain_raise Hr.
    + chain_raise Hr.
    + injection Hr as <-. unfold construction_error. tauto.
Qed.

End Construction.

Section PerUnit.
Context `{Builtins}.

Lemma per_unit_is x n q : per_unit x n = Ok q -> is_per_unit x n q.
Proof.
  intros Hq. apply per_unit_Ok in Hq. destruct Hq as [Hpos Hle].
  split; auto. intros ->. apply Hle. lia.
Qed.

Lemma construct_Raise c e : construct c = Raise e -> construction_error e.
Proof.
  destruct c as [r|r|r|name d v|r]; simpl.
  - apply amd_processor_Raise.
  - apply ampere_altra_processor_Raise.
  - apply ampere_one_processor_Raise.
  - destruct (intel_processor name d v) as [[v' p]|e'] eqn:E; [discriminate|].
    intros [= <-]. now apply intel_processor_Raise in E.
  - apply green_algorithms_processor_Raise.
Qed.

(** C6.  For every record any of the five parsers builds: when the parsed
    core count is above 0, [tdp_per_core] is exactly [tdp / n_cores] (the
    float quotient), and when it is 0, [tdp_per_core] is 0; the same for
    [tdp_per_thread] and [n_threads].  No construction raises
    [ZeroDivisionError]. *)
Theorem per_unit_tdp (c : construction) :
  construct c <> Raise ZeroDivisionError /\
  forall p, construct c = Ok (Some p) ->
    is_per_unit (tdp p) (n_cores p) (tdp_per_core p) /\
    is_per_unit (tdp p) (n_threads p) (tdp_per_thread p).
Proof.
  split.
  - intros Hr. apply construct_Raise in Hr.
    unfold construction_error in Hr. intuition discriminate.
  - intros p Hp. destruct c as [r|r|r|name d v|r]; simpl in Hp.
    + unfold amd_processor in Hp. chain_ok Hp. subst p. simpl.
      split; now apply per_unit_is.
    + unfold ampere_altra_processor in Hp. chain_ok Hp. subst p. simpl.
      split; now apply per_unit_is.
    + unfold ampere_one_processor in Hp. chain_ok Hp. subst p. simpl.
      split; now apply per_unit_is.
    + destruct (intel_processor name d v) as [[v' p']|e] eqn:E;
        [|discriminate].
      injection Hp as ->. unfold intel_processor in E.
      apply bind_Ok in E. destruct E as (w & _ & E).
      destruct w as [[[|ch s]|x]|]; try discriminate;
        chain_ok E; intros; subst; simpl; split; now apply per_unit_is.
    + unfold green_algorithms_processor in Hp. chain_ok Hp. subst p. simpl.
      split; now apply per_unit_is.
Qed.

End PerUnit.

(** The AMD row of the specification's end-to-end example. *)
Example amd_ryzen_5_3600 :
  let r := zip_row amd_headers
             [lit "AMD Ryzen 5 3600"; lit "65W"; lit "6"; lit "12"] [] in
  amd_processor (H := Reference.builtins) r =
  Ok (Some {| tdp := 65;
              manufacturer := lit "AMD";
              model := lit "Ryzen 5 3600";
              n_cores := 6;
              n_threads := 12;
              tdp_per_core := Float (65 / 6);
              tdp_per_thread := Float (65 / 12);
              source := amd_source |}).
Proof. vm_compute. reflexivity. Qed.

Lemma per_unit_tdp_witness :
  let c := ByAmd (zip_row amd_headers
                    [lit "AMD Ryzen 5 3600"; lit "65W"; lit "6"; lit "12"] []) in
  construct (H := Reference.builtins) c <> Raise ZeroDivisionError /\
  forall p, construct (H := Reference.builtins) c = Ok (Some p) ->
    is_per_unit (tdp p) (n_cores p) (tdp_per_core p) /\
    is_per_unit (tdp p) (n_threads p) (tdp_per_thread p).
Proof. intros c. exact (per_unit_tdp (H := Reference.builtins) c). Defined.

(** ** C9: the output file *)

Section Output.
Context `{Builtins}.

Lemma fold_write {A} (g : A -> str) (l : list A) (f : str) :
  fold_left (fun f a => write f (g a)) l f = f ++ List.concat (map g l).
Proof.
  revert f. induction l as [|a l IH]; simpl; intros f.
  - now rewrite app_nil_r.
  - rewrite IH. unfold write. now rewrite app_assoc.
Qed.

Lemma join_cons sep x (l : list str) :
  join sep (x :: l) = x ++ List.concat (map (fun y => sep ++ y) l).
Proof.
  revert x. induction l as [|y l IH]; intros x.
  - simpl. now rewrite app_nil_r.
  - change (join sep (x :: y :: l)) with (x ++ sep ++ join sep (y :: l)).
    rewrite IH. simpl. now rewrite <- app_assoc.
Qed.

(** The text written is the preamble and the record lines, joined by line
    feeds (none after the last line). *)
Lemma serialize_join d :
  serialize d = join newline (preamble ++ map record_line (Dict.values d)).
Proof.
  unfold serialize, preamble. rewrite fold_write. unfold write.
  generalize (lit "index,in Watt,,,") as l1.
  generalize (lit "model,TDP,n_cores,TDP_per_core,source") as l2.
  intros l2 l1.
  change ([l1; l2] ++ map record_line (Dict.values d))
    with (l1 :: l2 :: map record_line (Dict.values d)).
  rewrite join_cons. simpl map. simpl List.concat.
  rewrite map_map, app_nil_l, <- !app_assoc. reflexivity.
Qed.

Lemma record_line_fields p q :
  written_fields p = written_fields q -> record_line p = record_line q.
Proof.
  unfold written_fields, record_line. intros [= -> -> -> -> ->]. reflexivity.
Qed.

(** C9.  When the run reaches the end, the output file holds exactly the
    two preamble lines [index,in Watt,,,] and
    [model,TDP,n_cores,TDP_per_core,source], then one line per record of the
    merged mapping, in the mapping's order: model, tdp, n_cores,
    tdp_per_core and source as they are, with commas between and nothing
    quoted or escaped.  The text depends on these five fields only:
    [n_threads], [tdp_per_thread] and [manufacturer] are not written. *)
Theorem merge_output (fs : files) (text : str) :
  fst (merge fs) = Ok text ->
  let records := Dict.values (processors (snd (merge fs))) in
  text = join newline
           (lit "index,in Watt,,," ::
            lit "model,TDP,n_cores,TDP_per_core,source" ::
            map (fun p => join comma
                            [model p; str_of_float (tdp p);
                             str_of_int (n_cores p);
                             str_of_number (tdp_per_core p); source p])
                records) /\
  forall d : Dict.dict processor,
    map written_fields (Dict.values d) = map written_fields records ->
    serialize d = text.
Proof.
  unfold merge. destruct (read_all fs initial) as [[u|e] st]; simpl;
    [|discriminate].
  intros [= <-]. split.
  - apply serialize_join.
  - intros d Hd. rewrite !serialize_join. do 2 f_equal.
    revert Hd. generalize (Dict.values (processors st)) as l2.
    generalize (Dict.values d) as l1.
    induction l1 as [|p l1 IH]; intros [|q l2]; cbn [map];
      try discriminate; auto.
    intros Hd.
    assert (Hpq : written_fields p = written_fields q) by congruence.
    assert (Hrest : map written_fields l1 = map written_fields l2)
      by congruence.
    f_equal; [now apply record_line_fields|now apply IH].
Qed.

End Output.

Lemma merge_output_witness :
  let fs := Sample.complete in
  let text := serialize (H := Reference.builtins)
                (processors (snd (merge (H := Reference.builtins) fs))) in
  fst (merge (H := Reference.builtins) fs) = Ok text /\
  let records :=
    Dict.values (processors (snd (merge (H := Reference.builtins) fs))) in
  text = join newline
           (lit "index,in Watt,,," ::
            lit "model,TDP,n_cores,TDP_per_core,source" ::
            map (fun p => join comma
                            [model p; Reference.repr (tdp p);
                             str_of_int (n_cores p);
                             str_of_number (H := Reference.builtins)
                               (tdp_per_core p);
                             source p])
                records) /\
  forall d : Dict.dict processor,
    map written_fields (Dict.values d) = map written_fields records ->
    serialize (H := Reference.builtins) d = text.
Proof.
  intros fs text.
  assert (Hrun : fst (merge (H := Reference.builtins) fs) = Ok text)
    by (vm_compute; reflexivity).
  split; [exact Hrun|].
  exact (merge_output (H := Reference.builtins) fs Hrun).
Defined.

(** The output for the sample files; the AMD row of the specification's
    example comes out with 65.0 and 10.833333333333334. *)
Example sample_output :
  fst (merge (H := Reference.builtins) Sample.amd_only) =
  Ok (join newline
        [lit "index,in Watt,,,";
         lit "model,TDP,n_cores,TDP_per_core,source";
         lit "Ryzen 5 3600,65.0,6,10.833333333333334," ++ amd_source;
         lit "Ryzen 7 7840U,22.5,8,2.8125," ++ amd_source;
         lit "Ryzen 9 7950X,170.0,16,10.625," ++ amd_source]).
Proof. vm_compute. reflexivity. Qed.

(** ** C10: AMD rows with an empty field *)

Section AmdEmptyField.
Context `{Builtins}.

(** C10.  In the AMD parser, a row whose "Default TDP" (trimmed, "W" and
    "+" removed), "# of CPU Cores" (trimmed) or "# of Threads" (trimmed) is
    the empty string is passed over in silence: the loop goes on with the
    remaining rows from the same state, so no record is stored and nothing
    is printed for it.  The row is one that holds a string in each of the
    four columns. *)
Theorem amd_empty_field_skipped
    (r : row) (name tdp cores threads : str) (rest : list row) (st : state) :
  cell r (lit "Name") = Ok name ->
  cell r (lit "Default TDP") = Ok tdp ->
  cell r (lit "# of CPU Cores") = Ok cores ->
  cell r (lit "# of Threads") = Ok threads ->
  replace (lit "+") [] (replace (lit "W") [] (strip tdp)) = [] \/
  strip cores = [] \/ strip threads = [] ->
  amd_processor r = Ok None /\
  for_rows amd_processor (r :: rest) st = for_rows amd_processor rest st.
Proof.
  intros Hname Htdp Hcores Hthreads Hempty.
  assert (Hskip : amd_processor r = Ok None).
  { unfold amd_processor. rewrite Hname, Htdp, Hcores, Hthreads.
    cbn [bind].
    destruct Hempty as [->|[->| ->]]; rewrite ?str_eqb_refl;
      rewrite ?orb_true_r; reflexivity. }
  split; [exact Hskip|]. simpl. now rewrite Hskip.
Qed.

End AmdEmptyField.

Lemma amd_empty_field_skipped_witness :
  let r := zip_row amd_headers
             [lit "AMD Ryzen 9 7900"; lit ""; lit "12"; lit "24"] [] in
  (cell r (lit "Name") = Ok (lit "AMD Ryzen 9 7900") /\
   cell r (lit "Default TDP") = Ok [] /\
   cell r (lit "# of CPU Cores") = Ok (lit "12") /\
   cell r (lit "# of Threads") = Ok (lit "24")) /\
  amd_processor (H := Reference.builtins) r = Ok None /\
  for_rows (amd_processor (H := Reference.builtins)) [r] initial =
  for_rows (amd_processor (H := Reference.builtins)) [] initial.
Proof.
  intros r.
  assert (H1 : cell r (lit "Name") = Ok (lit "AMD Ryzen 9 7900"))
    by (vm_compute; reflexivity).
  assert (H2 : cell r (lit "Default TDP") = Ok []) by (vm_compute; reflexivity).
  assert (H3 : cell r (lit "# of CPU Cores") = Ok (lit "12"))
    by (vm_compute; reflexivity).
  assert (H4 : cell r (lit "# of Threads") = Ok (lit "24"))
    by (vm_compute; reflexivity).
  split; [repeat split; assumption|].
  exact (amd_empty_field_skipped (H := Reference.builtins) r [] initial
           H1 H2 H3 H4 (or_introl eq_refl)).
Defined.

(** C10 without the four cells fails.  A line cut short after an empty
    "Default TDP" is a row whose trimmed TDP field is the empty string, yet
    it is not passed over: its "# of CPU Cores" cell is [None], the call
    [.strip()] of line 24 raises [AttributeError] before the test of line
    26 is reached, no [except] clause catches it, the rows after it are not
    read, and the run ends without output. *)
Lemma short_row_with_empty_field :
  let r := zip_row amd_headers Sample.short_row [] in
  let next := zip_row amd_headers
                [lit "AMD Ryzen 5 3600"; lit "65W"; lit "6"; lit "12"] [] in
  option_map
    (fun tdp => replace (lit "+") [] (replace (lit "W") [] (strip tdp)))
    (match cell r (lit "Default TDP") with
     | Ok tdp => Some tdp
     | Raise _ => None
     end)
  = Some [] /\
  amd_processor (H := Reference.builtins) r = Raise AttributeError /\
  for_rows (amd_processor (H := Reference.builtins)) [r; next] initial
  = (Raise AttributeError, initial) /\
  fst (merge (H := Reference.builtins) Sample.amd_short_row)
  = Raise AttributeError.
Proof. vm_compute. repeat split; reflexivity. Qed.

(** ** C7: a file without a required column *)

Lemma check_headers_missing headers names h :
  In h headers -> in_list h names = false ->
  check_headers headers (Some names) = Raise ValueError.
Proof.
  induction headers as [|h0 headers IH]; simpl; [tauto|].
  intros [->|Hin] Hmiss.
  - now rewrite Hmiss.
  - destruct (in_list h0 names); auto.
Qed.

Lemma read_and_process_missing_header headers build fs path names body h st :
  csv_at fs path = Some (names :: body) ->
  In h headers -> in_list h names = false ->
  read_and_process headers build fs path st = (Ok tt, print FileError st).
Proof.
  intros Hfile Hin Hmiss. unfold read_and_process, open. rewrite Hfile.
  simpl fieldnames. now rewrite (check_headers_missing _ _ _ Hin Hmiss).
Qed.

Section MissingHeader.
Context `{Builtins}.

(** A header row that lacks a required column.  For each parser with a
    required-header set (AMD, Ampere Altra, Ampere One, Green-Algorithms):
    when the header row of its file lacks a required column, the parser
    ends normally, the mapping is exactly what it was before the parser
    ran, and one error message is printed.  The records of the other
    sources are therefore untouched, and the sources after it are read. *)
Theorem missing_header_contributes_nothing
    (headers : list str) (parser : files -> str -> stmt)
    (fs : files) (path : str) (names : list str) (body : csv_rows)
    (h : str) (st : state) :
  In (headers, parser) header_checking ->
  csv_at fs path = Some (names :: body) ->
  In h headers -> in_list h names = false ->
  exists st',
    parser fs path st = (Ok tt, st') /\
    processors st' = processors st /\
    console st' = console st ++ [FileError].
Proof.
  intros Hp Hfile Hin Hmiss. exists (print FileError st).
  split; [|split; reflexivity].
  unfold header_checking in Hp. simpl in Hp.
  destruct Hp as [Hp|[Hp|[Hp|[Hp|[]]]]]; injection Hp as <- <-;
    unfold read_and_process_amd, read_and_process_ampere_altra,
      read_and_process_ampere_one, read_and_process_green_algorithms;
    eapply read_and_process_missing_header; eassumption.
Qed.

End MissingHeader.

Lemma missing_header_contributes_nothing_witness :
  let fs := Sample.amd_without_threads in
  let st := snd (read_and_process_ampere_altra (H := Reference.builtins)
                   fs ampere_altra_path initial) in
  let names := [lit "Name"; lit "Default TDP"; lit "# of CPU Cores"] in
  let body := [[lit "AMD Ryzen 5 3600"; lit "65W"; lit "6"]] in
  (In (amd_headers, read_and_process_amd (H := Reference.builtins))
      (header_checking (H := Reference.builtins)) /\
   csv_at fs amd_path = Some (names :: body) /\
   In (lit "# of Threads") amd_headers /\
   in_list (lit "# of Threads") names = false) /\
  exists st',
    read_and_process_amd (H := Reference.builtins) fs amd_path st
    = (Ok tt, st') /\
    processors st' = processors st /\
    console st' = console st ++ [FileError].
Proof.
  intros fs st names body.
  assert (H1 : In (amd_headers, read_and_process_amd (H := Reference.builtins))
                 (header_checking (H := Reference.builtins)))
    by (left; reflexivity).
  assert (H2 : csv_at fs amd_path = Some (names :: body))
    by (vm_compute; reflexivity).
  assert (H3 : In (lit "# of Threads") amd_headers)
    by (do 3 right; left; reflexivity).
  assert (H4 : in_list (lit "# of Threads") names = false)
    by (vm_compute; reflexivity).
  split; [repeat split; assumption|].
  exact (@missing_header_contributes_nothing Reference.builtins
           amd_headers (read_and_process_amd (H := Reference.builtins))
           fs amd_path names body (lit "# of Threads") st H1 H2 H3 H4).
Defined.

Lemma read_and_process_amd_empty `{Builtins} fs st :
  csv_at fs amd_path = Some [] ->
  read_and_process_amd fs amd_path st = (Raise TypeError, st).
Proof.
  intros Hfile. unfold read_and_process_amd, read_and_process, open.
  rewrite Hfile. reflexivity.
Qed.

(** C7 fails for a file that holds nothing at all, which lacks every
    required column.  [csv.DictReader] has no field names for it
    ([fieldnames] is [None]), the test [header not in csv_reader.fieldnames]
    of line 15 raises [TypeError], and neither [except] clause catches it:
    nothing is reported and the run ends there.  With the AMD file empty
    the run ends before a single record is stored, whatever the other files
    hold; with the Green-Algorithms file empty it ends after the other four
    sources were read, and their six records are never written.  The same
    files with a header row that lacks a column are reported and passed
    over, and the run writes the records of the other sources. *)
Theorem empty_file_ends_run :
  (forall (B : Builtins) fs,
      csv_at fs amd_path = Some [] ->
      merge (H := B) fs = (Raise TypeError, initial)) /\
  (let run := merge (H := Reference.builtins) Sample.green_algorithms_empty in
   fst run = Raise TypeError /\
   console (snd run) = [] /\
   List.length (processors (snd run)) = 6%nat) /\
  (exists text st,
      merge (H := Reference.builtins) Sample.amd_without_threads
      = (Ok text, st) /\
      console st = [FileError] /\
      List.length (processors st) = 4%nat).
Proof.
  split; [|split].
  - intros B fs Hfile. unfold merge, read_all, seq.
    rewrite (@read_and_process_amd_empty B fs initial Hfile). reflexivity.
  - vm_compute. repeat split; reflexivity.
  - eexists. eexists. split; [vm_compute; reflexivity|].
    vm_compute. split; reflexivity.
Qed.

(** ** C3: a hyphenated TDP range *)

Lemma contains_hyphen_false s : contains (lit "-") s = false -> ~ In 45%N s.
Proof.
  intros Hc Hin. apply In_contains_char in Hin.
  change (contains (lit "-") s = true) in Hin. congruence.
Qed.

Lemma split_without c s : ~ In c s -> split c s = [s].
Proof.
  induction s as [|x s IH]; simpl; intros Hnot; [reflexivity|].
  unfold char_eqb. destruct (N.eqb_spec x c); [tauto|].
  rewrite IH by tauto. reflexivity.
Qed.

Lemma split_at c a b : ~ In c a -> split c (a ++ c :: b) = a :: split c b.
Proof.
  induction a as [|x a IH]; simpl; intros Hnot.
  - unfold char_eqb. now rewrite N.eqb_refl.
  - unfold char_eqb. destruct (N.eqb_spec x c); [tauto|].
    rewrite IH by tauto. reflexivity.
Qed.

Lemma contains_app_r p a b : contains p b = true -> contains p (a ++ b) = true.
Proof.
  intros Hb. induction a as [|x a IH]; simpl; auto.
  rewrite IH. apply orb_true_r.
Qed.

Section AmdRange.
Context `{Builtins}.

(** C3, as the code has it.  In the AMD parser a TDP text "a-b" (what is
    left of the field after trimming and removing "W" and "+"), with [a] and
    [b] free of "-" and accepted by [float], is parsed to [(a + b) / 2]: the
    range code returns that value, and every record built from such a row
    has it as its [tdp]. *)
Theorem amd_range_is_mean (a b : str) (x y : float) :
  contains (lit "-") a = false ->
  contains (lit "-") b = false ->
  float_of_str a = Some x ->
  float_of_str b = Some y ->
  amd_tdp (a ++ lit "-" ++ b) = Ok ((x + y) / 2)%float /\
  forall (r : row) (field : str) (p : processor),
    cell r (lit "Default TDP") = Ok field ->
    replace (lit "+") [] (replace (lit "W") [] (strip field))
    = a ++ lit "-" ++ b ->
    amd_processor r = Ok (Some p) ->
    tdp p = ((x + y) / 2)%float.
Proof.
  intros Ha Hb Hx Hy.
  assert (Htdp : amd_tdp (a ++ lit "-" ++ b) = Ok ((x + y) / 2)%float).
  { unfold amd_tdp. apply contains_hyphen_false in Ha, Hb.
    rewrite contains_app_r by reflexivity.
    change (lit "-" ++ b) with (45%N :: b).
    rewrite split_at, split_without by assumption.
    simpl. unfold float_. now rewrite Hx, Hy. }
  split; [exact Htdp|].
  intros r field p Hfield Hrange Hp.
  unfold amd_processor in Hp. chain_ok Hp. subst p. simpl.
  rewrite Hfield in E0. injection E0 as <-.
  rewrite Hrange in E3. congruence.
Qed.

End AmdRange.

Lemma amd_range_is_mean_witness :
  (contains (lit "-") (lit "15") = false /\
   contains (lit "-") (lit "30") = false /\
   float_of_str (Builtins := Reference.builtins) (lit "15") = Some 15%float /\
   float_of_str (Builtins := Reference.builtins) (lit "30") = Some 30%float) /\
  amd_tdp (H := Reference.builtins) (lit "15" ++ lit "-" ++ lit "30")
  = Ok ((15 + 30) / 2)%float /\
  forall (r : row) (field : str) (p : processor),
    cell r (lit "Default TDP") = Ok field ->
    replace (lit "+") [] (replace (lit "W") [] (strip field))
    = lit "15" ++ lit "-" ++ lit "30" ->
    amd_processor (H := Reference.builtins) r = Ok (Some p) ->
    tdp p = ((15 + 30) / 2)%float.
Proof.
  assert (H1 : contains (lit "-") (lit "15") = false) by reflexivity.
  assert (H2 : contains (lit "-") (lit "30") = false) by reflexivity.
  assert (H3 : float_of_str (Builtins := Reference.builtins) (lit "15")
               = Some 15%float) by (vm_compute; reflexivity).
  assert (H4 : float_of_str (Builtins := Reference.builtins) (lit "30")
               = Some 30%float) by (vm_compute; reflexivity).
  split; [repeat split; assumption|].
  exact (amd_range_is_mean (H := Reference.builtins) (lit "15") (lit "30")
           H1 H2 H3 H4).
Defined.

(** The claim for every parser fails: the Ampere Altra parser hands the
    whole text to [float].  With usage power "100-200", whose bounds [float]
    accepts, the construction raises [ValueError], the row is reported and
    the source stores nothing. *)
Lemma altra_range_is_not_averaged :
  float_of_str (Builtins := Reference.builtins) (lit "100") = Some 100%float /\
  float_of_str (Builtins := Reference.builtins) (lit "200") = Some 200%float /\
  ampere_altra_processor (H := Reference.builtins)
    (zip_row ampere_altra_headers Sample.altra_range_row [])
  = Raise ValueError /\
  read_and_process_ampere_altra (H := Reference.builtins)
    Sample.altra_with_range ampere_altra_path initial
  = (Ok tt,
     {| processors := [];
        console :=
          [RowError (zip_row ampere_altra_headers Sample.altra_range_row [])]
     |}).
Proof. vm_compute. repeat split; reflexivity. Qed.

(** ** C5: what is left of a model name *)

Lemma startswith_firstn p s :
  startswith p s = true -> firstn (List.length p) s = p.
Proof.
  revert s. induction p as [|a p IH]; intros s; [reflexivity|].
  destruct s as [|b s]; simpl; [discriminate|].
  intros Hs. apply andb_prop in Hs. destruct Hs as [Hab Hs].
  unfold char_eqb in Hab. apply N.eqb_eq in Hab. subst b.
  now rewrite (IH s Hs).
Qed.

(** [replace] drops characters of [old] only. *)
Lemma In_replace_from old new k s c :
  old <> [] -> ~ In c old ->
  Forall (fun x => In x old) (firstn k s) ->
  In c s -> In c (replace_from old new k s).
Proof.
  intros Hold Hc. revert k.
  induction s as [|x s IH]; intros k Hk Hin; [destruct Hin|].
  destruct k as [|k]; simpl.
  - destruct old as [|o old']; [congruence|].
    destruct (startswith (o :: old') (x :: s)) eqn:Hs.
    + apply in_or_app. right. simpl in Hs.
      apply andb_prop in Hs. destruct Hs as [Hox Hs].
      unfold char_eqb in Hox. apply N.eqb_eq in Hox. subst x.
      apply IH.
      * simpl. rewrite (startswith_firstn _ _ Hs).
        apply Forall_forall. intros y Hy. now right.
      * destruct Hin as [<-|Hin]; [|exact Hin].
        elim Hc. now left.
    + destruct Hin as [->|Hin]; [now left|right].
      apply IH; [apply Forall_nil|exact Hin].
  - simpl in Hk. inversion Hk as [|? ? Hx Hk']; subst.
    destruct Hin as [<-|Hin]; [contradiction|].
    now apply IH.
Qed.

Lemma In_replace old new s c :
  old <> [] -> ~ In c old -> In c s -> In c (replace old new s).
Proof.
  intros Hold Hc Hin. unfold replace.
  destruct old as [|o old']; [congruence|].
  apply In_replace_from; auto.
Qed.

(** [strip] drops white space only. *)
Lemma In_lstrip_keeps c s :
  isspace c = false -> In c s -> In c (lstrip s).
Proof.
  intros Hc. induction s as [|x s IH]; simpl; [tauto|].
  destruct (isspace x) eqn:Hx.
  - intros [->|Hin]; [congruence|auto].
  - auto.
Qed.

Lemma In_strip_keeps c s : isspace c = false -> In c s -> In c (strip s).
Proof.
  intros Hc Hin. unfold strip, rstrip.
  apply in_rev. rewrite rev_involutive.
  apply In_lstrip_keeps; [exact Hc|].
  apply in_rev. rewrite rev_involutive.
  now apply In_lstrip_keeps.
Qed.

(** C5 fails for the Intel parser.  Line 188 removes "Intel" and the
    registered sign from a processor name, but not the trade mark sign,
    which line 21 does remove from an AMD name.  So every Intel processor
    name that holds a trade mark sign is stored under a model name that
    holds a trade mark sign, while no model name the AMD parser stores
    holds one.  On the sample files the Intel name is stored, and is a key
    of the final mapping, as "Core(TM) i7-9700K Processor" with the sign. *)
Theorem intel_keeps_trade_mark_sign :
  (forall (B : Builtins) name d v v' p,
      intel_processor (H := B) name d v = Ok (v', Some p) ->
      contains trademark name = true ->
      contains trademark (model p) = true) /\
  (forall (B : Builtins) r p,
      amd_processor (H := B) r = Ok (Some p) ->
      contains trademark (model p) = false) /\
  (let run := read_all (H := Reference.builtins) Sample.complete initial in
   let key := lit "Core" ++ trademark ++ lit " i7-9700K Processor" in
   fst run = Ok tt /\
   option_map (fun p => model p) (Dict.get (processors (snd run)) key)
   = Some key /\
   contains trademark key = true /\
   contains (lit "Intel") key = false /\
   contains registered key = false).
Proof.
  split; [|split].
  - intros B name d v v' p Hp Hname.
    assert (Hkeep : In 8482%N
              (strip (replace registered []
                        (replace (lit "Intel") [] name)))).
    { apply In_strip_keeps; [reflexivity|].
      apply In_replace; [discriminate| |].
      { unfold registered. simpl. intros [E|[]]. discriminate E. }
      apply In_replace; [discriminate| |].
      { cbv. intros [E|[E|[E|[E|[E|[]]]]]]; discriminate E. }
      exact (contains_char_In _ _ Hname). }
    unfold intel_processor in Hp.
    apply bind_Ok in Hp. destruct Hp as (w & _ & Hp).
    destruct w as [[[|ch s]|x]|]; try discriminate;
      chain_ok Hp; intros; subst; cbn [model];
      exact (In_contains_char _ _ Hkeep).
  - intros B r p Hp. unfold amd_processor in Hp. chain_ok Hp. subst p.
    apply removed_char_absent.
  - vm_compute. repeat split; reflexivity.
Qed.

(** The three names of the sample files, as stored. *)
Example stored_model_names :
  map (fun p => model p)
    (Dict.values
       (contribution (read_and_process_ampere_one (H := Reference.builtins)
                        Sample.complete ampere_one_path)))
  = [lit "AmpereOne A192-32X"] /\
  map (fun p => model p)
    (Dict.values
       (contribution (read_and_process_amd (H := Reference.builtins)
                        Sample.complete amd_path)))
  = [lit "Ryzen 5 3600"; lit "Ryzen 7 7840U"; lit "Ryzen 9 7950X"].
Proof. vm_compute. split; reflexivity. Qed.

(** ** C8: the Green-Algorithms normalizer *)

Module PreProcessFacts.
Import PreProcess.

#[local] Opaque all_cpus_threads.

Lemma get_select_rows mask (df : frame) k :
  Dict.get (select_rows mask df) k = option_map (select mask) (Dict.get df k).
Proof.
  induction df as [|[k0 c] df IH]; simpl; [reflexivity|].
  destruct (Str.eqb k0 k); auto.
Qed.

Lemma select_not_any col :
  select (map not_any (map VStr col)) (map VStr col) =
  map VStr (filter (fun s => negb (Str.eqb s (lit "Any"))) col).
Proof.
  induction col as [|s col IH]; simpl; [reflexivity|].
  destruct (Str.eqb s (lit "Any")); simpl; now rewrite IH.
Qed.

Lemma apply_manufacturer col :
  apply manufacturer_of (map VStr col) =
  Ok (map (fun s => VStr (inferred_manufacturer s)) col).
Proof.
  induction col as [|s col IH]; simpl; [reflexivity|]. now rewrite IH.
Qed.

Lemma apply_clean col :
  apply clean_value (map VStr col) = Ok (map VStr (map clean col)).
Proof.
  induction col as [|s col IH]; simpl; [reflexivity|]. now rewrite IH.
Qed.

Lemma apply_threads names :
  apply threads_of (map VStr names) =
  match thread_counts names with
  | Some ts => Ok (map VInt ts)
  | None => Raise KeyError
  end.
Proof.
  induction names as [|n names IH]; simpl; [reflexivity|].
  unfold Dict.getitem. destruct (Dict.get all_cpus_threads n); simpl; auto.
  rewrite IH. now destruct (thread_counts names).
Qed.

Lemma thread_counts_None names :
  thread_counts names = None <->
  exists n, In n names /\ Dict.get all_cpus_threads n = None.
Proof.
  induction names as [|n names IH]; simpl.
  - split; [discriminate|]. intros (n & [] & _).
  - destruct (Dict.get all_cpus_threads n) eqn:E.
    + destruct (thread_counts names).
      * split; [discriminate|]. intros (m & [<-|Hin] & Hm); [congruence|].
        destruct IH as [_ IH].
        assert (Hno : Some l = None) by (apply IH; eauto).
        discriminate Hno.
      * split; [|reflexivity]. intros _.
        destruct IH as [IH _]. destruct (IH eq_refl) as (m & Hin & Hm).
        eauto.
    + split; [|reflexivity]. eauto.
Qed.

(** The script on a frame whose model column holds strings: everything
    before the lookup goes through. *)
Lemma pre_process_unfold (df : frame) (col : list str) :
  Dict.get df (lit "model") = Some (map VStr col) ->
  let kept := filter (fun s => negb (Str.eqb s (lit "Any"))) col in
  let df1 := select_rows (map not_any (map VStr col)) df in
  let df2 := Dict.set df1 (lit "manufacturer")
               (map (fun s => VStr (inferred_manufacturer s)) kept) in
  let df3 := Dict.set df2 (lit "model") (map VStr (cleaned_names col)) in
  pre_process df =
  match thread_counts (cleaned_names col) with
  | Some ts => Ok (Dict.set df3 (lit "threads") (map VInt ts))
  | None => Raise KeyError
  end.
Proof.
  intros Hcol kept df1 df2 df3. unfold pre_process, Dict.getitem.
  rewrite Hcol. cbn [bind].
  fold df1. replace (Dict.get df1 (lit "model")) with (Some (map VStr kept))
    by (unfold df1; rewrite get_select_rows, Hcol; simpl;
        now rewrite select_not_any).
  cbn [bind]. rewrite apply_manufacturer. cbn [bind]. fold df2.
  replace (Dict.get df2 (lit "model")) with (Some (map VStr kept)).
  2:{ unfold df2. rewrite get_set_other by discriminate.
      unfold df1. rewrite get_select_rows, Hcol. simpl.
      now rewrite select_not_any. }
  cbn [bind]. rewrite apply_clean. cbn [bind].
  rewrite get_set_same. cbn [bind]. rewrite apply_threads.
  unfold df3, cleaned_names. fold kept.
  now destruct (thread_counts (map clean kept)).
Qed.

(** C8.  On a data set whose model column holds strings, the normalizer
    dies of a lookup error ([KeyError]), before it writes its output, if and
    only if some cleaned model name (over the rows other than the
    placeholder "Any": "AMD" removed, white space trimmed) is in neither
    thread-count table.  When every cleaned name is in a table it writes
    the frame with the cleaned model column, a [manufacturer] column and a
    [threads] column holding the tables' counts. *)
Theorem pre_process_lookup (df : frame) (col : list str) :
  Dict.get df (lit "model") = Some (map VStr col) ->
  (pre_process df = Raise KeyError <->
   exists n, In n (names_without_amd col) /\
             Dict.get all_cpus_threads n = None) /\
  ((forall n, In n (names_without_amd col) ->
              Dict.get all_cpus_threads n <> None) ->
   exists out threads,
     pre_process df = Ok out /\
     Dict.get out (lit "model") = Some (map VStr (names_without_amd col)) /\
     Dict.get out (lit "manufacturer") =
       Some (map (fun s => VStr (inferred_manufacturer s))
               (filter (fun s => negb (Str.eqb s (lit "Any"))) col)) /\
     Dict.get out (lit "threads") = Some (map VInt threads) /\
     map (Dict.get all_cpus_threads) (names_without_amd col)
     = map Some threads).
Proof.
  intros Hcol.
  assert (Hnames : names_without_amd col = cleaned_names col)
    by reflexivity.
  rewrite Hnames. clear Hnames.
  rewrite (pre_process_unfold df col Hcol). split.
  - rewrite <- thread_counts_None.
    destruct (thread_counts (cleaned_names col)); split; congruence.
  - intros Hall.
    destruct (thread_counts (cleaned_names col)) as [ts|] eqn:E.
    + exists (Dict.set
                (Dict.set
                   (Dict.set
                      (select_rows (map not_any (map VStr col)) df)
                      (lit "manufacturer")
                      (map (fun s => VStr (inferred_manufacturer s))
                         (filter (fun s => negb (Str.eqb s (lit "Any"))) col)))
                   (lit "model") (map VStr (cleaned_names col)))
                (lit "threads") (map VInt ts)), ts.
      split; [reflexivity|]. split; [|split; [|split]].
      * rewrite get_set_other by discriminate. apply get_set_same.
      * rewrite !get_set_other by discriminate. apply get_set_same.
      * apply get_set_same.
      * clear -E. revert ts E.
        induction (cleaned_names col) as [|n names IH]; simpl; intros ts E.
        -- now injection E as <-.
        -- destruct (Dict.get all_cpus_threads n); [|discriminate].
           destruct (thread_counts names); [|discriminate].
           injection E as <-. simpl. f_equal. now apply IH.
    + apply thread_counts_None in E. destruct E as (n & Hin & Hn).
      now apply Hall in Hin.
Qed.

End PreProcessFacts.

Lemma pre_process_lookup_witness :
  let col := [lit "Any"; lit "AMD Ryzen 5 3600"; lit "Xeon E5-2670"] in
  Dict.get Sample.frame_ok (lit "model") = Some (map PreProcess.VStr col) /\
  (PreProcess.pre_process Sample.frame_ok = Raise KeyError <->
   exists n, In n (names_without_amd col) /\
             Dict.get PreProcess.all_cpus_threads n = None) /\
  ((forall n, In n (names_without_amd col) ->
              Dict.get PreProcess.all_cpus_threads n <> None) ->
   exists out threads,
     PreProcess.pre_process Sample.frame_ok = Ok out /\
     Dict.get out (lit "model")
     = Some (map PreProcess.VStr (names_without_amd col)) /\
     Dict.get out (lit "manufacturer") =
       Some (map (fun s => PreProcess.VStr (inferred_manufacturer s))
               (filter (fun s => negb (Str.eqb s (lit "Any"))) col)) /\
     Dict.get out (lit "threads") = Some (map PreProcess.VInt threads) /\
     map (Dict.get PreProcess.all_cpus_threads) (names_without_amd col)
     = map Some threads).
Proof.
  intros col.
  assert (Hcol : Dict.get Sample.frame_ok (lit "model")
                 = Some (map PreProcess.VStr col)) by reflexivity.
  split; [exact Hcol|].
  exact (PreProcessFacts.pre_process_lookup Sample.frame_ok col Hcol).
Defined.

(** C8 without the strings fails.  In this data set the model cell of the
    last row is empty; every model name there is, cleaned, is in the
    tables.  The normalizer still dies before it writes, and not of a
    lookup error: line 10 tests ['Xeon' in x] on the float and raises
    [TypeError]. *)
Lemma model_cell_not_a_string :
  let df := Sample.frame_missing_model in
  option_map
    (forallb (fun x =>
       match x with
       | PreProcess.VStr s =>
           Str.eqb s (lit "Any") ||
           Dict.mem PreProcess.all_cpus_threads
             (strip (replace (lit "AMD") [] s))
       | _ => true
       end))
    (Dict.get df (lit "model"))
  = Some true /\
  PreProcess.pre_process df = Raise TypeError.
Proof. vm_compute. split; reflexivity. Qed.

(** The normalizer on the two sample frames: the first is written with its
    two new columns, the second dies of the lookup of "Ryzen 5 5600X". *)
Example pre_process_samples :
  PreProcess.pre_process Sample.frame_ok =
  Ok [ (lit "model",
        [PreProcess.VStr (lit "Ryzen 5 3600");
         PreProcess.VStr (lit "Xeon E5-2670")]);
       (lit "TDP", [PreProcess.VFloat 65; PreProcess.VFloat 115]);
       (lit "n_cores", [PreProcess.VInt 6; PreProcess.VInt 8]);
       (lit "manufacturer",
        [PreProcess.VStr (lit "AMD"); PreProcess.VStr (lit "Intel")]);
       (lit "threads", [PreProcess.VInt 12; PreProcess.VInt 16]) ] /\
  PreProcess.pre_process Sample.frame_unknown = Raise KeyError.
Proof. vm_compute. split; reflexivity. Qed.

(** ** C2: a malformed row *)

(** C2 fails for the Intel parser, where nothing is caught.  A TDP that
    [float] refuses ends the whole run with [ValueError] and no output is
    written; the same text in the AMD file costs one row and one message. *)
Example intel_malformed_row_ends_run :
  fst (merge (H := Reference.builtins) Sample.intel_bad_tdp)
  = Raise ValueError /\
  (exists text st,
     merge (H := Reference.builtins) Sample.amd_bad_tdp = (Ok text, st) /\
     console st =
       [RowError (zip_row amd_headers
                    [lit "AMD Ryzen 7 7840U"; lit "n/a"; lit "8"; lit "16"]
                    [])] /\
     Dict.mem (processors st) (lit "Ryzen 7 7840U") = false /\
     Dict.mem (processors st) (lit "Ryzen 9 7950X") = true).
Proof.
  split; [vm_compute; reflexivity|].
  eexists. eexists. split; [vm_compute; reflexivity|].
  vm_compute. repeat split; reflexivity.
Qed.

Section RowErrors.
Context `{Builtins}.

(** In the four DictReader parsers a row whose construction raises
    [ValueError] is reported and passed over, and the loop goes on: when no
    row raises anything else, the loop ends normally, having stored the
    record of every other row and printed one message per failing row, in
    the order of the rows. *)
Theorem row_errors_are_isolated
    (build : row -> result (option processor)) (rows : list row) (st : state) :
  (forall r e, In r rows -> build r = Raise e -> e = ValueError) ->
  exists st',
    for_rows build rows st = (Ok tt, st') /\
    processors st' =
      Dict.update (processors st) (flat_map (stored_for build) rows) /\
    console st' = console st ++ flat_map (printed_for build) rows.
Proof.
  revert st. induction rows as [|r rows IH]; intros st Honly; simpl.
  - exists st. now rewrite app_nil_r.
  - assert (Hrest : forall r' e, In r' rows -> build r' = Raise e ->
                                 e = ValueError)
      by (intros; eapply Honly; [right|]; eassumption).
    unfold stored_for, printed_for.
    destruct (build r) as [[p|]|e] eqn:E.
    + destruct (IH (store p st) Hrest) as (st' & Hrun & Hp & Hc).
      exists st'. auto.
    + destruct (IH st Hrest) as (st' & Hrun & Hp & Hc). exists st'. auto.
    + assert (e = ValueError) by (eapply Honly; [left; reflexivity|exact E]).
      subst e.
      destruct (IH (print (RowError r) st) Hrest) as (st' & Hrun & Hp & Hc).
      exists st'. repeat split; auto.
      rewrite Hc. simpl. now rewrite <- app_assoc.
Qed.

End RowErrors.

(** ** C4: a missing input *)

(** A missing file of a DictReader parser is reported; the mapping stays as
    it is and the parser ends normally. *)
Theorem missing_file_is_reported
    (headers : list str) (build : row -> result (option processor))
    (fs : files) (path : str) (st : state) :
  csv_at fs path = None ->
  read_and_process headers build fs path st
  = (Ok tt, {| processors := processors st;
               console := console st ++ [FileNotFound path] |}).
Proof.
  intros Hnone. unfold read_and_process, open. now rewrite Hnone.
Qed.

Section MissingDirectory.
Context `{Builtins}.

(** The Intel parser catches nothing: a missing directory raises
    [FileNotFoundError] out of the parser. *)
Lemma missing_directory_raises (fs : files) (root : str) (st : state) :
  dir_at fs root = None ->
  read_and_process_intel fs root st = (Raise FileNotFoundError, st).
Proof.
  intros Hnone. unfold read_and_process_intel, listdir. now rewrite Hnone.
Qed.

End MissingDirectory.

(** C4 fails for the Intel source.  Without the directory "Intel" the run
    dies of [FileNotFoundError]: no output is written and the
    Green-Algorithms file is never read.  Without the AMD file the run goes
    on and writes its output. *)
Example missing_intel_directory_ends_run :
  fst (merge (H := Reference.builtins) Sample.without_intel)
  = Raise FileNotFoundError /\
  (exists text st,
     merge (H := Reference.builtins) Sample.without_amd = (Ok text, st) /\
     console st = [FileNotFound amd_path]).
Proof.
  split; [vm_compute; reflexivity|].
  eexists. eexists. split; vm_compute; reflexivity.
Qed.

Lemma row_errors_are_isolated_witness :
  let build := amd_processor (H := Reference.builtins) in
  let rows := dict_rows
                [ amd_headers;
                  [lit "AMD Ryzen 5 3600"; lit "65W"; lit "6"; lit "12"];
                  [lit "AMD Ryzen 7 7840U"; lit "n/a"; lit "8"; lit "16"];
                  [lit "AMD Ryzen 9 7950X"; lit "170W"; lit "16"; lit "32"] ] in
  (forall r e, In r rows -> build r = Raise e -> e = ValueError) /\
  exists st',
    for_rows build rows initial = (Ok tt, st') /\
    processors st' =
      Dict.update (processors initial) (flat_map (stored_for build) rows) /\
    console st' = console initial ++ flat_map (printed_for build) rows.
Proof.
  intros build rows.
  assert (Honly : forall r e, In r rows -> build r = Raise e -> e = ValueError).
  { intros r e [<-|[<-|[<-|[]]]]; vm_compute; congruence. }
  split; [exact Honly|].
  exact (row_errors_are_isolated build rows initial Honly).
Defined.

Lemma missing_file_is_reported_witness :
  csv_at Sample.without_amd amd_path = None /\
  read_and_process amd_headers (amd_processor (H := Reference.builtins))
    Sample.without_amd amd_path initial
  = (Ok tt, {| processors := processors initial;
               console := console initial ++ [FileNotFound amd_path] |}).
Proof.
  assert (Hnone : csv_at Sample.without_amd amd_path = None)
    by (vm_compute; reflexivity).
  split; [exact Hnone|].
  exact (missing_file_is_reported amd_headers
           (amd_processor (H := Reference.builtins))
           Sample.without_amd amd_path initial Hnone).
Defined.

(** The Intel column of the specification's example: TDP "95W", 8 cores,
    16 threads give a TDP per core of 11.875. *)
Example intel_core_i7 :
  option_map (fun p => (model p, tdp p, n_cores p, n_threads p, tdp_per_core p))
    (Dict.get
       (contribution (read_and_process_intel (H := Reference.builtins)
                        Sample.complete intel_path))
       (lit "Core" ++ trademark ++ lit " i7-9700K Processor"))
  = Some (lit "Core" ++ trademark ++ lit " i7-9700K Processor",
          95%float, 8%Z, 16%Z, Float (95 / 8)).
Proof. vm_compute. reflexivity. Qed.

(** Two inputs outside the cases above.  A file with no row at all has no
    field names, and the header check itself raises [TypeError]; a line cut
    short leaves [None] in its last columns, and the method call on it
    raises [AttributeError].  Neither is caught: the run ends. *)
Example empty_file_and_short_row :
  fst (merge (H := Reference.builtins)
         (Sample.files_of [(amd_path, [])] [(intel_path, [])]))
  = Raise TypeError /\
  fst (merge (H := Reference.builtins)
         (Sample.files_of
            [(amd_path, [amd_headers; [lit "AMD Ryzen 5 3600"; lit "65W"]])]
            [(intel_path, [])]))
  = Raise AttributeError.
Proof. vm_compute. split; reflexivity. Qed.

(* ================================================================== *)
(** * Further properties of the code *)

(** ** What every parser keeps

    A property of the state that each assignment of a built record and each
    printed message keeps is kept by every parser and by the whole run,
    whether the run ends normally or not. *)

Section Kept.
Context `{Builtins}.
Variable I : state -> Prop.
Variable Q : processor -> Prop.
Hypothesis I_store : forall p st, Q p -> I st -> I (store p st).
Hypothesis I_print : forall m st, I st -> I (print m st).

Lemma for_rows_keeps build rows st :
  (forall r p, build r = Ok (Some p) -> Q p) ->
  I st -> I (snd (for_rows build rows st)).
Proof.
  intros Hq. revert st. induction rows as [|r rows IH]; intros st Hst; simpl.
  - exact Hst.
  - destruct (build r) as [[p|]|e] eqn:E.
    + apply IH. apply I_store; eauto.
    + now apply IH.
    + destruct e; simpl; auto.
Qed.

Lemma file_handlers_keeps path e st :
  I st -> I (snd (file_handlers path e st)).
Proof. intros Hst. destruct e; simpl; auto. Qed.

Lemma read_and_process_keeps headers build fs path st :
  (forall r p, build r = Ok (Some p) -> Q p) ->
  I st -> I (snd (read_and_process headers build fs path st)).
Proof.
  intros Hq Hst. unfold read_and_process.
  destruct (open fs path) as [rows|e]; [|now apply file_handlers_keeps].
  destruct (check_headers headers (fieldnames rows)) as [u|e];
    [|now apply file_handlers_keeps].
  pose proof (@for_rows_keeps build (dict_rows rows) st Hq Hst) as Hrun.
  destruct (for_rows build (dict_rows rows) st) as [[u'|e] st']; simpl in *;
    auto using file_handlers_keeps.
Qed.

Lemma intel_items_keeps items tdp_var st :
  (forall name d v v' p, intel_processor name d v = Ok (v', Some p) -> Q p) ->
  I st -> I (snd (intel_items items tdp_var st)).
Proof.
  intros Hq. revert tdp_var st.
  induction items as [|[name d] items IH]; intros tdp_var st Hst; simpl.
  - exact Hst.
  - destruct (intel_processor name d tdp_var) as [[v [p|]]|e] eqn:E;
      simpl; auto.
    apply IH. apply I_store; eauto.
Qed.

Lemma intel_files_keeps fs root names tdp_var st :
  (forall name d v v' p, intel_processor name d v = Ok (v', Some p) -> Q p) ->
  I st -> I (snd (intel_files fs root names tdp_var st)).
Proof.
  intros Hq. revert tdp_var st.
  induction names as [|file names IH]; intros tdp_var st Hst; simpl.
  - exact Hst.
  - destruct (rows <- open fs (path_join root file);; intel_table rows)
      as [data|e]; simpl; auto.
    pose proof (@intel_items_keeps data tdp_var st Hq Hst) as Hrun.
    destruct (intel_items data tdp_var st) as [[v|e] st']; simpl in *; auto.
Qed.

Lemma read_and_process_intel_keeps fs root st :
  (forall name d v v' p, intel_processor name d v = Ok (v', Some p) -> Q p) ->
  I st -> I (snd (read_and_process_intel fs root st)).
Proof.
  intros Hq Hst. unfold read_and_process_intel.
  destruct (listdir fs root) as [names|e]; simpl; auto.
  now apply intel_files_keeps.
Qed.

Lemma seq_keeps (s1 s2 : stmt) st :
  (forall st, I st -> I (snd (s1 st))) ->
  (forall st, I st -> I (snd (s2 st))) ->
  I st -> I (snd (seq s1 s2 st)).
Proof.
  intros H1 H2 Hst. unfold seq. specialize (H1 st Hst).
  destruct (s1 st) as [[u|e] st']; simpl in *; auto.
Qed.

Hypothesis Q_built : forall c p, construct c = Ok (Some p) -> Q p.

Lemma Q_intel name d v v' p :
  intel_processor name d v = Ok (v', Some p) -> Q p.
Proof.
  intros E. apply (Q_built (ByIntel name d v)). simpl. now rewrite E.
Qed.

Lemma source_keeps fs s st : In s (sources fs) -> I st -> I (snd (s st)).
Proof.
  unfold sources. simpl.
  intros [<-|[<-|[<-|[<-|[<-|[]]]]]] Hst.
  - apply read_and_process_keeps; auto. intros r. apply (Q_built (ByAmd r)).
  - apply read_and_process_keeps; auto.
    intros r. apply (Q_built (ByAmpereAltra r)).
  - apply read_and_process_keeps; auto.
    intros r. apply (Q_built (ByAmpereOne r)).
  - apply read_and_process_intel_keeps; auto. exact Q_intel.
  - apply read_and_process_keeps; auto.
    intros r. apply (Q_built (ByGreenAlgorithms r)).
Qed.

Lemma read_all_keeps fs st : I st -> I (snd (read_all fs st)).
Proof.
  intros Hst. unfold read_all.
  repeat (apply seq_keeps; [| |assumption]; intros);
    eapply source_keeps; eauto; unfold sources; simpl; tauto.
Qed.

End Kept.

(** ** The entries of the shared mapping *)

Lemma In_set {V} (d : Dict.dict V) k v k' v' :
  In (k', v') (Dict.set d k v) -> (k', v') = (k, v) \/ In (k', v') d.
Proof.
  induction d as [|[k0 v0] d IH]; simpl.
  - intros [E|[]]. left. congruence.
  - destruct (Str.eqb k0 k) eqn:E; simpl.
    + apply str_eqb_eq in E. subst k0.
      intros [E'|Hin]; [left|right; right]; congruence.
    + intros [E'|Hin]; [right; left; exact E'|].
      destruct (IH Hin); auto.
Qed.

Lemma get_In {V} (d : Dict.dict V) k v : Dict.get d k = Some v -> In (k, v) d.
Proof.
  induction d as [|[k0 v0] d IH]; simpl; [discriminate|].
  destruct (Str.eqb k0 k) eqn:E.
  - apply str_eqb_eq in E. intros [= ->]. left. congruence.
  - auto.
Qed.

Lemma keys_set_app {V} (d : Dict.dict V) k v :
  exists new, Dict.keys (Dict.set d k v) = Dict.keys d ++ new.
Proof.
  induction d as [|[k0 v0] d IH]; simpl.
  - now exists [k].
  - destruct (Str.eqb k0 k); simpl.
    + exists []. now rewrite app_nil_r.
    + destruct IH as [new ->]. now exists new.
Qed.

Section Entries.
Context `{Builtins}.

(** At the end of the run, and when the run dies, every entry of the
    shared mapping is a record one of the five parsers built, stored whole
    under its own model name: nothing changes a record once it is built. *)
Theorem entries_are_built_records (fs : files) (k : str) (p : processor) :
  In (k, p) (processors (snd (read_all fs initial))) ->
  k = model p /\ exists c, construct c = Ok (Some p).
Proof.
  revert k p.
  apply (@read_all_keeps _
           (fun st => forall k p, In (k, p) (processors st) ->
                        k = model p /\ exists c, construct c = Ok (Some p))
           (fun p => exists c, construct c = Ok (Some p))).
  - intros q st Hq Hst k p Hin. simpl in Hin.
    apply In_set in Hin. destruct Hin as [[= -> ->]|Hin]; auto.
  - intros m st Hst. exact Hst.
  - eauto.
  - intros k p [].
Qed.

(** No parser removes or moves an entry of the mapping, or a message: after
    each source, and after the whole run, the keys the mapping had come
    first, in their order, and the console starts with what it held.  So a
    record that replaces an earlier one takes the earlier one's place in
    the output. *)
Theorem mapping_only_grows (fs : files) (st : state) :
  (forall s, In s (sources fs) -> grows st (snd (s st))) /\
  grows st (snd (read_all fs st)).
Proof.
  assert (Hstore : forall (p : processor) st',
             True -> grows st st' -> grows st (store p st')).
  { intros p st' _ [[new Hk] Hc]. split; [|exact Hc]. simpl.
    destruct (keys_set_app (processors st') (model p) p) as [new' ->].
    exists (new ++ new'). now rewrite Hk, app_assoc. }
  assert (Hprint : forall m st', grows st st' -> grows st (print m st')).
  { intros m st' [Hk [msgs Hc]]. split; [exact Hk|]. simpl.
    exists (msgs ++ [m]). now rewrite Hc, app_assoc. }
  assert (Hinit : grows st st).
  { split; exists []; now rewrite app_nil_r. }
  split.
  - intros s Hs.
    apply (@source_keeps _ (grows st) (fun _ => True) Hstore Hprint
             (fun _ _ _ => I) fs s st Hs Hinit).
  - apply (@read_all_keeps _ (grows st) (fun _ => True) Hstore Hprint
             (fun _ _ _ => I) fs st Hinit).
Qed.

End Entries.

Lemma entries_are_built_records_witness :
  let st := snd (read_all (H := Reference.builtins) Sample.complete initial) in
  let k := lit "AmpereAltra Q80-30" in
  match Dict.get (processors st) k with
  | Some p =>
      In (k, p) (processors st) /\
      (k = model p /\
       exists c, construct (H := Reference.builtins) c = Ok (Some p))
  | None => False
  end.
Proof.
  intros st k. destruct (Dict.get (processors st) k) as [p|] eqn:Hp.
  - apply get_In in Hp. split; [exact Hp|].
    exact (entries_are_built_records (H := Reference.builtins)
             Sample.complete k p Hp).
  - vm_compute in Hp. discriminate Hp.
Defined.

(** ** What can end a DictReader parser *)

Lemma keys_fold_None names (d : row) h :
  In h (Dict.keys (fold_left (fun d n => Dict.set d n None) names d)) <->
  In h names \/ In h (Dict.keys d).
Proof.
  revert d. induction names as [|n names IH]; simpl; intros d; [tauto|].
  rewrite IH, keys_set_In. intuition.
Qed.

Lemma keys_zip_row names cells (d : row) h :
  In h (Dict.keys (zip_row names cells d)) <->
  In h names \/ In h (Dict.keys d).
Proof.
  revert cells d. induction names as [|n names IH]; intros cells d.
  - destruct cells; simpl; tauto.
  - destruct cells as [|c cells].
    + apply (keys_fold_None (n :: names)).
    + simpl. rewrite IH, keys_set_In. intuition.
Qed.

(** A line with a cell for every column leaves no [None] in its row. *)
Lemma zip_row_no_None names cells (d : row) :
  (List.length names <= List.length cells)%nat ->
  (forall k, Dict.get d k <> Some None) ->
  forall k, Dict.get (zip_row names cells d) k <> Some None.
Proof.
  revert cells d. induction names as [|n names IH]; intros cells d Hlen Hd.
  - destruct cells; exact Hd.
  - destruct cells as [|c cells]; simpl in Hlen; [lia|]. simpl.
    apply IH; [lia|]. intros k.
    destruct (list_eq_dec N.eq_dec n k) as [->|Hne].
    + rewrite get_set_same. discriminate.
    + rewrite get_set_other by assumption. apply Hd.
Qed.

Lemma in_list_In h names : in_list h names = true -> In h names.
Proof.
  unfold in_list. rewrite existsb_exists. intros (x & Hin & Heq).
  apply str_eqb_eq in Heq. now subst.
Qed.

Lemma check_headers_Ok headers names u :
  check_headers headers (Some names) = Ok u ->
  forall h, In h headers -> In h names.
Proof.
  induction headers as [|h0 headers IH]; simpl; [tauto|].
  destruct (in_list h0 names) eqn:E; [|discriminate].
  intros Hok h [<-|Hin]; auto using in_list_In.
Qed.

Lemma check_headers_Raise headers names e :
  check_headers headers names = Raise e ->
  (e = TypeError /\ names = None) \/ e = ValueError.
Proof.
  induction headers as [|h0 headers IH]; simpl; [discriminate|].
  destruct names as [ns|]; [|intros [= <-]; auto].
  destruct (in_list h0 ns); [exact IH|]. intros [= <-]. auto.
Qed.

(** Under a column the row has, [row[k]] can only fail as a method call on
    [None]. *)
Lemma cell_present_Raise (r : row) k e :
  In k (Dict.keys r) -> cell r k = Raise e ->
  e = AttributeError /\ Dict.get r k = Some None.
Proof.
  intros Hin. unfold cell, Dict.getitem.
  destruct (Dict.get r k) as [[s|]|] eqn:E; simpl.
  - discriminate.
  - intros [= <-]. auto.
  - apply get_None_keys in E. tauto.
Qed.

Lemma split_two c s :
  In c s -> exists a b rest, split c s = a :: b :: rest.
Proof.
  induction s as [|x s IH]; simpl; [tauto|]. unfold char_eqb.
  destruct (N.eqb_spec x c) as [->|Hne].
  - intros _. destruct s as [|y s]; simpl; [now exists [], [], []|].
    destruct (char_eqb y c); [now eexists _, _, _|].
    destruct (split c s); now eexists _, _, _.
  - intros [->|Hin]; [tauto|]. destruct (IH Hin) as (a & b & rest & ->).
    now eexists _, _, _.
Qed.

(** What a record construction of a DictReader parser can end in when the
    row has every required column. *)
Definition row_escape (r : row) (e : exn) : Prop :=
  e = ValueError \/ e = OverflowError \/
  (e = AttributeError /\ exists h, Dict.get r h = Some None).

Ltac row_raise Hfull H :=
  repeat match type of H with
         | bind _ _ = Raise _ =>
             let a := fresh "a" in
             let E := fresh "E" in
             apply bind_Raise in H; destruct H as [H|(a & E & H)]
         | (if ?c then _ else _) = Raise _ => destruct c
         | Ok _ = Raise _ => discriminate H
         end;
  unfold row_escape;
  first
    [ apply cell_present_Raise in H;
      [ destruct H as [-> H]; right; right; eauto
      | apply Hfull; simpl; tauto ]
    | apply or_value_error_Raise in H; tauto
    | apply int_of_float_Raise in H; tauto
    | apply per_unit_Raise in H; tauto
    | idtac ].

Section Escapes.
Context `{Builtins}.

Lemma amd_tdp_Raise_value s e : amd_tdp s = Raise e -> e = ValueError.
Proof.
  unfold amd_tdp, float_.
  destruct (contains (lit "-") s) eqn:C;
    [|now apply or_value_error_Raise].
  apply contains_char_In in C.
  destruct (split_two 45%N s C) as (a & b & rest & ->). simpl.
  destruct (float_of_str a); simpl; [|congruence].
  destruct (float_of_str b); simpl; congruence.
Qed.

Lemma amd_processor_escape r e :
  (forall h, In h amd_headers -> In h (Dict.keys r)) ->
  amd_processor r = Raise e -> row_escape r e.
Proof.
  intros Hfull Hr. unfold amd_processor, int_ in Hr. row_raise Hfull Hr.
  apply amd_tdp_Raise_value in Hr. tauto.
Qed.

Lemma ampere_altra_processor_escape r e :
  (forall h, In h ampere_altra_headers -> In h (Dict.keys r)) ->
  ampere_altra_processor r = Raise e -> row_escape r e.
Proof.
  intros Hfull Hr. unfold ampere_altra_processor, float_ in Hr.
  row_raise Hfull Hr.
Qed.

Lemma ampere_one_processor_escape r e :
  (forall h, In h ampere_one_headers -> In h (Dict.keys r)) ->
  ampere_one_processor r = Raise e -> row_escape r e.
Proof.
  intros Hfull Hr. unfold ampere_one_processor, float_, int_ in Hr.
  row_raise Hfull Hr.
Qed.

Lemma green_algorithms_processor_escape r e :
  (forall h, In h green_algorithms_headers -> In h (Dict.keys r)) ->
  green_algorithms_processor r = Raise e -> row_escape r e.
Proof.
  intros Hfull Hr. unfold green_algorithms_processor, float_, int_ in Hr.
  row_raise Hfull Hr.
Qed.

End Escapes.

Lemma for_rows_Raise build rows st e :
  fst (for_rows build rows st) = Raise e ->
  exists r, In r rows /\ build r = Raise e /\ e <> ValueError.
Proof.
  revert st. induction rows as [|r rows IH]; intros st; simpl; [discriminate|].
  destruct (build r) as [[p|]|e'] eqn:E.
  - intros Hr. destruct (IH _ Hr) as (r' & ? & ? & ?). eauto.
  - intros Hr. destruct (IH _ Hr) as (r' & ? & ? & ?). eauto.
  - destruct e'; simpl;
      try (intros [= <-]; exists r; repeat split; auto; discriminate).
    intros Hr. destruct (IH _ Hr) as (r' & ? & ? & ?). eauto.
Qed.

(** The outer [try] lets through neither [ValueError] nor
    [FileNotFoundError]: what leaves the parser is the [TypeError] of a
    file without a row, or what a row construction raised. *)
Lemma read_and_process_Raise headers build fs path st e :
  fst (read_and_process headers build fs path st) = Raise e ->
  (e = TypeError /\ csv_at fs path = Some []) \/
  (exists names body r,
      csv_at fs path = Some (names :: body) /\
      (forall h, In h headers -> In h names) /\
      In r (dict_rows (names :: body)) /\
      build r = Raise e /\ e <> ValueError /\ e <> FileNotFoundError).
Proof.
  unfold read_and_process, open.
  destruct (csv_at fs path) as [rows|] eqn:Hfile; [|discriminate].
  destruct (check_headers headers (fieldnames rows)) as [u|e'] eqn:Hcheck.
  - destruct (for_rows build (dict_rows rows) st) as [[u'|e'] st'] eqn:Hrun;
      [discriminate|].
    pose proof (for_rows_Raise build (dict_rows rows) st) as Hr.
    rewrite Hrun in Hr. destruct (Hr e' eq_refl) as (r & Hin & Hb & Hne).
    destruct rows as [|names body]; [destruct Hin|].
    intros Hout.
    assert (e' <> FileNotFoundError /\ e' = e) as [Hnf <-].
    { destruct e'; simpl in Hout; try discriminate Hout;
        try (now elim Hne); split; congruence. }
    right. exists names, body, r. repeat split; auto.
    exact (@check_headers_Ok headers names u Hcheck).
  - apply check_headers_Raise in Hcheck.
    destruct Hcheck as [[-> Hnone]| ->]; simpl; [|discriminate].
    intros [= <-]. left. split; auto.
    destruct rows; [reflexivity|discriminate].
Qed.

Lemma dict_rows_row names body r :
  In r (dict_rows (names :: body)) ->
  exists line, In line body /\ line <> [] /\ r = zip_row names line [].
Proof.
  simpl. rewrite in_map_iff. intros (line & <- & Hin).
  apply filter_In in Hin. destruct Hin as [Hin Hnb].
  exists line. repeat split; auto. now destruct line.
Qed.

Lemma read_and_process_escapes headers build fs path st e :
  (forall r e, (forall h, In h headers -> In h (Dict.keys r)) ->
               build r = Raise e -> row_escape r e) ->
  fst (read_and_process headers build fs path st) = Raise e ->
  (e = TypeError /\ csv_at fs path = Some []) \/
  (e = AttributeError /\
   exists names body line,
     csv_at fs path = Some (names :: body) /\ In line body /\ line <> [] /\
     (List.length line < List.length names)%nat) \/
  e = OverflowError.
Proof.
  intros Hesc Hrun. apply read_and_process_Raise in Hrun.
  destruct Hrun as [Hempty|(names & body & r & Hfile & Hhead & Hin & Hb & Hne & _)];
    [now left|right].
  apply dict_rows_row in Hin. destruct Hin as (line & Hin & Hnb & ->).
  apply Hesc in Hb.
  - destruct Hb as [->|[->|[-> (h & Hnone)]]]; [tauto|now right|left].
    split; [reflexivity|]. exists names, body, line. repeat split; auto.
    destruct (le_lt_dec (List.length names) (List.length line)) as [Hle|Hlt];
      [|exact Hlt].
    exfalso. revert Hnone. apply zip_row_no_None; [exact Hle|].
    intros k. discriminate.
  - intros h Hh. apply keys_zip_row. left. now apply Hhead.
Qed.

Section DictReaderEscapes.
Context `{Builtins}.

(** What the rows of a file can make one of the four DictReader parsers
    (AMD, Ampere Altra, Ampere One, Green-Algorithms) raise.  The file is
    one that [open] and the csv module have delivered as the rows [rows];
    what opening and reading can raise themselves is not the subject.  The
    two [try] blocks let through no [ValueError], a required column is
    never missing from a row once the header check has passed, and the
    range code never indexes past its pieces.  What is left: [TypeError],
    only where there is no row at all; [AttributeError], only where some
    line has fewer cells than the header row; and [OverflowError], from a
    count too large for a float or infinite. *)
Theorem dictreader_rows_escapes
    (headers : list str) (parser : files -> str -> stmt)
    (fs : files) (path : str) (rows : csv_rows) (st : state) (e : exn) :
  In (headers, parser) header_checking ->
  csv_at fs path = Some rows ->
  fst (parser fs path st) = Raise e ->
  (e = TypeError /\ rows = []) \/
  (e = AttributeError /\
   exists names body line,
     rows = names :: body /\ In line body /\ line <> [] /\
     (List.length line < List.length names)%nat) \/
  e = OverflowError.
Proof.
  intros Hp Hfile Hr.
  assert (Hesc :
    (e = TypeError /\ csv_at fs path = Some []) \/
    (e = AttributeError /\
     exists names body line,
       csv_at fs path = Some (names :: body) /\ In line body /\
       line <> [] /\ (List.length line < List.length names)%nat) \/
    e = OverflowError).
  { revert Hr. unfold header_checking in Hp. simpl in Hp.
    destruct Hp as [Hp|[Hp|[Hp|[Hp|[]]]]]; injection Hp as <- <-;
      apply read_and_process_escapes.
    - exact amd_processor_escape.
    - exact ampere_altra_processor_escape.
    - exact ampere_one_processor_escape.
    - exact green_algorithms_processor_escape. }
  rewrite Hfile in Hesc.
  destruct Hesc as [[-> Hrows]|[[-> (names & body & line & Hrows & Hl)]|Hesc]].
  - left. split; [reflexivity|]. now injection Hrows.
  - right. left. split; [reflexivity|].
    exists names, body, line. split; [now injection Hrows|exact Hl].
  - right. right. exact Hesc.
Qed.

End DictReaderEscapes.

Lemma dictreader_rows_escapes_witness :
  let rows := [amd_headers; [lit "AMD Ryzen 5 3600"; lit "65W"]] in
  let fs := Sample.files_of [(amd_path, rows)] [] in
  (In (amd_headers, read_and_process_amd (H := Reference.builtins))
      (header_checking (H := Reference.builtins)) /\
   csv_at fs amd_path = Some rows /\
   fst (read_and_process_amd (H := Reference.builtins) fs amd_path initial)
   = Raise AttributeError) /\
  ((AttributeError = TypeError /\ rows = []) \/
   (AttributeError = AttributeError /\
    exists names body line,
      rows = names :: body /\ In line body /\
      line <> [] /\ (List.length line < List.length names)%nat) \/
   AttributeError = OverflowError).
Proof.
  intros rows fs.
  assert (H1 : In (amd_headers, read_and_process_amd (H := Reference.builtins))
                 (header_checking (H := Reference.builtins)))
    by (left; reflexivity).
  assert (H2 : csv_at fs amd_path = Some rows) by reflexivity.
  assert (H3 : fst (read_and_process_amd (H := Reference.builtins)
                      fs amd_path initial) = Raise AttributeError)
    by (vm_compute; reflexivity).
  split; [repeat split; assumption|].
  exact (@dictreader_rows_escapes Reference.builtins amd_headers
           (read_and_process_amd (H := Reference.builtins))
           fs amd_path rows initial AttributeError H1 H2 H3).
Defined.

(** ** Model names as stored *)

Lemma lstrip_clean_head s : clean_head (lstrip s).
Proof.
  induction s as [|c s IH]; simpl; [exact I|].
  destruct (isspace c) eqn:E; simpl; auto.
Qed.

Lemma lstrip_snoc l c :
  isspace c = false -> lstrip (l ++ [c]) = lstrip l ++ [c].
Proof.
  intros Hc. induction l as [|x l IH]; simpl.
  - now rewrite Hc.
  - destruct (isspace x); auto.
Qed.

Lemma rstrip_clean_head s : clean_head s -> clean_head (rstrip s).
Proof.
  unfold rstrip. destruct s as [|c s]; simpl; [auto|]. intros Hc.
  rewrite lstrip_snoc by assumption. rewrite rev_app_distr. exact Hc.
Qed.

Lemma strip_trimmed s : trimmed (strip s).
Proof.
  unfold trimmed, strip. split.
  - apply rstrip_clean_head, lstrip_clean_head.
  - unfold rstrip. rewrite rev_involutive. apply lstrip_clean_head.
Qed.

Lemma clean_head_lstrip s : clean_head s -> lstrip s = s.
Proof. destruct s as [|c s]; simpl; auto. now intros ->. Qed.

(** Trimming a trimmed string changes nothing. *)
Lemma trimmed_strip s : trimmed s -> strip s = s.
Proof.
  intros [Hh Ht]. unfold strip, rstrip.
  rewrite (clean_head_lstrip s Hh), (clean_head_lstrip (rev s) Ht).
  apply rev_involutive.
Qed.

(** Where a pattern does not occur, [replace] changes nothing. *)
Lemma replace_absent old new s :
  old <> [] -> contains old s = false -> replace old new s = s.
Proof.
  intros Hold. unfold replace. destruct old as [|o old]; [congruence|].
  induction s as [|c s IH]; [reflexivity|].
  intros Hc. simpl in Hc. apply orb_false_elim in Hc. destruct Hc as [Hs Hc].
  simpl. simpl in Hs. rewrite Hs. f_equal. auto.
Qed.

Section StoredNames.
Context `{Builtins}.

(** How each parser derives the model name it stores a record under.  The
    AMD, Ampere One, Intel and Green-Algorithms names are trimmed (no white
    space at either end, so trimming one again changes nothing).  An Ampere
    Altra name is "AmpereAltra " followed by the trimmed content of the
    row's "PRODUCT NAME" cell; where that content is blank the name is
    "AmpereAltra " alone and ends in a blank. *)
Theorem stored_names_are_trimmed (c : construction) (p : processor) :
  construct c = Ok (Some p) ->
  match c with
  | ByAmpereAltra r =>
      exists name,
        cell r (lit "PRODUCT NAME") = Ok name /\
        model p = lit "AmpereAltra " ++ strip name /\
        trimmed (strip name) /\
        (strip name = [] ->
         model p = lit "AmpereAltra " /\ ~ trimmed (model p))
  | _ => trimmed (model p) /\ strip (model p) = model p
  end.
Proof.
  intros Hp. destruct c as [r|r|r|name d v|r]; simpl in Hp.
  - unfold amd_processor in Hp. chain_ok Hp. subst p. simpl.
    split; [|apply trimmed_strip]; apply strip_trimmed.
  - unfold ampere_altra_processor in Hp. chain_ok Hp. subst p.
    cbn [model].
    eexists. split; [eassumption|]. split; [reflexivity|].
    split; [apply strip_trimmed|].
    intros Hblank. rewrite Hblank. split; [reflexivity|].
    intros [_ Hend]. vm_compute in Hend. discriminate Hend.
  - unfold ampere_one_processor in Hp. chain_ok Hp. subst p. simpl.
    split; [|apply trimmed_strip]; apply strip_trimmed.
  - destruct (intel_processor name d v) as [[v' p']|e] eqn:E; [|discriminate].
    injection Hp as ->. unfold intel_processor in E.
    apply bind_Ok in E. destruct E as (w & _ & E).
    destruct w as [[[|ch s]|x]|]; try discriminate;
      chain_ok E; intros; subst; simpl;
      (split; [|apply trimmed_strip]; apply strip_trimmed).
  - unfold green_algorithms_processor in Hp. chain_ok Hp. subst p. simpl.
    split; [|apply trimmed_strip]; apply strip_trimmed.
Qed.

(** A name without the decorations a parser removes is stored as it is,
    only trimmed: for AMD a name holding neither "AMD" nor a trade mark
    sign, for Ampere One a name holding no registered sign, for Intel a
    name holding neither "Intel" nor a registered sign. *)
Theorem undecorated_name_is_kept :
  (forall r name p,
      cell r (lit "Name") = Ok name ->
      contains (lit "AMD") name = false ->
      contains trademark name = false ->
      amd_processor r = Ok (Some p) -> model p = strip name) /\
  (forall r name p,
      cell r (lit "Processor Model") = Ok name ->
      contains registered name = false ->
      ampere_one_processor r = Ok (Some p) -> model p = strip name) /\
  (forall name d v v' p,
      contains (lit "Intel") name = false ->
      contains registered name = false ->
      intel_processor name d v = Ok (v', Some p) -> model p = strip name).
Proof.
  assert (Hamd_ne : lit "AMD" <> []) by discriminate.
  assert (Hintel_ne : lit "Intel" <> []) by discriminate.
  assert (Htm_ne : trademark <> []) by discriminate.
  assert (Hreg_ne : registered <> []) by discriminate.
  repeat split.
  - intros r name p Hname Hamd Htm Hp.
    unfold amd_processor in Hp. chain_ok Hp. subst p. cbn [model].
    rewrite Hname in E. injection E as <-.
    transitivity (strip (replace trademark [] (replace (lit "AMD") [] name)));
      [reflexivity|].
    rewrite (@replace_absent (lit "AMD") [] name Hamd_ne Hamd).
    now rewrite (@replace_absent trademark [] name Htm_ne Htm).
  - intros r name p Hname Hreg Hp.
    unfold ampere_one_processor in Hp. chain_ok Hp. subst p. cbn [model].
    rewrite Hname in E. injection E as <-.
    transitivity (strip (replace registered [] name)); [reflexivity|].
    now rewrite (@replace_absent registered [] name Hreg_ne Hreg).
  - intros name d v v' p Hintel Hreg Hp. unfold intel_processor in Hp.
    apply bind_Ok in Hp. destruct Hp as (w & _ & Hp).
    destruct w as [[[|ch s]|x]|]; try discriminate;
      chain_ok Hp; intros; subst; cbn [model];
      (transitivity
         (strip (replace registered [] (replace (lit "Intel") [] name)));
       [reflexivity|]);
      rewrite (@replace_absent (lit "Intel") [] name Hintel_ne Hintel);
      now rewrite (@replace_absent registered [] name Hreg_ne Hreg).
Qed.

(** The Ampere files report no thread count: both Ampere parsers take the
    core count for it, so a record of theirs has [n_threads = n_cores] and
    the same TDP per thread as per core. *)
Theorem ampere_threads_are_cores (r : row) (p : processor) :
  ampere_altra_processor r = Ok (Some p) \/
  ampere_one_processor r = Ok (Some p) ->
  n_threads p = n_cores p /\
  tdp_per_thread p = tdp_per_core p /\
  manufacturer p = lit "Ampere".
Proof.
  intros [Hp|Hp].
  - unfold ampere_altra_processor in Hp. chain_ok Hp. subst p. simpl.
    repeat split. congruence.
  - unfold ampere_one_processor in Hp. chain_ok Hp. subst p. simpl.
    repeat split. congruence.
Qed.

End StoredNames.

(** ** The Intel parser's variable [tdp] *)

Section IntelTdp.
Context `{Builtins}.

Lemma intel_processor_stores name d v v' p :
  intel_processor name d v = Ok (v', Some p) -> v' = Some (TdpFloat (tdp p)).
Proof.
  unfold intel_processor. intros Hp.
  apply bind_Ok in Hp. destruct Hp as (w & _ & Hp).
  destruct w as [[[|ch s]|x]|]; try discriminate;
    chain_ok Hp; intros; subst; reflexivity.
Qed.

Lemma intel_processor_passes name d v v' :
  intel_processor name d v = Ok (v', None) -> v' = Some (TdpStr []).
Proof.
  unfold intel_processor. intros Hp.
  apply bind_Ok in Hp. destruct Hp as (w & _ & Hp).
  destruct w as [[[|ch s]|x]|]; try discriminate;
    try (chain_ok Hp; intros; discriminate).
  now injection Hp as <-.
Qed.

(** The local variable [tdp] of the Intel parser is set only where a
    processor has a "TDP" or a "Processor Base Power" row, and it is never
    reset.  For a processor that has neither row: as the first processor of
    the run it ends the run with [UnboundLocalError]; after a processor that
    was stored it gets that processor's TDP; after one that was passed over
    for an empty TDP it is passed over too.  Where one of the two rows is
    present, the value the variable had does not matter. *)
Theorem intel_tdp_is_carried_over (name : str) (d : details) :
  Dict.get d (lit "TDP") = None ->
  Dict.get d (lit "Processor Base Power") = None ->
  intel_processor name d None = Raise UnboundLocalError /\
  (forall name0 d0 v0 v p0,
      intel_processor name0 d0 v0 = Ok (v, Some p0) ->
      (forall v' p, intel_processor name d v = Ok (v', Some p) ->
                    tdp p = tdp p0) /\
      (forall v', intel_processor name d v <> Ok (v', None)) /\
      (forall cores threads nc nt q1 q2,
          Dict.get d (lit "Total Cores") = Some cores ->
          int_of_str (strip cores) = Some nc ->
          Dict.get d (lit "Total Threads") = Some threads ->
          int_of_str (strip threads) = Some nt ->
          per_unit (tdp p0) nc = Ok q1 ->
          per_unit (tdp p0) nt = Ok q2 ->
          exists p, intel_processor name d v = Ok (v, Some p) /\
                    tdp p = tdp p0 /\ n_cores p = nc /\ n_threads p = nt)) /\
  (forall name0 d0 v0 v,
      intel_processor name0 d0 v0 = Ok (v, None) ->
      intel_processor name d v = Ok (v, None)).
Proof.
  intros Htdp Hbase. split; [|split].
  - unfold intel_processor. now rewrite Htdp, Hbase.
  - intros name0 d0 v0 v p0 Hprev.
    apply intel_processor_stores in Hprev. subst v. split; [|split].
    + intros v' p Hp.
      unfold intel_processor in Hp. rewrite Htdp, Hbase in Hp.
      cbn [bind] in Hp. chain_ok Hp. intros. subst. reflexivity.
    + intros v' Hp.
      unfold intel_processor in Hp. rewrite Htdp, Hbase in Hp.
      cbn [bind] in Hp. chain_ok Hp.
    + intros cores threads nc nt q1 q2 Hc Hnc Ht Hnt Hq1 Hq2.
      unfold intel_processor, Dict.getitem, int_.
      rewrite Htdp, Hbase, Hc, Ht. cbn [bind]. rewrite Hnc, Hnt.
      cbn [bind or_value_error]. rewrite Hq1, Hq2. cbn [bind].
      eexists. split; [reflexivity|]. simpl. auto.
  - intros name0 d0 v0 v Hp. apply intel_processor_passes in Hp. subst v.
    unfold intel_processor. now rewrite Htdp, Hbase.
Qed.

(** With a "TDP" row the record is built from that row, whatever the
    variable held and whether or not there is a "Processor Base Power" row;
    that row is read only where "TDP" is absent. *)
Theorem intel_tdp_row_first (name : str) (d : details) (s : str) :
  (Dict.get d (lit "TDP") = Some s ->
   forall v v' b,
     intel_processor name d v =
     intel_processor name (Dict.set d (lit "Processor Base Power") b) v') /\
  (Dict.get d (lit "TDP") = None ->
   Dict.get d (lit "Processor Base Power") = Some s ->
   forall v v', intel_processor name d v = intel_processor name d v').
Proof.
  split.
  - intros Htdp v v' b. unfold intel_processor.
    rewrite (@get_set_other _ d (lit "Processor Base Power") (lit "TDP") b)
      by discriminate.
    rewrite Htdp. cbn [bind].
    destruct (replace (lit "W") [] (strip s)) as [|c t]; [reflexivity|].
    destruct (float_ (c :: t)) as [x|e]; cbn [bind]; [|reflexivity].
    unfold Dict.getitem.
    rewrite (@get_set_other _ d (lit "Processor Base Power")
               (lit "Total Cores") b) by discriminate.
    destruct (Dict.get d (lit "Total Cores")) as [cores|]; cbn [bind];
      [|reflexivity].
    destruct (int_ (strip cores)) as [nc|e]; cbn [bind]; [|reflexivity].
    rewrite (@get_set_other _ d (lit "Processor Base Power")
               (lit "Total Threads") b) by discriminate.
    reflexivity.
  - intros Htdp Hbase v v'. unfold intel_processor. now rewrite Htdp, Hbase.
Qed.

End IntelTdp.

(** ** The Intel parser's table *)

Lemma keys_set_present {V} (d : Dict.dict V) k v :
  In k (Dict.keys d) -> Dict.keys (Dict.set d k v) = Dict.keys d.
Proof.
  induction d as [|[k0 v0] d IH]; simpl; [tauto|].
  destruct (Str.eqb k0 k) eqn:E; simpl; [reflexivity|].
  intros [->|Hin]; [now rewrite str_eqb_refl in E|].
  now rewrite IH.
Qed.

Lemma keys_set_absent {V} (d : Dict.dict V) k v :
  ~ In k (Dict.keys d) -> Dict.keys (Dict.set d k v) = Dict.keys d ++ [k].
Proof.
  induction d as [|[k0 v0] d IH]; simpl; [reflexivity|].
  intros Hnot. destruct (Str.eqb k0 k) eqn:E.
  - apply str_eqb_eq in E. tauto.
  - simpl. rewrite IH by tauto. reflexivity.
Qed.

Lemma get_Some_keys {V} (d : Dict.dict V) k :
  In k (Dict.keys d) -> exists v, Dict.get d k = Some v.
Proof.
  intros Hin. destruct (Dict.get d k) eqn:E; [eauto|].
  apply get_None_keys in E. tauto.
Qed.

Lemma keys_put data name key v : Dict.keys (put data name key v) = Dict.keys data.
Proof.
  unfold put. destruct (Dict.get data name) eqn:E; [|reflexivity].
  apply keys_set_present. destruct (in_dec (list_eq_dec N.eq_dec) name
                                      (Dict.keys data)); [assumption|].
  apply get_None_keys in n. congruence.
Qed.

Lemma at2_put data name key v name' k :
  In name (Dict.keys data) ->
  at2 (put data name key v) name' k =
  if Str.eqb name name' && Str.eqb key k then Some v else at2 data name' k.
Proof.
  intros Hin. destruct (get_Some_keys _ _ Hin) as [d Hd].
  unfold at2, put. rewrite Hd.
  destruct (Str.eqb name name') eqn:En.
  - apply str_eqb_eq in En. subst name'. rewrite get_set_same, Hd.
    destruct (Str.eqb key k) eqn:Ek; simpl.
    + apply str_eqb_eq in Ek. subst. apply get_set_same.
    + apply str_eqb_neq in Ek. now apply get_set_other.
  - apply str_eqb_neq in En. simpl. now rewrite get_set_other.
Qed.

Section IntelTable.
Variable names : list str.

(** Every processor name has its dict in [data]. *)
Definition named (data : processor_data) : Prop :=
  forall n, In n names -> In n (Dict.keys data).

Lemma named_put data name key v : named data -> named (put data name key v).
Proof. intros Hn n Hin. rewrite keys_put. auto. Qed.

Lemma named_fill_put key j values data :
  named data -> named (fill_put names key j values data).
Proof.
  revert j data. induction values as [|v values IH]; intros j data Hn; simpl.
  - exact Hn.
  - destruct (nth_error names j); auto using named_put.
Qed.

Lemma intel_fill_Ok key values : forall j data,
  named data ->
  (j + List.length values <= List.length names)%nat ->
  intel_fill names key j values data
  = Ok (fill_put names key j values data).
Proof.
  induction values as [|v values IH]; intros j data Hn Hlen; simpl.
  - reflexivity.
  - simpl in Hlen. unfold item, Dict.getitem.
    destruct (nth_error names j) as [name|] eqn:Ej.
    2:{ apply nth_error_None in Ej. lia. }
    cbn [bind].
    destruct (get_Some_keys data name (Hn _ (nth_error_In _ _ Ej)))
      as [d Hd].
    rewrite Hd. cbn [bind].
    rewrite IH.
    + unfold put. now rewrite Hd.
    + pose proof (named_put name key v Hn) as Hn'.
      unfold put in Hn'. now rewrite Hd in Hn'.
    + lia.
Qed.

Lemma intel_fill_IndexError key values : forall j data,
  named data ->
  (j <= List.length names)%nat ->
  (List.length names < j + List.length values)%nat ->
  intel_fill names key j values data = Raise IndexError.
Proof.
  induction values as [|v values IH]; intros j data Hn Hj Hlen; simpl in *.
  - lia.
  - unfold item, Dict.getitem.
    destruct (nth_error names j) as [name|] eqn:Ej; [|reflexivity].
    cbn [bind].
    destruct (get_Some_keys data name (Hn _ (nth_error_In _ _ Ej)))
      as [d Hd].
    rewrite Hd. cbn [bind].
    assert (Hlt : (j < List.length names)%nat)
      by (apply nth_error_Some; congruence).
    apply IH; [|lia|lia].
    pose proof (named_put name key v Hn) as Hn'.
    unfold put in Hn'. now rewrite Hd in Hn'.
Qed.

End IntelTable.

Arguments in_list : simpl never.

Lemma str_eqb_comm a b : Str.eqb a b = Str.eqb b a.
Proof.
  destruct (Str.eqb a b) eqn:E.
  - apply str_eqb_eq in E. subst. now rewrite str_eqb_refl.
  - apply str_eqb_neq in E. symmetry. apply str_eqb_neq. congruence.
Qed.

Section IntelRows.
Variable names : list str.

Lemma named_rows_put body : forall data,
  named names data -> named names (rows_put names body data).
Proof.
  unfold rows_put.
  induction body as [|line body IH]; intros data Hn; simpl; [exact Hn|].
  apply IH. destruct line as [|key values]; [exact Hn|].
  destruct (in_list key intel_keys);
    [exact (@named_fill_put names key 0 values data Hn)|exact Hn].
Qed.

Lemma intel_rows_Ok body : forall data,
  named names data ->
  existsb (overlong names) body = false ->
  intel_rows names body data = Ok (rows_put names body data).
Proof.
  unfold rows_put.
  induction body as [|line body IH]; intros data Hn Hlong; simpl;
    [reflexivity|].
  simpl in Hlong. apply orb_false_elim in Hlong. destruct Hlong as [Hl Hrest].
  destruct line as [|key values]; [now apply IH|].
  simpl in Hl. destruct (in_list key intel_keys); [|now apply IH].
  simpl in Hl. apply Nat.ltb_ge in Hl.
  rewrite intel_fill_Ok by (simpl; auto). cbn [bind].
  apply IH;
    [exact (@named_fill_put names key 0 values data Hn)|assumption].
Qed.

Lemma intel_rows_IndexError body : forall data,
  named names data ->
  existsb (overlong names) body = true ->
  intel_rows names body data = Raise IndexError.
Proof.
  induction body as [|line body IH]; intros data Hn Hlong; simpl in *;
    [discriminate|].
  destruct line as [|key values]; [now apply IH|].
  simpl in Hlong. destruct (in_list key intel_keys); [|now apply IH].
  simpl in Hlong.
  destruct (List.length names <? List.length values)%nat eqn:El.
  - apply Nat.ltb_lt in El.
    rewrite intel_fill_IndexError by (simpl; auto; lia). reflexivity.
  - apply Nat.ltb_ge in El.
    rewrite intel_fill_Ok by (simpl; auto). cbn [bind].
    apply IH;
    [exact (@named_fill_put names key 0 values data Hn)|assumption].
Qed.

Lemma named_names_put ns : forall data,
  named names data -> named names (names_put ns data).
Proof.
  unfold names_put.
  induction ns as [|n ns IH]; intros data Hn; simpl; auto using named_put.
Qed.

Lemma intel_name_all_Ok ns : forall data,
  named names data -> (forall n, In n ns -> In n names) ->
  intel_name_all ns data = Ok (names_put ns data).
Proof.
  unfold names_put.
  induction ns as [|n ns IH]; intros data Hn Hsub; simpl; [reflexivity|].
  unfold Dict.getitem.
  destruct (get_Some_keys data n (Hn _ (Hsub _ (or_introl eq_refl))))
    as [d Hd].
  rewrite Hd. cbn [bind].
  pose proof (named_put n (lit "Processor Name") n Hn) as Hn'.
  unfold put in *. rewrite Hd in *.
  apply IH; auto. intros m Hm. apply Hsub. now right.
Qed.

(** With distinct names, the cell a column ends up with. *)
Hypothesis names_distinct : NoDup names.

Lemma name_at i j name :
  nth_error names i = Some name -> nth_error names j = Some name -> i = j.
Proof.
  intros Hi Hj. apply (proj1 (NoDup_nth_error names) names_distinct).
  - apply nth_error_Some. congruence.
  - congruence.
Qed.

Lemma eqb_name_at i j name nj :
  nth_error names i = Some name -> nth_error names j = Some nj ->
  Str.eqb nj name = (i =? j)%nat.
Proof.
  intros Hi Hj. destruct (Nat.eqb_spec i j) as [->|Hne].
  - apply str_eqb_eq. congruence.
  - apply str_eqb_neq. intros ->. apply Hne. eapply name_at; eassumption.
Qed.

Lemma at2_fill_put key values i name k : forall j data,
  named names data ->
  nth_error names i = Some name ->
  at2 (fill_put names key j values data) name k =
  if Str.eqb key k && (j <=? i)%nat then
    match nth_error values (i - j) with
    | Some v => Some v
    | None => at2 data name k
    end
  else at2 data name k.
Proof.
  induction values as [|v values IH]; intros j data Hn Hi; cbn [fill_put].
  - destruct (Str.eqb key k && (j <=? i)%nat); [|reflexivity].
    now destruct (i - j)%nat.
  - destruct (nth_error names j) as [nj|] eqn:Ej.
    + rewrite IH by (auto; exact (@named_put names data nj key v Hn)).
      rewrite at2_put by (apply Hn; eapply nth_error_In; eassumption).
      rewrite (eqb_name_at _ _ Hi Ej).
      destruct (Str.eqb key k); cbn [andb];
        [|now rewrite andb_false_r].
      rewrite andb_true_r.
      destruct (Nat.leb (S j) i) eqn:E1.
      * apply Nat.leb_le in E1.
        assert (E2 : (j <=? i)%nat = true) by (apply Nat.leb_le; lia).
        assert (E3 : (i =? j)%nat = false) by (apply Nat.eqb_neq; lia).
        rewrite E2, E3.
        replace (i - j)%nat with (S (i - S j)) by lia. reflexivity.
      * apply Nat.leb_gt in E1.
        destruct (Nat.eqb_spec i j) as [->|Hne].
        -- rewrite Nat.leb_refl, Nat.sub_diag. reflexivity.
        -- assert (E2 : (j <=? i)%nat = false) by (apply Nat.leb_gt; lia).
           now rewrite E2.
    + apply nth_error_None in Ej.
      assert (Hlt : (i < List.length names)%nat)
        by (apply nth_error_Some; congruence).
      assert (E2 : (j <=? i)%nat = false) by (apply Nat.leb_gt; lia).
      now rewrite E2, andb_false_r.
Qed.

Lemma intel_key_in k key :
  in_list k intel_keys = true -> in_list key intel_keys = false ->
  Str.eqb key k = false.
Proof.
  intros Hk Hkey. apply str_eqb_neq. intros ->. congruence.
Qed.

Lemma at2_rows_put body i name k : forall data,
  named names data ->
  nth_error names i = Some name ->
  in_list k intel_keys = true ->
  at2 (rows_put names body data) name k =
  match attribute body k i with
  | Some v => Some v
  | None => at2 data name k
  end.
Proof.
  unfold rows_put.
  induction body as [|line body IH]; intros data Hn Hi Hk; simpl;
    [reflexivity|].
  destruct line as [|key values].
  - rewrite IH by auto. now destruct (attribute body k i).
  - destruct (in_list key intel_keys) eqn:Ekey.
    + rewrite IH
        by (auto; exact (@named_fill_put names key 0 values data Hn)).
      destruct (attribute body k i); [reflexivity|].
      rewrite (@at2_fill_put key values i name k 0 data Hn Hi).
      rewrite Nat.sub_0_r. cbn [Nat.leb]. rewrite andb_true_r.
      destruct (Str.eqb key k); [|reflexivity].
      now destruct (nth_error values i).
    + rewrite IH by auto.
      destruct (attribute body k i); [reflexivity|].
      now rewrite (intel_key_in _ _ Hk Ekey).
Qed.

Lemma at2_names_put ns name k : forall data,
  named names data -> (forall n, In n ns -> In n names) ->
  at2 (names_put ns data) name k =
  if Str.eqb (lit "Processor Name") k && in_list name ns then Some name
  else at2 data name k.
Proof.
  unfold names_put.
  induction ns as [|n ns IH]; intros data Hn Hsub; cbn [fold_left].
  - now rewrite andb_false_r.
  - rewrite IH.
    2:{ exact (@named_put names data n (lit "Processor Name") n Hn). }
    2:{ intros m Hm. apply Hsub. now right. }
    rewrite at2_put by (apply Hn, Hsub; now left).
    change (in_list name (n :: ns))
      with (Str.eqb name n || in_list name ns).
    rewrite (str_eqb_comm name n).
    destruct (Str.eqb (lit "Processor Name") k); cbn [andb];
      [|now rewrite andb_false_r].
    rewrite andb_true_r.
    destruct (in_list name ns); [now rewrite orb_true_r|].
    rewrite orb_false_r.
    destruct (Str.eqb n name) eqn:En; [|reflexivity].
    apply str_eqb_eq in En. now subst.
Qed.

End IntelRows.

Lemma keys_fill_put names key values : forall j data,
  Dict.keys (fill_put names key j values data) = Dict.keys data.
Proof.
  induction values as [|v values IH]; intros j data; cbn [fill_put];
    [reflexivity|].
  destruct (nth_error names j); [|reflexivity]. now rewrite IH, keys_put.
Qed.

Lemma keys_rows_put names body : forall data,
  Dict.keys (rows_put names body data) = Dict.keys data.
Proof.
  unfold rows_put.
  induction body as [|line body IH]; intros data; cbn [fold_left];
    [reflexivity|].
  rewrite IH. destruct line as [|key values]; [reflexivity|].
  destruct (in_list key intel_keys); [apply keys_fill_put|reflexivity].
Qed.

Lemma keys_names_put ns : forall data,
  Dict.keys (names_put ns data) = Dict.keys data.
Proof.
  unfold names_put.
  induction ns as [|n ns IH]; intros data; cbn [fold_left]; [reflexivity|].
  now rewrite IH, keys_put.
Qed.

(** Lines 164-165: an empty dict under every name. *)
Lemma blank_keys ns : forall (d : processor_data),
  NoDup (Dict.keys d ++ ns) ->
  Dict.keys (fold_left (fun d name => Dict.set d name []) ns d)
  = Dict.keys d ++ ns.
Proof.
  induction ns as [|n ns IH]; intros d Hnd; cbn [fold_left].
  - now rewrite app_nil_r.
  - assert (Hnot : ~ In n (Dict.keys d)).
    { apply NoDup_remove_2 in Hnd. intros Hin. apply Hnd.
      apply in_or_app. now left. }
    rewrite IH; rewrite keys_set_absent by assumption.
    + now rewrite <- app_assoc.
    + now rewrite <- app_assoc.
Qed.

Lemma blank_named ns : forall (d : processor_data) n,
  In n ns \/ In n (Dict.keys d) ->
  In n (Dict.keys (fold_left (fun d name => Dict.set d name []) ns d)).
Proof.
  induction ns as [|m ns IH]; intros d n Hin; cbn [fold_left].
  - destruct Hin as [[]|Hin]. exact Hin.
  - apply IH. rewrite keys_set_In. simpl in Hin. intuition.
Qed.

Lemma blank_at2 ns : forall (d : processor_data) name k,
  (forall n, at2 d n k = None) ->
  at2 (fold_left (fun d name => Dict.set d name []) ns d) name k = None.
Proof.
  induction ns as [|m ns IH]; intros d name k Hd; cbn [fold_left]; [auto|].
  apply IH. intros n. unfold at2.
  destruct (list_eq_dec N.eq_dec m n) as [->|Hne].
  - now rewrite get_set_same.
  - rewrite get_set_other by assumption. apply Hd.
Qed.

(** The Intel parser's table, read column by column.  For a family file of
    at least three rows whose processor names (the third row without its
    first cell) are distinct and none of whose kept attribute rows has more
    cells than there are names: the table has one dict per name, in the
    order of the names; the dict of the processor in column [i] holds its
    name under "Processor Name" and, under each kept attribute, the cell of
    column [i] in the last row of that attribute that reaches the column
    (nothing where no row does). *)
Theorem intel_table_pivots (r1 r2 names_row : list str) (body : csv_rows) :
  NoDup (tl names_row) ->
  existsb (overlong (tl names_row)) body = false ->
  exists data,
    intel_table (r1 :: r2 :: names_row :: body) = Ok data /\
    Dict.keys data = tl names_row /\
    forall i name, nth_error (tl names_row) i = Some name ->
      exists d,
        Dict.get data name = Some d /\
        Dict.get d (lit "Processor Name") = Some name /\
        forall key, in_list key intel_keys = true ->
                    Dict.get d key = attribute body key i.
Proof.
  intros Hnd Hlong. set (names := tl names_row) in *.
  set (data0 := fold_left (fun d name => Dict.set d name [])
                  names ([] : processor_data)).
  assert (Hn0 : named names data0).
  { intros n Hin. apply blank_named. now left. }
  assert (Hn1 : named names (rows_put names body data0))
    by now apply named_rows_put.
  exists (names_put names (rows_put names body data0)). split; [|split].
  - change (intel_table (r1 :: r2 :: names_row :: body))
      with (data <- intel_rows names body data0 ;;
            intel_name_all names data).
    rewrite (intel_rows_Ok body Hn0 Hlong). cbn [bind].
    exact (@intel_name_all_Ok names names _ Hn1 (fun n Hin => Hin)).
  - rewrite keys_names_put, keys_rows_put. unfold data0.
    now rewrite blank_keys.
  - intros i name Hi.
    assert (Hin : In name names) by (eapply nth_error_In; eassumption).
    destruct (get_Some_keys
                (names_put names (rows_put names body data0)) name)
      as [d Hd].
    { rewrite keys_names_put. now apply Hn1. }
    exists d. split; [exact Hd|].
    assert (Hat : forall k,
               Dict.get d k =
               at2 (names_put names (rows_put names body data0)) name k)
      by (intros k; unfold at2; now rewrite Hd).
    split.
    + rewrite Hat.
      rewrite (@at2_names_put names names name (lit "Processor Name")
                 _ Hn1 (fun n Hin => Hin)).
      assert (Hl : in_list name names = true).
      { unfold in_list. apply existsb_exists. exists name.
        split; [exact Hin|apply str_eqb_refl]. }
      now rewrite Hl, str_eqb_refl.
    + intros key Hkey. rewrite Hat.
      rewrite (@at2_names_put names names name key _ Hn1 (fun n Hin => Hin)).
      assert (Hpn : Str.eqb (lit "Processor Name") key = false).
      { apply str_eqb_neq. intros <-. vm_compute in Hkey. discriminate. }
      rewrite Hpn. cbn [andb].
      rewrite (@at2_rows_put names Hnd body i name key data0 Hn0 Hi Hkey).
      destruct (attribute body key i); [reflexivity|].
      apply blank_at2. reflexivity.
Qed.

Lemma intel_table_unfold r1 r2 names_row body :
  intel_table (r1 :: r2 :: names_row :: body) =
  (data <- intel_rows (tl names_row) body
             (fold_left (fun d name => Dict.set d name [])
                (tl names_row) ([] : processor_data)) ;;
   intel_name_all (tl names_row) data).
Proof. reflexivity. Qed.

(** How reading an Intel family file can fail, and that it fails in no
    other way: [StopIteration] exactly when the file has fewer than three
    rows, [IndexError] exactly when it has three rows or more and a kept
    attribute row with more cells than there are processor names. *)
Theorem intel_table_errors (rows : csv_rows) (e : exn) :
  intel_table rows = Raise e <->
  (e = StopIteration /\ (List.length rows < 3)%nat) \/
  (e = IndexError /\
   exists r1 r2 names_row body,
     rows = r1 :: r2 :: names_row :: body /\
     existsb (overlong (tl names_row)) body = true).
Proof.
  assert (Hn0 : forall names,
             named names (fold_left (fun d name => Dict.set d name [])
                            names ([] : processor_data))).
  { intros names n Hin. apply blank_named. now left. }
  split.
  - destruct rows as [|r1 [|r2 [|names_row body]]];
      try (intros [= <-]; left; split; [reflexivity|simpl; lia]).
    rewrite intel_table_unfold.
    destruct (existsb (overlong (tl names_row)) body) eqn:Hlong.
    + rewrite (intel_rows_IndexError body (Hn0 _) Hlong). cbn [bind].
      intros [= <-]. right. split; [reflexivity|].
      now exists r1, r2, names_row, body.
    + rewrite (intel_rows_Ok body (Hn0 _) Hlong). cbn [bind].
      rewrite (@intel_name_all_Ok (tl names_row) (tl names_row) _
                 (named_rows_put body (Hn0 _)) (fun n Hin => Hin)).
      discriminate.
  - intros [[-> Hlen]|[-> (r1 & r2 & names_row & body & -> & Hlong)]].
    + destruct rows as [|r1 [|r2 [|names_row body]]]; simpl in Hlen;
        try reflexivity; lia.
    + rewrite intel_table_unfold.
      now rewrite (intel_rows_IndexError body (Hn0 _) Hlong).
Qed.

(** ** The normalizer's frame *)

Module PreProcessShape.
Import PreProcess.

#[local] Opaque all_cpus_threads.

Lemma keys_select_rows mask (df : frame) :
  Dict.keys (select_rows mask df) = Dict.keys df.
Proof.
  unfold select_rows, Dict.keys. rewrite map_map. reflexivity.
Qed.

Lemma length_select_not_any col : forall (l : list value),
  List.length l = List.length col ->
  List.length (select (map not_any (map VStr col)) l) =
  List.length (filter (fun s => negb (Str.eqb s (lit "Any"))) col).
Proof.
  induction col as [|s col IH]; intros [|x l] Hlen; simpl in *;
    try reflexivity; try discriminate.
  destruct (Str.eqb s (lit "Any")); simpl; auto.
Qed.

Lemma thread_counts_length names ts :
  thread_counts names = Some ts -> List.length ts = List.length names.
Proof.
  revert ts. induction names as [|n names IH]; simpl; intros ts.
  - now intros [= <-].
  - destruct (Dict.get all_cpus_threads n); [|discriminate].
    destruct (thread_counts names); [|discriminate].
    intros [= <-]. simpl. f_equal. now apply IH.
Qed.

(** What the normalizer does to the frame besides the three columns it
    sets.  On a data set whose model column holds strings, when the script
    reaches the write: every other column comes out with the rows of the
    placeholder "Any" dropped and nothing else changed; and if the columns
    of the data set had one length, so have the columns written (the number
    of rows kept). *)
Theorem pre_process_frame (df out : frame) (col : list str) :
  Dict.get df (lit "model") = Some (map VStr col) ->
  pre_process df = Ok out ->
  (forall k, k <> lit "model" -> k <> lit "manufacturer" ->
             k <> lit "threads" ->
     Dict.get out k =
     option_map (select (map not_any (map VStr col))) (Dict.get df k)) /\
  ((forall k c, Dict.get df k = Some c ->
                List.length c = List.length col) ->
   forall k c, Dict.get out k = Some c ->
               List.length c = List.length (cleaned_names col)).
Proof.
  intros Hcol Hout.
  rewrite (PreProcessFacts.pre_process_unfold df col Hcol) in Hout.
  destruct (thread_counts (cleaned_names col)) as [ts|] eqn:Ets;
    [|discriminate].
  injection Hout as <-.
  assert (Hother : forall k, k <> lit "model" -> k <> lit "manufacturer" ->
                             k <> lit "threads" ->
            Dict.get
              (Dict.set
                 (Dict.set
                    (Dict.set (select_rows (map not_any (map VStr col)) df)
                       (lit "manufacturer")
                       (map (fun s => VStr (inferred_manufacturer s))
                          (filter (fun s => negb (Str.eqb s (lit "Any")))
                             col)))
                    (lit "model") (map VStr (cleaned_names col)))
                 (lit "threads") (map VInt ts)) k =
            option_map (select (map not_any (map VStr col))) (Dict.get df k)).
  { intros k H1 H2 H3. rewrite !get_set_other by congruence.
    apply PreProcessFacts.get_select_rows. }
  split; [exact Hother|].
  intros Hrect k c.
  destruct (list_eq_dec N.eq_dec k (lit "threads")) as [->|H3].
  { rewrite get_set_same. intros [= <-]. rewrite length_map.
    now apply thread_counts_length. }
  rewrite get_set_other by congruence.
  destruct (list_eq_dec N.eq_dec k (lit "model")) as [->|H1].
  { rewrite get_set_same. intros [= <-]. now rewrite length_map. }
  rewrite get_set_other by congruence.
  destruct (list_eq_dec N.eq_dec k (lit "manufacturer")) as [->|H2].
  { rewrite get_set_same. intros [= <-]. unfold cleaned_names.
    now rewrite !length_map. }
  rewrite get_set_other by congruence.
  rewrite PreProcessFacts.get_select_rows.
  destruct (Dict.get df k) as [c0|] eqn:Ek; [|discriminate].
  simpl. intros [= <-]. unfold cleaned_names. rewrite length_map.
  apply length_select_not_any. eauto.
Qed.

Lemma apply_Raise {A B} (f : A -> result B) l e :
  apply f l = Raise e -> exists x, In x l /\ f x = Raise e.
Proof.
  induction l as [|a l IH]; simpl; [discriminate|].
  destruct (f a) as [b|e'] eqn:E; simpl.
  - destruct (apply f l) as [bs|e'']; simpl; [discriminate|].
    intros [= <-]. destruct (IH eq_refl) as (x & ? & ?). eauto.
  - intros [= <-]. eauto.
Qed.

Lemma apply_Ok {A B} (f : A -> result B) l bs :
  apply f l = Ok bs -> forall x, In x l -> exists b, f x = Ok b.
Proof.
  revert bs. induction l as [|a l IH]; simpl; intros bs; [tauto|].
  destruct (f a) as [b|e'] eqn:E; simpl; [|discriminate].
  destruct (apply f l) as [bs'|e'']; simpl; [|discriminate].
  intros _ x [<-|Hin]; eauto.
Qed.

Lemma In_select_not_any x col :
  In x col -> (forall s, x <> VStr s) -> In x (select (map not_any col) col).
Proof.
  intros Hin Hx. induction col as [|y col IH]; simpl in *; [tauto|].
  destruct Hin as [->|Hin].
  - destruct x as [s| |]; [now elim (Hx s)| |]; simpl; auto.
  - destruct (not_any y); simpl; auto.
Qed.

Lemma apply_manufacturer_TypeError col x :
  In x col -> (forall s, x <> VStr s) ->
  apply manufacturer_of col = Raise TypeError.
Proof.
  intros Hin Hx. induction col as [|y col IH]; simpl in *; [tauto|].
  destruct y as [s| |]; simpl; try reflexivity.
  destruct Hin as [E|Hin]; [now elim (Hx s)|].
  now rewrite (IH Hin).
Qed.

(** How the normalizer fails, on any frame.  Without a model column it
    dies of [KeyError] at once; with a model cell that is not a string (a
    missing value, a number) it dies of [TypeError], whatever the tables
    hold; and it dies of nothing but [KeyError] and [TypeError]. *)
Theorem pre_process_errors (df : frame) :
  (Dict.get df (lit "model") = None -> pre_process df = Raise KeyError) /\
  (forall col x,
      Dict.get df (lit "model") = Some col ->
      In x col -> (forall s, x <> VStr s) ->
      pre_process df = Raise TypeError) /\
  (forall e, pre_process df = Raise e -> e = KeyError \/ e = TypeError).
Proof.
  split; [|split].
  - intros Hnone. unfold pre_process, Dict.getitem. now rewrite Hnone.
  - intros col x Hcol Hin Hx. unfold pre_process, Dict.getitem.
    rewrite Hcol. cbn [bind].
    rewrite PreProcessFacts.get_select_rows, Hcol. cbn [option_map bind].
    now rewrite (@apply_manufacturer_TypeError _ x
                   (@In_select_not_any x col Hin Hx) Hx).
  - intros e. unfold pre_process.
    intros Hr. apply bind_Raise in Hr.
    destruct Hr as [Hr|(col & _ & Hr)];
      [left; now apply getitem_Raise in Hr|].
    apply bind_Raise in Hr.
    destruct Hr as [Hr|(col1 & Hcol1 & Hr)];
      [left; now apply getitem_Raise in Hr|].
    apply bind_Raise in Hr. destruct Hr as [Hr|(ms & Hms & Hr)].
    { apply apply_Raise in Hr. destruct Hr as (x & _ & Hx).
      right. destruct x; simpl in Hx; congruence. }
    apply bind_Raise in Hr.
    destruct Hr as [Hr|(col2 & Hcol2 & Hr)];
      [left; now apply getitem_Raise in Hr|].
    assert (col2 = col1).
    { unfold Dict.getitem in Hcol1, Hcol2.
      rewrite get_set_other in Hcol2 by discriminate.
      destruct (Dict.get (select_rows (map not_any col) df) (lit "model"));
        congruence. }
    subst col2.
    apply bind_Raise in Hr. destruct Hr as [Hr|(models & Hmodels & Hr)].
    { apply apply_Raise in Hr. destruct Hr as (x & Hin & Hx).
      destruct (@apply_Ok _ _ _ _ _ Hms x Hin) as [b Hb].
      destruct x; simpl in *; congruence. }
    apply bind_Raise in Hr.
    destruct Hr as [Hr|(col3 & _ & Hr)];
      [left; now apply getitem_Raise in Hr|].
    apply bind_Raise in Hr. destruct Hr as [Hr|(ts & _ & Hr)];
      [|discriminate].
    apply apply_Raise in Hr. destruct Hr as (x & _ & Hx).
    left. destruct x as [s| |]; simpl in Hx; try congruence.
    apply bind_Raise in Hx. destruct Hx as [Hx|(n & _ & Hx)];
      [now apply getitem_Raise in Hx|discriminate].
Qed.

Lemma check_headers_all headers names :
  (forall h, In h headers -> In h names) ->
  check_headers headers (Some names) = Ok tt.
Proof.
  induction headers as [|h headers IH]; simpl; intros Hall; [reflexivity|].
  assert (Hh : in_list h names = true).
  { unfold in_list. apply existsb_exists. exists h.
    split; [apply Hall; now left|apply str_eqb_refl]. }
  rewrite Hh. apply IH. auto.
Qed.

(** The two scripts fit together.  When the normalizer reaches the write on
    a data set that has the columns model, TDP, n_cores, TDP_per_core and
    source, the header line it writes passes the required-header check of
    the merger's Green-Algorithms parser: the two columns the merger asks
    for besides are the two the normalizer adds. *)
Theorem normalizer_header_passes (df out : frame) :
  pre_process df = Ok out ->
  (forall h, In h data_set_columns -> In h (Dict.keys df)) ->
  check_headers green_algorithms_headers (Some (to_csv_header out)) = Ok tt.
Proof.
  intros Hout Hcols. unfold pre_process in Hout. chain_ok Hout. subst out.
  apply check_headers_all. intros h Hh. unfold to_csv_header.
  rewrite !keys_set_In, keys_select_rows.
  unfold green_algorithms_headers in Hh. simpl in Hh.
  destruct Hh as [<-|[<-|[<-|[<-|[<-|[<-|[<-|[]]]]]]]];
    try (do 3 right; apply Hcols; simpl; tauto); tauto.
Qed.

End PreProcessShape.

(** ** What a table can make the Intel parser raise *)

Lemma getitem_None {V} (d : Dict.dict V) k e :
  Dict.getitem d k = Raise e -> e = KeyError /\ Dict.get d k = None.
Proof.
  unfold Dict.getitem. destruct (Dict.get d k); [discriminate|].
  intros [= <-]. auto.
Qed.

Section IntelEscapes.
Context `{Builtins}.

(** Take the rest of [intel_processor] apart, one step at a time. *)
Ltac intel_steps Hr :=
  repeat first
    [ discriminate Hr
    | match type of Hr with
      | bind (Ok _) _ = Raise _ => cbn [bind] in Hr
      | bind (or_value_error ?o) _ = Raise _ =>
          let E := fresh "E" in
          destruct o eqn:E; cbn [bind or_value_error] in Hr;
          [|injection Hr as <-; solve [auto 8]]
      | bind (Dict.getitem ?d ?k) _ = Raise _ =>
          let E := fresh "E" in
          destruct (Dict.getitem d k) eqn:E; cbn [bind] in Hr;
          [|injection Hr as <-; apply getitem_None in E;
            destruct E as [-> E]; solve [auto 8]]
      | bind (per_unit ?x ?n) _ = Raise _ =>
          let E := fresh "E" in
          destruct (per_unit x n) eqn:E; cbn [bind] in Hr;
          [|injection Hr as <-; apply per_unit_Raise in E; subst;
            solve [auto 8]]
      end ].

Lemma intel_processor_errors name d v e :
  intel_processor name d v = Raise e ->
  (e = UnboundLocalError /\ v = None /\
   Dict.get d (lit "TDP") = None /\
   Dict.get d (lit "Processor Base Power") = None) \/
  (e = KeyError /\
   (Dict.get d (lit "Total Cores") = None \/
    Dict.get d (lit "Total Threads") = None)) \/
  e = ValueError \/ e = OverflowError.
Proof.
  intros Hr. unfold intel_processor, float_, int_ in Hr.
  destruct (Dict.get d (lit "TDP")) as [s|] eqn:Ht;
    [|destruct (Dict.get d (lit "Processor Base Power")) as [s|] eqn:Hb];
    cbn [bind] in Hr.
  - destruct (replace (lit "W") [] (strip s)) as [|c t]; [discriminate|].
    intel_steps Hr.
  - destruct (replace (lit "W") [] (strip s)) as [|c t]; [discriminate|].
    intel_steps Hr.
  - destruct v as [[[|c t]|x]|].
    + discriminate.
    + intel_steps Hr.
    + intel_steps Hr.
    + injection Hr as <-. left. auto.
Qed.

(** What the loop over the processors of a table (lines 180-204) can
    raise, and what in the table it is due to.  [UnboundLocalError]: the
    variable [tdp] was unbound when the loop began and the first processor
    of the table has neither a "TDP" nor a "Processor Base Power" entry.
    [KeyError]: some processor of the table has no "Total Cores" or no
    "Total Threads" entry.  Otherwise [ValueError] (a text that [float] or
    [int] refuses) or [OverflowError] (a count too large for a float).  The
    loop raises nothing else; the guards [n > 0] keep the divisions from
    [ZeroDivisionError]. *)
Theorem intel_items_escapes
    (items : list (str * details)) (v : option tdp_value) (st : state)
    (e : exn) :
  fst (intel_items items v st) = Raise e ->
  (e = UnboundLocalError /\ v = None /\
   exists name d rest,
     items = (name, d) :: rest /\
     Dict.get d (lit "TDP") = None /\
     Dict.get d (lit "Processor Base Power") = None) \/
  (e = KeyError /\
   exists name d,
     In (name, d) items /\
     (Dict.get d (lit "Total Cores") = None \/
      Dict.get d (lit "Total Threads") = None)) \/
  e = ValueError \/ e = OverflowError.
Proof.
  revert v st. induction items as [|[name d] items IH]; intros v st; simpl;
    [discriminate|].
  destruct (intel_processor name d v) as [[v' [p|]]|e'] eqn:E; simpl.
  - intros Hr. apply IH in Hr.
    destruct Hr as [(_ & Hv & _)|[(-> & name' & d' & Hin & Hk)|Hr]].
    + apply intel_processor_stores in E. congruence.
    + right. left. split; [reflexivity|]. exists name', d'. auto.
    + auto.
  - intros Hr. apply IH in Hr.
    destruct Hr as [(_ & Hv & _)|[(-> & name' & d' & Hin & Hk)|Hr]].
    + apply intel_processor_passes in E. congruence.
    + right. left. split; [reflexivity|]. exists name', d'. auto.
    + auto.
  - intros [= <-]. apply intel_processor_errors in E.
    destruct E as [(-> & -> & Ht & Hb)|[(-> & Hk)|E]].
    + left. split; [reflexivity|]. split; [reflexivity|].
      exists name, d, items. auto.
    + right. left. split; [reflexivity|]. exists name, d. auto.
    + auto.
Qed.

End IntelEscapes.

(** ** Columns are read by name *)

Lemma get_fold_None_other names : forall (d : row) h,
  ~ In h names ->
  Dict.get (fold_left (fun d n => Dict.set d n None) names d) h
  = Dict.get d h.
Proof.
  induction names as [|n names IH]; intros d h Hnot; cbn [fold_left];
    [reflexivity|].
  simpl in Hnot. rewrite IH by tauto. apply get_set_other. tauto.
Qed.

Lemma get_fold_None_in names : forall (d : row) h,
  In h names ->
  Dict.get (fold_left (fun d n => Dict.set d n None) names d) h = Some None.
Proof.
  induction names as [|n names IH]; intros d h Hin; cbn [fold_left];
    [destruct Hin|].
  destruct (in_dec (list_eq_dec N.eq_dec) h names) as [Hin'|Hnot].
  - now apply IH.
  - destruct Hin as [->|Hin]; [|tauto].
    rewrite get_fold_None_other by assumption. apply get_set_same.
Qed.

Lemma get_zip_row_other names : forall cells (d : row) h,
  ~ In h names -> Dict.get (zip_row names cells d) h = Dict.get d h.
Proof.
  induction names as [|n names IH]; intros cells d h Hnot.
  - now destruct cells.
  - destruct cells as [|c cells].
    + apply (get_fold_None_other (n :: names)). exact Hnot.
    + simpl in Hnot. cbn [zip_row]. rewrite IH by tauto.
      apply get_set_other. tauto.
Qed.

(** With distinct column names, the row holds under a name the cell of the
    line in that name's column ([None] where the line is too short). *)
Lemma get_zip_row names : forall cells (d : row) i h,
  NoDup names -> nth_error names i = Some h ->
  Dict.get (zip_row names cells d) h = Some (nth_error cells i).
Proof.
  induction names as [|n names IH]; intros cells d i h Hnd Hi.
  - now destruct i.
  - inversion Hnd as [|? ? Hnot Hnd']; subst.
    destruct cells as [|c cells].
    + change (zip_row (n :: names) [] d)
        with (fold_left (fun d n => Dict.set d n None) (n :: names) d).
      rewrite get_fold_None_in by (eapply nth_error_In; eassumption).
      now destruct i.
    + cbn [zip_row]. destruct i as [|i]; simpl in Hi.
      * injection Hi as <-. rewrite get_zip_row_other by assumption.
        apply get_set_same.
      * cbn [nth_error]. now apply IH.
Qed.

Section ByName.
Context `{Builtins}.

Lemma cell_agree (r r' : row) k :
  Dict.get r k = Dict.get r' k -> cell r k = cell r' k.
Proof. unfold cell, Dict.getitem. now intros ->. Qed.

Lemma builders_read_required headers build (r r' : row) :
  In (headers, build) builders ->
  (forall h, In h headers -> Dict.get r h = Dict.get r' h) ->
  build r = build r'.
Proof.
  unfold builders. simpl.
  intros [Hb|[Hb|[Hb|[Hb|[]]]]] Hsame; injection Hb as <- <-.
  - unfold amd_processor.
    rewrite (@cell_agree r r' _ (Hsame (lit "Name") ltac:(simpl; tauto))).
    destruct (cell r' (lit "Name")); cbn [bind]; [|reflexivity].
    rewrite (@cell_agree r r' _ (Hsame (lit "Default TDP") ltac:(simpl; tauto))).
    destruct (cell r' (lit "Default TDP")); cbn [bind]; [|reflexivity].
    rewrite (@cell_agree r r' _ (Hsame (lit "# of CPU Cores") ltac:(simpl; tauto))).
    destruct (cell r' (lit "# of CPU Cores")); cbn [bind]; [|reflexivity].
    now rewrite (@cell_agree r r' _ (Hsame (lit "# of Threads") ltac:(simpl; tauto))).
  - unfold ampere_altra_processor.
    rewrite (@cell_agree r r' _ (Hsame (lit "USAGE POWER (W)") ltac:(simpl; tauto))).
    destruct (cell r' (lit "USAGE POWER (W)")); cbn [bind]; [|reflexivity].
    destruct (float_ _); cbn [bind]; [|reflexivity].
    rewrite (@cell_agree r r' _ (Hsame (lit "CORES") ltac:(simpl; tauto))).
    destruct (cell r' (lit "CORES")); cbn [bind]; [|reflexivity].
    destruct (float_ _); cbn [bind]; [|reflexivity].
    destruct (int_of_float _); cbn [bind]; [|reflexivity].
    now rewrite (@cell_agree r r' _ (Hsame (lit "PRODUCT NAME") ltac:(simpl; tauto))).
  - unfold ampere_one_processor.
    rewrite (@cell_agree r r' _ (Hsame (lit "Processor Model") ltac:(simpl; tauto))).
    destruct (cell r' (lit "Processor Model")); cbn [bind]; [|reflexivity].
    rewrite (@cell_agree r r' _ (Hsame (lit "Usage Power*") ltac:(simpl; tauto))).
    destruct (cell r' (lit "Usage Power*")); cbn [bind]; [|reflexivity].
    destruct (float_ _); cbn [bind]; [|reflexivity].
    now rewrite (@cell_agree r r' _ (Hsame (lit "Core Count") ltac:(simpl; tauto))).
  - unfold green_algorithms_processor.
    rewrite (@cell_agree r r' _ (Hsame (lit "model") ltac:(simpl; tauto))).
    destruct (cell r' (lit "model")); cbn [bind]; [|reflexivity].
    rewrite (@cell_agree r r' _ (Hsame (lit "manufacturer") ltac:(simpl; tauto))).
    destruct (cell r' (lit "manufacturer")); cbn [bind]; [|reflexivity].
    rewrite (@cell_agree r r' _ (Hsame (lit "TDP") ltac:(simpl; tauto))).
    destruct (cell r' (lit "TDP")); cbn [bind]; [|reflexivity].
    destruct (float_ _); cbn [bind]; [|reflexivity].
    rewrite (@cell_agree r r' _ (Hsame (lit "n_cores") ltac:(simpl; tauto))).
    destruct (cell r' (lit "n_cores")); cbn [bind]; [|reflexivity].
    destruct (float_ _); cbn [bind]; [|reflexivity].
    destruct (int_of_float _); cbn [bind]; [|reflexivity].
    rewrite (@cell_agree r r' _ (Hsame (lit "threads") ltac:(simpl; tauto))).
    destruct (cell r' (lit "threads")); cbn [bind]; [|reflexivity].
    destruct (int_ _); cbn [bind]; [|reflexivity].
    destruct (per_unit _ _); cbn [bind]; [|reflexivity].
    destruct (per_unit _ _); cbn [bind]; [|reflexivity].
    now rewrite (@cell_agree r r' _ (Hsame (lit "source") ltac:(simpl; tauto))).
Qed.

(** The four DictReader parsers read a line by column name only.  Take two
    files with distinct column names: if a line of the one and a line of
    the other hold the same cell (or both none) under every column the
    parser requires, the parser builds the same record from both, or fails
    on both alike.  Where the columns stand, what other columns there are
    and what they hold makes no difference. *)
Theorem columns_are_read_by_name
    (headers : list str) (build : row -> result (option processor))
    (names1 line1 names2 line2 : list str) :
  In (headers, build) builders ->
  NoDup names1 -> NoDup names2 ->
  (forall h, In h headers ->
     exists i j, nth_error names1 i = Some h /\
                 nth_error names2 j = Some h /\
                 nth_error line1 i = nth_error line2 j) ->
  build (zip_row names1 line1 []) = build (zip_row names2 line2 []).
Proof.
  intros Hb Hnd1 Hnd2 Hcols.
  apply (builders_read_required _ _ Hb). intros h Hh.
  destruct (Hcols h Hh) as (i & j & Hi & Hj & Hcell).
  rewrite (@get_zip_row names1 line1 [] i h Hnd1 Hi).
  rewrite (@get_zip_row names2 line2 [] j h Hnd2 Hj).
  now rewrite Hcell.
Qed.

End ByName.

(** ** Files without rows *)

Section NoRows.
Context `{Builtins}.

Lemma read_and_process_no_rows headers build fs path st :
  headers <> [] ->
  (csv_at fs path = Some [] ->
   read_and_process headers build fs path st = (Raise TypeError, st)) /\
  (forall names blanks,
      csv_at fs path = Some (names :: blanks) ->
      (forall line, In line blanks -> line = []) ->
      (forall h, In h headers -> In h names) ->
      read_and_process headers build fs path st = (Ok tt, st)).
Proof.
  intros Hne. split.
  - intros Hfile. unfold read_and_process, open. rewrite Hfile.
    destruct headers as [|h headers]; [congruence|]. reflexivity.
  - intros names blanks Hfile Hblank Hall.
    unfold read_and_process, open. rewrite Hfile. cbn [fieldnames].
    rewrite (@PreProcessShape.check_headers_all headers names Hall).
    assert (Hrows : dict_rows (names :: blanks) = []).
    { unfold dict_rows. clear Hfile.
      induction blanks as [|line blanks IH]; [reflexivity|].
      rewrite (Hblank line (or_introl eq_refl)).
      cbn [filter is_blank negb]. apply IH.
      intros l Hl. apply Hblank. now right. }
    rewrite Hrows. reflexivity.
Qed.

(** A file is there but holds no record, for each of the four DictReader
    parsers.  If it holds nothing at all the parser dies of [TypeError]
    (the header check tests membership in [None]) and the run ends there,
    with the mapping and the console as they were.  If it holds the header
    row with the required columns, and after it nothing or blank lines
    only, the parser ends normally, stores nothing and prints nothing. *)
Theorem file_without_records
    (headers : list str) (parser : files -> str -> stmt)
    (fs : files) (path : str) (st : state) :
  In (headers, parser) header_checking ->
  (csv_at fs path = Some [] -> parser fs path st = (Raise TypeError, st)) /\
  (forall names blanks,
      csv_at fs path = Some (names :: blanks) ->
      (forall line, In line blanks -> line = []) ->
      (forall h, In h headers -> In h names) ->
      parser fs path st = (Ok tt, st)).
Proof.
  unfold header_checking. simpl.
  intros [Hp|[Hp|[Hp|[Hp|[]]]]]; injection Hp as <- <-;
    apply read_and_process_no_rows; discriminate.
Qed.

End NoRows.

(** ** The properties on the sample inputs *)

Lemma distinct_NoDup l : distinct l = true -> NoDup l.
Proof.
  induction l as [|x l IH]; simpl; [constructor|].
  intros Hd. apply andb_prop in Hd. destruct Hd as [Hx Hl].
  constructor; [|auto]. intros Hin.
  assert (in_list x l = true).
  { unfold in_list. apply existsb_exists. exists x.
    split; [exact Hin|apply str_eqb_refl]. }
  rewrite H in Hx. discriminate.
Qed.

Lemma stored_names_are_trimmed_witness :
  let r := zip_row ampere_altra_headers [lit "  "; lit "80"; lit "210"] [] in
  match construct (H := Reference.builtins) (ByAmpereAltra r) with
  | Ok (Some p) =>
      construct (H := Reference.builtins) (ByAmpereAltra r) = Ok (Some p) /\
      exists name,
        cell r (lit "PRODUCT NAME") = Ok name /\
        model p = lit "AmpereAltra " ++ strip name /\
        trimmed (strip name) /\
        (strip name = [] ->
         model p = lit "AmpereAltra " /\ ~ trimmed (model p))
  | _ => False
  end.
Proof.
  intros r.
  destruct (construct (H := Reference.builtins) (ByAmpereAltra r))
    as [[p|]|e] eqn:E.
  - split; [reflexivity|].
    exact (stored_names_are_trimmed (H := Reference.builtins)
             (ByAmpereAltra r) E).
  - vm_compute in E. discriminate E.
  - vm_compute in E. discriminate E.
Defined.

Lemma ampere_threads_are_cores_witness :
  let r := zip_row ampere_one_headers
             [lit "AmpereOne" ++ registered ++ lit " A192-32X"; lit "192";
              lit "350W"] [] in
  match ampere_one_processor (H := Reference.builtins) r with
  | Ok (Some p) =>
      (ampere_altra_processor (H := Reference.builtins) r = Ok (Some p) \/
       ampere_one_processor (H := Reference.builtins) r = Ok (Some p)) /\
      (n_threads p = n_cores p /\
       tdp_per_thread p = tdp_per_core p /\
       manufacturer p = lit "Ampere")
  | _ => False
  end.
Proof.
  intros r.
  destruct (ampere_one_processor (H := Reference.builtins) r)
    as [[p|]|e] eqn:E.
  - split; [right; reflexivity|].
    exact (ampere_threads_are_cores (H := Reference.builtins) r
             (or_intror E)).
  - vm_compute in E. discriminate E.
  - vm_compute in E. discriminate E.
Defined.

Lemma intel_tdp_is_carried_over_witness :
  let name := lit "Xeon E-2314" in
  let d := Sample.no_tdp in
  (Dict.get d (lit "TDP") = None /\
   Dict.get d (lit "Processor Base Power") = None) /\
  (intel_processor (H := Reference.builtins) name d None
   = Raise UnboundLocalError /\
   (forall name0 d0 v0 v p0,
       intel_processor (H := Reference.builtins) name0 d0 v0
       = Ok (v, Some p0) ->
       (forall v' p,
           intel_processor (H := Reference.builtins) name d v
           = Ok (v', Some p) -> tdp p = tdp p0) /\
       (forall v', intel_processor (H := Reference.builtins) name d v
                   <> Ok (v', None)) /\
       (forall cores threads nc nt q1 q2,
           Dict.get d (lit "Total Cores") = Some cores ->
           int_of_str (Builtins := Reference.builtins) (strip cores)
           = Some nc ->
           Dict.get d (lit "Total Threads") = Some threads ->
           int_of_str (Builtins := Reference.builtins) (strip threads)
           = Some nt ->
           per_unit (tdp p0) nc = Ok q1 ->
           per_unit (tdp p0) nt = Ok q2 ->
           exists p,
             intel_processor (H := Reference.builtins) name d v
             = Ok (v, Some p) /\
             tdp p = tdp p0 /\ n_cores p = nc /\ n_threads p = nt)) /\
   (forall name0 d0 v0 v,
       intel_processor (H := Reference.builtins) name0 d0 v0 = Ok (v, None) ->
       intel_processor (H := Reference.builtins) name d v = Ok (v, None))).
Proof.
  intros name d.
  assert (H1 : Dict.get d (lit "TDP") = None) by reflexivity.
  assert (H2 : Dict.get d (lit "Processor Base Power") = None)
    by reflexivity.
  split; [split; assumption|].
  exact (intel_tdp_is_carried_over (H := Reference.builtins) name d H1 H2).
Defined.

(** On the sample file a second processor without a TDP row is stored with
    the 95 W of the processor before it. *)
Example intel_tdp_sample :
  option_map (fun r => option_map (fun p => tdp p) (snd r))
    (match intel_processor (H := Reference.builtins)
             (lit "Xeon E-2314") Sample.no_tdp (Some (TdpFloat 95))
     with Ok r => Some r | Raise _ => None end)
  = Some (Some 95%float).
Proof. vm_compute. reflexivity. Qed.

Lemma intel_table_pivots_witness :
  let r1 := [lit "Intel Product Comparison"] in
  let r2 := @nil str in
  let names_row := [lit ""; Sample.core_i7] in
  let body := [ [lit "Product Collection";
                 lit "9th Generation Intel Core i7 Processors"];
                [lit "Total Cores"; lit "8"];
                [lit "Total Threads"; lit "16"];
                [lit "TDP"; lit "95W"] ] in
  (NoDup (tl names_row) /\
   existsb (overlong (tl names_row)) body = false) /\
  exists data,
    intel_table (r1 :: r2 :: names_row :: body) = Ok data /\
    Dict.keys data = tl names_row /\
    forall i name, nth_error (tl names_row) i = Some name ->
      exists d,
        Dict.get data name = Some d /\
        Dict.get d (lit "Processor Name") = Some name /\
        forall key, in_list key intel_keys = true ->
                    Dict.get d key = attribute body key i.
Proof.
  intros r1 r2 names_row body.
  assert (H1 : NoDup (tl names_row))
    by (apply distinct_NoDup; vm_compute; reflexivity).
  assert (H2 : existsb (overlong (tl names_row)) body = false)
    by (vm_compute; reflexivity).
  split; [split; assumption|].
  exact (intel_table_pivots r1 r2 names_row body H1 H2).
Defined.

Lemma pre_process_frame_witness :
  let col := [lit "Any"; lit "AMD Ryzen 5 3600"; lit "Xeon E5-2670"] in
  match PreProcess.pre_process Sample.frame_ok with
  | Ok out =>
      (Dict.get Sample.frame_ok (lit "model")
       = Some (map PreProcess.VStr col) /\
       PreProcess.pre_process Sample.frame_ok = Ok out) /\
      ((forall k, k <> lit "model" -> k <> lit "manufacturer" ->
                  k <> lit "threads" ->
          Dict.get out k =
          option_map
            (PreProcess.select
               (map PreProcess.not_any (map PreProcess.VStr col)))
            (Dict.get Sample.frame_ok k)) /\
       ((forall k c, Dict.get Sample.frame_ok k = Some c ->
                     List.length c = List.length col) ->
        forall k c, Dict.get out k = Some c ->
                    List.length c = List.length (cleaned_names col)))
  | Raise _ => False
  end.
Proof.
  intros col.
  destruct (PreProcess.pre_process Sample.frame_ok) as [out|e] eqn:E.
  - assert (Hcol : Dict.get Sample.frame_ok (lit "model")
                   = Some (map PreProcess.VStr col)) by reflexivity.
    split; [split; [exact Hcol|reflexivity]|].
    exact (PreProcessShape.pre_process_frame Sample.frame_ok col Hcol E).
  - vm_compute in E. discriminate E.
Defined.

Lemma normalizer_header_passes_witness :
  match PreProcess.pre_process Sample.frame_full with
  | Ok out =>
      (PreProcess.pre_process Sample.frame_full = Ok out /\
       forall h, In h data_set_columns ->
                 In h (Dict.keys Sample.frame_full)) /\
      check_headers green_algorithms_headers (Some (to_csv_header out))
      = Ok tt
  | Raise _ => False
  end.
Proof.
  destruct (PreProcess.pre_process Sample.frame_full) as [out|e] eqn:E.
  - assert (Hcols : forall h, In h data_set_columns ->
                              In h (Dict.keys Sample.frame_full)).
    { intros h Hh. unfold data_set_columns in Hh. simpl in Hh.
      destruct Hh as [<-|[<-|[<-|[<-|[<-|[]]]]]]; simpl; tauto. }
    split; [split; [reflexivity|exact Hcols]|].
    exact (PreProcessShape.normalizer_header_passes Sample.frame_full
             E Hcols).
  - vm_compute in E. discriminate E.
Defined.

Lemma columns_are_read_by_name_witness :
  (In (amd_headers, amd_processor (H := Reference.builtins))
      (builders (H := Reference.builtins)) /\
   NoDup amd_headers /\ NoDup Sample.wide_names /\
   forall h, In h amd_headers ->
     exists i j, nth_error amd_headers i = Some h /\
                 nth_error Sample.wide_names j = Some h /\
                 nth_error Sample.ryzen_line i
                 = nth_error Sample.wide_line j) /\
  amd_processor (H := Reference.builtins)
    (zip_row amd_headers Sample.ryzen_line [])
  = amd_processor (H := Reference.builtins)
      (zip_row Sample.wide_names Sample.wide_line []).
Proof.
  assert (H1 : In (amd_headers, amd_processor (H := Reference.builtins))
                 (builders (H := Reference.builtins)))
    by (left; reflexivity).
  assert (H2 : NoDup amd_headers)
    by (apply distinct_NoDup; vm_compute; reflexivity).
  assert (H3 : NoDup Sample.wide_names)
    by (apply distinct_NoDup; vm_compute; reflexivity).
  assert (H4 : forall h, In h amd_headers ->
             exists i j, nth_error amd_headers i = Some h /\
                         nth_error Sample.wide_names j = Some h /\
                         nth_error Sample.ryzen_line i
                         = nth_error Sample.wide_line j).
  { intros h Hh. unfold amd_headers in Hh. simpl in Hh.
    destruct Hh as [<-|[<-|[<-|[<-|[]]]]].
    - exists 0%nat, 2%nat. repeat split.
    - exists 1%nat, 4%nat. repeat split.
    - exists 2%nat, 3%nat. repeat split.
    - exists 3%nat, 0%nat. repeat split. }
  split; [repeat split; assumption|].
  exact (@columns_are_read_by_name Reference.builtins amd_headers
           (amd_processor (H := Reference.builtins))
           amd_headers Sample.ryzen_line Sample.wide_names Sample.wide_line
           H1 H2 H3 H4).
Defined.

Lemma file_without_records_witness :
  let empty := Sample.files_of [(amd_path, [])] [] in
  let header_only :=
    Sample.files_of [(amd_path, [Sample.wide_names; []; []])] [] in
  In (amd_headers, read_and_process_amd (H := Reference.builtins))
     (header_checking (H := Reference.builtins)) /\
  read_and_process_amd (H := Reference.builtins) empty amd_path initial
  = (Raise TypeError, initial) /\
  read_and_process_amd (H := Reference.builtins) header_only amd_path initial
  = (Ok tt, initial).
Proof.
  intros empty header_only.
  assert (Hin : In (amd_headers,
                    read_and_process_amd (H := Reference.builtins))
                   (header_checking (H := Reference.builtins)))
    by (left; reflexivity).
  split; [exact Hin|]. split.
  - apply (proj1 (@file_without_records Reference.builtins
                    amd_headers _ empty amd_path initial Hin)).
    reflexivity.
  - apply (proj2 (@file_without_records Reference.builtins
                    amd_headers _ header_only amd_path initial Hin)
             Sample.wide_names [[]; []]).
    + reflexivity.
    + intros line [<-|[<-|[]]]; reflexivity.
    + intros h Hh. unfold amd_headers in Hh. simpl in Hh.
      destruct Hh as [<-|[<-|[<-|[<-|[]]]]]; simpl; tauto.
Defined.

Lemma intel_items_escapes_witness :
  fst (intel_items (H := Reference.builtins) Sample.bad_tdp_table None
         initial)
  = Raise ValueError /\
  ((ValueError = UnboundLocalError /\ @None tdp_value = None /\
    exists name d rest,
      Sample.bad_tdp_table = (name, d) :: rest /\
      Dict.get d (lit "TDP") = None /\
      Dict.get d (lit "Processor Base Power") = None) \/
   (ValueError = KeyError /\
    exists name d,
      In (name, d) Sample.bad_tdp_table /\
      (Dict.get d (lit "Total Cores") = None \/
       Dict.get d (lit "Total Threads") = None)) \/
   ValueError = ValueError \/ ValueError = OverflowError).
Proof.
  assert (Hr : fst (intel_items (H := Reference.builtins)
                      Sample.bad_tdp_table None initial)
               = Raise ValueError) by (vm_compute; reflexivity).
  split; [exact Hr|].
  exact (@intel_items_escapes Reference.builtins Sample.bad_tdp_table None
           initial ValueError Hr).
Defined.
